(** * Waveguide mode-solver wrapper: cache key, disk cache and derived quantities

    Shallow embedding of [cspdk/sin300/cband/tidy3d_tools/send_to_FDE.py]
    (class [Waveguide]) and the properties of its specification.

    - Numbers are IEEE binary64 values (primitive floats), strings are byte
      strings, numpy arrays are nested sequences, [hashlib.md5] is RFC 1321.
    - Objects live in a heap; the methods run in a state-and-exception monad
      over the heap, the cache directory and a trace of what was done to the
      outside (mkdir, load, save, construction of the simulation object,
      solver run, plot).
    - The libraries (tidy3d, gplugins, numpy's transcendental functions) are
      a type class [Library]; [custom_serializer], which the module calls
      but does not define, is the class [Serializer].
    - Definitions come first, then the properties; the last section
      evaluates the model in a concrete world. *)

From Stdlib Require Import ZArith List String Ascii Sorted Permutation.
From Stdlib Require Import Floats.PrimFloat.
From stdpp Require Import base option gmap strings list pretty.

Local Open Scope Z_scope.
Set Warnings "-register-all".

(** ** Python string helpers *)

Module Py.

(** [sep.join(parts)] *)
Fixpoint join (sep : string) (parts : list string) : string :=
  match parts with
  | [] => EmptyString
  | [p] => p
  | p :: rest => String.append p (String.append sep (join sep rest))
  end.

(** [s[:n]] for a non-negative [n] *)
Fixpoint take (n : nat) (s : string) : string :=
  match n, s with
  | O, _ => EmptyString
  | S _, EmptyString => EmptyString
  | S k, String c r => String c (take k r)
  end.

(** [str.__le__]: lexicographic order on code units. *)
Definition str_le (a b : string) : bool := String.leb a b.

Fixpoint insert_sorted (x : string) (l : list string) : list string :=
  match l with
  | [] => [x]
  | y :: r => if str_le x y then x :: y :: r else y :: insert_sorted x r
  end.

(** [sorted(names)] on strings (the result of a stable sort is the sorted
    permutation; insertion sort computes it). *)
Definition sorted (l : list string) : list string :=
  foldr insert_sorted [] l.

(** [s.encode()]: the string's bytes. *)
Definition encode (s : string) : list Z :=
  map (fun a => Z.of_N (N_of_ascii a)) (list_ascii_of_string s).

End Py.

(** Ordered by [str_le], neighbour by neighbour. *)
Definition str_ordered : list string -> Prop :=
  Sorted (fun a b => Py.str_le a b = true).

(** ** hashlib.md5 (RFC 1321), on 32-bit words carried in [Z] *)

Module MD5.

Definition mask32 : Z := 0xFFFFFFFF.
Definition add32 (x y : Z) : Z := Z.land (x + y) mask32.
Definition not32 (x : Z) : Z := Z.lxor x mask32.
Definition rotl32 (x : Z) (c : Z) : Z :=
  Z.land (Z.lor (Z.shiftl x c) (Z.shiftr x (32 - c))) mask32.

Definition K : list Z :=
  [ 0xd76aa478; 0xe8c7b756; 0x242070db; 0xc1bdceee; 0xf57c0faf; 0x4787c62a;
    0xa8304613; 0xfd469501; 0x698098d8; 0x8b44f7af; 0xffff5bb1; 0x895cd7be;
    0x6b901122; 0xfd987193; 0xa679438e; 0x49b40821; 0xf61e2562; 0xc040b340;
    0x265e5a51; 0xe9b6c7aa; 0xd62f105d; 0x02441453; 0xd8a1e681; 0xe7d3fbc8;
    0x21e1cde6; 0xc33707d6; 0xf4d50d87; 0x455a14ed; 0xa9e3e905; 0xfcefa3f8;
    0x676f02d9; 0x8d2a4c8a; 0xfffa3942; 0x8771f681; 0x6d9d6122; 0xfde5380c;
    0xa4beea44; 0x4bdecfa9; 0xf6bb4b60; 0xbebfbc70; 0x289b7ec6; 0xeaa127fa;
    0xd4ef3085; 0x04881d05; 0xd9d4d039; 0xe6db99e5; 0x1fa27cf8; 0xc4ac5665;
    0xf4292244; 0x432aff97; 0xab9423a7; 0xfc93a039; 0x655b59c3; 0x8f0ccc92;
    0xffeff47d; 0x85845dd1; 0x6fa87e4f; 0xfe2ce6e0; 0xa3014314; 0x4e0811a1;
    0xf7537e82; 0xbd3af235; 0x2ad7d2bb; 0xeb86d391 ].

Definition S : list Z :=
  [ 7; 12; 17; 22; 7; 12; 17; 22; 7; 12; 17; 22; 7; 12; 17; 22;
    5; 9; 14; 20; 5; 9; 14; 20; 5; 9; 14; 20; 5; 9; 14; 20;
    4; 11; 16; 23; 4; 11; 16; 23; 4; 11; 16; 23; 4; 11; 16; 23;
    6; 10; 15; 21; 6; 10; 15; 21; 6; 10; 15; 21; 6; 10; 15; 21 ].

Record state := St { sa : Z; sb : Z; sc : Z; sd : Z }.

Definition init : state :=
  St 0x67452301 0xefcdab89 0x98badcfe 0x10325476.

Definition zth (l : list Z) (i : Z) : Z := nth (Z.to_nat i) l 0.

(** One of the 64 operations of a block. *)
Definition round (M : list Z) (st : state) (i : Z) : state :=
  let '(St a b c d) := st in
  let '(f, g) :=
    if i <? 16 then (Z.lor (Z.land b c) (Z.land (not32 b) d), i)
    else if i <? 32 then
      (Z.lor (Z.land d b) (Z.land (not32 d) c), (5 * i + 1) mod 16)
    else if i <? 48 then (Z.lxor b (Z.lxor c d), (3 * i + 5) mod 16)
    else (Z.lxor c (Z.lor b (not32 d)), (7 * i) mod 16) in
  let f' := add32 (add32 (add32 f a) (zth K i)) (zth M g) in
  St d (add32 b (rotl32 f' (zth S i))) b c.

(** Little-endian word of four bytes. *)
Definition word_le (b0 b1 b2 b3 : Z) : Z :=
  b0 + 256 * b1 + 65536 * b2 + 16777216 * b3.

Fixpoint words_le (n : nat) (bs : list Z) : list Z :=
  match n, bs with
  | Datatypes.S k, b0 :: b1 :: b2 :: b3 :: r => word_le b0 b1 b2 b3 :: words_le k r
  | _, _ => []
  end.

Definition block (st : state) (bs : list Z) : state :=
  let M := words_le 16 bs in
  let '(St a b c d) := foldl (round M) st (map Z.of_nat (seq 0 64)) in
  St (add32 (sa st) a) (add32 (sb st) b) (add32 (sc st) c) (add32 (sd st) d).

Definition bytes_le (n : nat) (x : Z) : list Z :=
  map (fun i => Z.land (Z.shiftr x (8 * Z.of_nat i)) 255) (seq 0 n).

(** Message padding: 0x80, zeros up to 56 mod 64, then the bit length. *)
Definition pad (msg : list Z) : list Z :=
  let len := Z.of_nat (length msg) in
  let zeros := Z.to_nat ((55 - len) mod 64) in
  msg ++ [128] ++ repeat 0 zeros ++ bytes_le 8 ((8 * len) mod 2 ^ 64).

Fixpoint blocks (n : nat) (st : state) (bs : list Z) : state :=
  match n with
  | O => st
  | Datatypes.S k => blocks k (block st (firstn 64 bs)) (skipn 64 bs)
  end.

Definition digest_state (msg : list Z) : state :=
  let p := pad msg in
  blocks (Nat.div (length p) 64) init p.

Definition digest (msg : list Z) : list Z :=
  let '(St a b c d) := digest_state msg in
  bytes_le 4 a ++ bytes_le 4 b ++ bytes_le 4 c ++ bytes_le 4 d.

Definition hexchars : list ascii :=
  list_ascii_of_string "0123456789abcdef".

Definition hexdigit (n : Z) : ascii :=
  nth (Z.to_nat (n mod 16)) hexchars "0"%char.

Definition hexbyte (b : Z) : list ascii := [hexdigit (b / 16); hexdigit b].

(** [hashlib.md5(msg).hexdigest()] *)
Definition hexdigest (msg : list Z) : string :=
  string_of_list_ascii (concat (map hexbyte (digest msg))).

End MD5.

Arguments MD5.hexdigest : simpl never.
Arguments MD5.digest_state : simpl never.

(** ** Values *)

Abbreviation float := PrimFloat.float.

(** A complex number: real and imaginary part. *)
Abbreviation complex := (float * float)%type.

(** Python truthiness of a float: [bool(x)] is [x != 0]. *)
Definition float_truthy (x : float) : bool := negb (PrimFloat.eqb x 0%float).

(** numpy arrays as nested sequences; [El] is a rank-0 array. *)
Inductive ndarray (A : Type) : Type :=
| El (a : A)
| Nd (items : list (ndarray A)).
Arguments El {A} a.
Arguments Nd {A} items.

(** A named array of a result archive: real or complex dtype. *)
Inductive array : Type :=
| ArrF (a : ndarray float)
| ArrC (a : ndarray complex).

(** The mapping of named arrays held in [_cached_data] and in an [.npz] file. *)
Abbreviation npz := (gmap string array).

Inductive exn : Type :=
| AttributeError (name : string)
| KeyError (key : string)
| IndexError
| ValueError (msg : string)
| TypeError (msg : string)
| BroadcastError
| FileNotFoundError (file : string)
| ReferenceError
| LibraryError (msg : string).

Inductive result (A : Type) : Type :=
| Ok (a : A)
| Raise (e : exn).
Arguments Ok {A} a.
Arguments Raise {A} e.

Definition result_bind {A B} (r : result A) (k : A -> result B) : result B :=
  match r with Ok a => k a | Raise e => Raise e end.

Section MapM.
Context {A B : Type} (f : A -> result B).

Fixpoint result_mapM (l : list A) : result (list B) :=
  match l with
  | [] => Ok []
  | x :: r =>
      result_bind (f x) (fun y =>
      result_bind (result_mapM r) (fun ys => Ok (y :: ys)))
  end.
End MapM.

(** ** numpy / xarray operations on nested arrays *)

Module Np.
Section Ops.
Context {A : Type}.

(** [a.squeeze()]: every axis of length one is dropped. *)
Fixpoint squeeze (a : ndarray A) : ndarray A :=
  match a with
  | El x => El x
  | Nd [x] => squeeze x
  | Nd items => Nd (map squeeze items)
  end.

(** All elements in row-major order. *)
Fixpoint flatten (a : ndarray A) : list A :=
  match a with
  | El x => [x]
  | Nd items => concat (map flatten items)
  end.

(** [a.size] *)
Definition size (a : ndarray A) : Z := Z.of_nat (length (flatten a)).

(** Whether the items of an axis are scalars (the axis is the last one). *)
Definition last_axis (items : list (ndarray A)) : bool :=
  match items with
  | El _ :: _ => true
  | [] => true
  | Nd _ :: _ => false
  end.

(** Index [i] of a Python sequence of length [n]; negative indices count
    from the end. *)
Definition py_index (n : nat) (i : Z) : result nat :=
  if (0 <=? i) && (i <? Z.of_nat n) then Ok (Z.to_nat i)
  else if (i <? 0) && (- Z.of_nat n <=? i) then Ok (Z.to_nat (Z.of_nat n + i))
  else Raise IndexError.

(** [a[..., i]]: index the last axis. *)
Fixpoint index_last (i : Z) (a : ndarray A) : result (ndarray A) :=
  match a with
  | El _ => Raise IndexError
  | Nd items =>
      if last_axis items then
        result_bind (py_index (length items) i) (fun k =>
        match nth_error items k with
        | Some x => Ok x
        | None => Raise IndexError
        end)
      else
        result_bind (result_mapM (index_last i) items) (fun l => Ok (Nd l))
  end.

(** [a[i]] with an integer: index the first axis. *)
Definition index_first (i : Z) (a : ndarray A) : result (ndarray A) :=
  match a with
  | El _ => Raise IndexError
  | Nd items =>
      result_bind (py_index (length items) i) (fun k =>
      match nth_error items k with
      | Some x => Ok x
      | None => Raise IndexError
      end)
  end.

(** [a.shape]: the length of each axis (arrays are rectangular, so the
    first item of an axis stands for all). *)
Fixpoint shape (a : ndarray A) : list nat :=
  match a with
  | El _ => []
  | Nd items =>
      length items :: match items with
                      | x :: _ => shape x
                      | [] => []
                      end
  end.

(** [da.sel(mode_index=i)] for a data array whose last dimension is
    [mode_index] with labels 0, 1, ...: a missing label is a [KeyError]. *)
Definition sel_mode_index (i : Z) (a : ndarray A) : result (ndarray A) :=
  if i <? 0 then Raise (KeyError "mode_index")
  else match index_last i a with
       | Ok x => Ok x
       | Raise _ => Raise (KeyError "mode_index")
       end.

(** The elements of a rank-1 array, when it is one. *)
Definition as_row (a : ndarray A) : option (list A) :=
  match a with
  | Nd items =>
      foldr (fun x acc =>
               match x, acc with
               | El y, Some l => Some (y :: l)
               | _, _ => None
               end) (Some []) items
  | El _ => None
  end.

(** The rows of a rank-2 array, when it is one. *)
Definition as_matrix (a : ndarray A) : option (list (list A)) :=
  match a with
  | Nd items =>
      foldr (fun x acc =>
               match as_row x, acc with
               | Some r, Some l => Some (r :: l)
               | _, _ => None
               end) (Some []) items
  | El _ => None
  end.

(** The rank-1 array of a list and the rank-2 array of a list of rows. *)
Definition of_row (l : list A) : ndarray A := Nd (map El l).
Definition of_matrix (m : list (list A)) : ndarray A := Nd (map of_row m).

(** Columns of a list of rows of equal length [n]. *)
Fixpoint columns (n : nat) (m : list (list A)) : list (list A) :=
  match n with
  | O => []
  | S k => omap head m :: columns k (map (drop 1) m)
  end.

(** [a.T] for the ranks that occur here: a rank-2 array is transposed,
    rank 0 and rank 1 are unchanged. *)
Definition T (a : ndarray A) : ndarray A :=
  match a with
  | El _ => a
  | Nd items =>
      if last_axis items then a
      else match as_matrix a with
           | Some (r :: m) => of_matrix (columns (length r) (r :: m))
           | _ => a
           end
  end.

(** An elementwise operation, such as [c * a] with a Python scalar [c]. *)
Fixpoint map_nd {B} (f : A -> B) (a : ndarray A) : ndarray B :=
  match a with
  | El x => El (f x)
  | Nd items => Nd (map (map_nd f) items)
  end.
End Ops.

Section Broadcast.
Context {A : Type} (op : A -> A -> A).

Fixpoint zip_op (l r : list A) : list A :=
  match l, r with
  | x :: l', y :: r' => op x y :: zip_op l' r'
  | _, _ => []
  end.

(** [v <op> w] on two rank-1 arrays under numpy's broadcasting rule. *)
Definition bcast_rows (v w : list A) : result (list A) :=
  if Nat.eqb (length v) (length w) then Ok (zip_op v w)
  else match v, w with
       | [x], _ => Ok (map (op x) w)
       | _, [y] => Ok (map (fun x => op x y) v)
       | _, _ => Raise BroadcastError
       end.

(** [a <op> w] for [a] of rank at most two and [w] of rank at most one
    (the shapes [loss_dB_per_cm] meets). *)
Definition bcast (a w : ndarray A) : result (ndarray A) :=
  match w with
  | El y => Ok (map_nd (fun x => op x y) a)
  | Nd _ =>
      match as_row w with
      | None => Raise BroadcastError
      | Some wr =>
          match a with
          | El x => Ok (of_row (map (op x) wr))
          | Nd _ =>
              match as_row a, as_matrix a with
              | Some ar, _ => result_bind (bcast_rows ar wr) (fun r => Ok (of_row r))
              | None, Some m =>
                  result_bind (result_mapM (fun r => bcast_rows r wr) m)
                    (fun rows => Ok (of_matrix rows))
              | None, None => Raise BroadcastError
              end
          end
      end
  end.
End Broadcast.
End Np.

(** [MaterialSpecTidy3d]: a material name, a refractive index, an
    (index, extinction) pair, or a medium object of the simulation library. *)
Inductive MaterialSpec (medium : Type) : Type :=
| MatName (name : string)
| MatIndex (n : float)
| MatNK (n k : float)
| MatMedium (m : medium).
Arguments MatName {medium} name.
Arguments MatIndex {medium} n.
Arguments MatNK {medium} n k.
Arguments MatMedium {medium} m.

(** [PathType]: a string or a [pathlib.Path]. *)
Inductive PathType : Type :=
| PathStr (s : string)
| PathObj (s : string).

(** The Python objects that a declared field can hold. *)
Inductive value (medium : Type) : Type :=
| VNone
| VBool (b : bool)
| VInt (z : Z)
| VFloat (x : float)
| VStr (s : string)
| VPath (s : string)
| VTuple (n k : float)
| VArray (a : ndarray float)
| VMedium (m : medium).
Arguments VNone {medium}.
Arguments VBool {medium} b.
Arguments VInt {medium} z.
Arguments VFloat {medium} x.
Arguments VStr {medium} s.
Arguments VPath {medium} s.
Arguments VTuple {medium} n k.
Arguments VArray {medium} a.
Arguments VMedium {medium} m.

(** ** The libraries the module calls (tidy3d, gplugins, numpy, xarray) *)

Record ModeSpec := {
  ms_num_modes : Z;
  ms_target_neff : float;
  ms_bend_radius : option float;
  ms_bend_axis : Z;
  ms_num_pml : Z * Z;
  ms_precision : string;
  ms_group_index_step : bool + float }.

(** The keyword arguments of [waveguide.RectangularDielectric(...)]. *)
Record RectangularDielectric (medium : Type) := {
  rd_wavelength : ndarray float;
  rd_core_width : float;
  rd_core_thickness : float;
  rd_core_medium : medium;
  rd_clad_medium : medium;
  rd_box_medium : option medium;
  rd_slab_thickness : float;
  rd_clad_thickness : option float;
  rd_box_thickness : option float;
  rd_side_margin : option float;
  rd_sidewall_angle : float;
  rd_sidewall_thickness : float;
  rd_sidewall_medium : option medium;
  rd_surface_thickness : float;
  rd_surface_medium : option medium;
  rd_propagation_axis : Z;
  rd_normal_axis : Z;
  rd_mode_spec : ModeSpec;
  rd_grid_resolution : Z;
  rd_max_grid_scaling : float }.

(** What the mode solver hands back: the six field components with dims
    (x, y, z, f, mode_index), their x and y coordinates, and the derived
    arrays with dims (f, mode_index). *)
Record ModeData := {
  md_fields : gmap string (ndarray complex);
  md_x : list float;
  md_y : list float;
  md_n_complex : ndarray complex;
  md_mode_area : ndarray float;
  md_n_group : option (ndarray float) }.

Class Library := {
  medium : Type;
  (** [gplugins.tidy3d.materials.get_medium] *)
  get_medium : MaterialSpec medium -> result medium;
  (** [medium.eps_model(freq)] *)
  eps_model : medium -> float -> complex;
  (** [td.Medium.from_nk(n, k, freq)], which validates its arguments *)
  from_nk : float -> float -> float -> result medium;
  (** the validation [td.ModeSpec(...)] runs on its arguments *)
  check_ModeSpec : ModeSpec -> result unit;
  (** the validation [waveguide.RectangularDielectric(...)] runs on its
      arguments *)
  check_RectangularDielectric : RectangularDielectric medium -> result unit;
  (** [z ** 0.5] on a complex number *)
  csqrt : complex -> complex;
  (** [np.mean] *)
  np_mean : ndarray float -> float;
  (** [np.log10] *)
  np_log10 : float -> float;
  (** [np.abs] of a complex number, from its real and imaginary part *)
  np_hypot : float -> float -> float;
  (** [np.sum(np.abs(e) ** 2)] of a data array of complex samples *)
  np_sum_abs_sq : ndarray complex -> float;
  (** [np.arctan2] *)
  np_arctan2 : float -> float -> float;
  (** [td.C_0], the speed of light in um/s *)
  C_0 : float;
  (** [wg.mode_solver.data] with [wg.n_complex], [wg.mode_area], [wg.n_group] *)
  mode_solver : RectangularDielectric medium -> ModeData;
  (** [wg.mode_solver.simulation.epsilon(wg.mode_solver.plane, freq)] *)
  sim_epsilon : RectangularDielectric medium -> ndarray float -> ndarray complex;
  (** [data.outer_dot(other, conjugate)] *)
  outer_dot : ModeData -> ModeData -> bool -> ndarray complex;
  (** [repr(s)] of a string *)
  py_repr : string -> string }.

(** [custom_serializer] is called by [filepath] and [__repr__] but the module
    neither defines nor imports it: it is a parameter of the model. *)
Class Serializer `{Library} := {
  custom_serializer : value medium -> result string }.

(** ** The configuration record *)

Section Model.
Context `{ser : Serializer}.

(** The declared fields of [Waveguide], after validation. *)
Record Config := {
  wavelength : ndarray float;
  core_width : float;
  core_thickness : float;
  core_material : MaterialSpec medium;
  clad_material : MaterialSpec medium;
  box_material : option (MaterialSpec medium);
  slab_thickness : float;
  clad_thickness : option float;
  box_thickness : option float;
  side_margin : option float;
  sidewall_angle : float;
  sidewall_thickness : float;
  sidewall_k : float;
  surface_thickness : float;
  surface_k : float;
  bend_radius : option float;
  num_modes : Z;
  group_index_step : bool + float;
  precision : string;
  grid_resolution : Z;
  max_grid_scaling : float;
  cache_path : option PathType;
  overwrite : bool }.

(** What a caller may pass for [wavelength]: [float | Sequence[float] | Any]. *)
Inductive WavelengthArg : Type :=
| WFloat (x : float)
| WList (xs : list float)
| WTuple (xs : list float)
| WArray (a : ndarray float).

(** What pydantic makes of the argument before the validator runs: the
    members of [float | Sequence[float] | Any] are tried in order, and
    [float(v)] succeeds on a number and on an array of a single element of
    any rank, which so becomes that number; a list or a tuple stays a
    sequence, any other array is kept as it is. *)
Definition coerce_wavelength (v : WavelengthArg) : WavelengthArg :=
  match v with
  | WArray a =>
      match Np.flatten a with
      | [x] => WFloat x
      | _ => WArray a
      end
  | _ => v
  end.

(** The validator [_fix_wavelength_type]: [np.array(v, dtype=float)]. *)
Definition _fix_wavelength_type (v : WavelengthArg) : ndarray float :=
  match v with
  | WFloat x => El x
  | WList xs => Nd (map El xs)
  | WTuple xs => Nd (map El xs)
  | WArray a => a
  end.

(** [Waveguide(wavelength=v, ...)]: the other fields, validated, as given
    in [rest]. *)
Definition make_config (v : WavelengthArg) (rest : Config) : Config :=
  {| wavelength := _fix_wavelength_type (coerce_wavelength v);
     core_width := core_width rest;
     core_thickness := core_thickness rest;
     core_material := core_material rest;
     clad_material := clad_material rest;
     box_material := box_material rest;
     slab_thickness := slab_thickness rest;
     clad_thickness := clad_thickness rest;
     box_thickness := box_thickness rest;
     side_margin := side_margin rest;
     sidewall_angle := sidewall_angle rest;
     sidewall_thickness := sidewall_thickness rest;
     sidewall_k := sidewall_k rest;
     surface_thickness := surface_thickness rest;
     surface_k := surface_k rest;
     bend_radius := bend_radius rest;
     num_modes := num_modes rest;
     group_index_step := group_index_step rest;
     precision := precision rest;
     grid_resolution := grid_resolution rest;
     max_grid_scaling := max_grid_scaling rest;
     cache_path := cache_path rest;
     overwrite := overwrite rest |}.

Definition value_of_material (m : MaterialSpec medium) : value medium :=
  match m with
  | MatName s => VStr s
  | MatIndex n => VFloat n
  | MatNK n k => VTuple n k
  | MatMedium m => VMedium m
  end.

Definition value_of_opt {A} (f : A -> value medium) (o : option A) : value medium :=
  match o with Some a => f a | None => VNone end.

Definition value_of_path (p : PathType) : value medium :=
  match p with PathStr s => VStr s | PathObj s => VPath s end.

Definition value_of_step (s : bool + float) : value medium :=
  match s with inl b => VBool b | inr x => VFloat x end.

(** [self.__fields__]: the declared fields in declaration order, each with
    the attribute it reads. *)
Definition fields_table : list (string * (Config -> value medium)) :=
  [ ("wavelength", fun c => VArray (wavelength c));
    ("core_width", fun c => VFloat (core_width c));
    ("core_thickness", fun c => VFloat (core_thickness c));
    ("core_material", fun c => value_of_material (core_material c));
    ("clad_material", fun c => value_of_material (clad_material c));
    ("box_material", fun c => value_of_opt value_of_material (box_material c));
    ("slab_thickness", fun c => VFloat (slab_thickness c));
    ("clad_thickness", fun c => value_of_opt VFloat (clad_thickness c));
    ("box_thickness", fun c => value_of_opt VFloat (box_thickness c));
    ("side_margin", fun c => value_of_opt VFloat (side_margin c));
    ("sidewall_angle", fun c => VFloat (sidewall_angle c));
    ("sidewall_thickness", fun c => VFloat (sidewall_thickness c));
    ("sidewall_k", fun c => VFloat (sidewall_k c));
    ("surface_thickness", fun c => VFloat (surface_thickness c));
    ("surface_k", fun c => VFloat (surface_k c));
    ("bend_radius", fun c => value_of_opt VFloat (bend_radius c));
    ("num_modes", fun c => VInt (num_modes c));
    ("group_index_step", fun c => value_of_step (group_index_step c));
    ("precision", fun c => VStr (precision c));
    ("grid_resolution", fun c => VInt (grid_resolution c));
    ("max_grid_scaling", fun c => VFloat (max_grid_scaling c));
    ("cache_path", fun c => value_of_opt value_of_path (cache_path c));
    ("overwrite", fun c => VBool (overwrite c)) ]%string.

(** [self.__fields__.keys()] *)
Definition fields_keys : list string := map fst fields_table.

Fixpoint assoc {A} (k : string) (l : list (string * A)) : option A :=
  match l with
  | [] => None
  | (k', a) :: r => if String.eqb k k' then Some a else assoc k r
  end.

(** [getattr(self, name)] on the declared fields. *)
Definition getattr (c : Config) (name : string) : result (value medium) :=
  match assoc name fields_table with
  | Some proj => Ok (proj c)
  | None => Raise (AttributeError name)
  end.

(** ** Cache key and cache file name (the pure part of [filepath]) *)

(** [self.__class__.__name__] *)
Definition class_name : string := "Waveguide".

(** [bool(self.cache_path)]: [None] and the empty string are falsy, a
    [pathlib.Path] is always truthy. *)
Definition cache_enabled (c : Config) : bool :=
  match cache_path c with
  | None => false
  | Some (PathStr s) => negb (String.eqb s "")
  | Some (PathObj _) => true
  end.

(** [pathlib.Path(p)] as the string it prints. *)
Definition Path (p : PathType) : string :=
  match p with PathStr s => s | PathObj s => s end.

(** [dir / name] *)
Definition path_join (dir name : string) : string :=
  String.append dir (String.append "/" name).

(** The list [settings] of [filepath]. *)
Definition settings (c : Config) : result (list string) :=
  result_mapM
    (fun setting =>
       result_bind (getattr c setting) (fun v =>
       result_bind (custom_serializer v) (fun s =>
       Ok (String.append setting (String.append "=" s)))))
    (Py.sorted fields_keys).

(** [hashlib.md5(named_args_string.encode()).hexdigest()[:16]] *)
Definition cache_key (c : Config) : result string :=
  result_bind (settings c) (fun st =>
  let named_args_string := Py.join "_" st in
  Ok (Py.take 16 (MD5.hexdigest (Py.encode named_args_string)))).

(** [f"{self.__class__.__name__}_{h}.npz"] *)
Definition cache_file_name (h : string) : string :=
  String.append class_name (String.append "_" (String.append h ".npz")).

(** ** Instances, the file system and the monad of the methods *)

(** A [Waveguide] object: the declared fields and the two private
    attributes, unset until first assigned. *)
Record Instance := {
  config : Config;
  _cached_data : option npz;
  _waveguide : option (RectangularDielectric medium) }.

(** What the methods do to the outside, in order. *)
Inductive event : Type :=
| EvMkdir (dir : string)          (* cache_path.mkdir(...) *)
| EvLoad (file : string)          (* np.load(filepath) *)
| EvSave (file : string)          (* np.savez(filepath, ...) *)
| EvBuild (self : nat)            (* waveguide.RectangularDielectric(...) *)
| EvSolve (self : nat)            (* wg.mode_solver.data: the mode solver *)
| EvPlot (self : nat).            (* a plot drawn *)

(** Objects live in a heap and are named by their address, so that two
    names of one object see each other's assignments. *)
Record World := {
  heap : gmap nat Instance;
  files : gmap string npz;
  dirs : gset string;
  trace : list event }.

Definition M (A : Type) : Type := World -> result A * World.

Definition ret {A} (a : A) : M A := fun w => (Ok a, w).
Definition raise {A} (e : exn) : M A := fun w => (Raise e, w).
Definition lift {A} (r : result A) : M A := fun w => (r, w).
Definition bind {A B} (m : M A) (k : A -> M B) : M B :=
  fun w =>
    match m w with
    | (Ok a, w') => k a w'
    | (Raise e, w') => (Raise e, w')
    end.

Notation "'let*' x ':=' m 'in' k" := (bind m (fun x => k))
  (at level 10, x name, m at level 100, k at level 200).

Definition get_instance (self : nat) : M Instance :=
  fun w =>
    match heap w !! self with
    | Some i => (Ok i, w)
    | None => (Raise ReferenceError, w)
    end.

Definition put_instance (self : nat) (i : Instance) : M unit :=
  fun w =>
    (Ok tt, {| heap := <[self := i]> (heap w); files := files w;
               dirs := dirs w; trace := trace w |}).

Definition log (e : event) : M unit :=
  fun w =>
    (Ok tt, {| heap := heap w; files := files w; dirs := dirs w;
               trace := trace w ++ [e] |}).

(** [self._cached_data = d] *)
Definition set_cached_data (self : nat) (d : npz) : M unit :=
  let* i := get_instance self in
  put_instance self
    {| config := config i; _cached_data := Some d; _waveguide := _waveguide i |}.

(** [self._cached_data[k] = v] *)
Definition cached_setitem (self : nat) (k : string) (v : array) : M unit :=
  let* i := get_instance self in
  match _cached_data i with
  | Some d =>
      put_instance self
        {| config := config i; _cached_data := Some (<[k := v]> d);
           _waveguide := _waveguide i |}
  | None => raise (AttributeError "_cached_data")
  end.

(** [self._cached_data] *)
Definition get_cached_data (self : nat) : M npz :=
  let* i := get_instance self in
  match _cached_data i with
  | Some d => ret d
  | None => raise (AttributeError "_cached_data")
  end.

(** [self._waveguide = wg] *)
Definition set_waveguide (self : nat) (wg : RectangularDielectric medium) : M unit :=
  let* i := get_instance self in
  put_instance self
    {| config := config i; _cached_data := _cached_data i; _waveguide := Some wg |}.

(** [cache_path.mkdir(exist_ok=True, parents=True)] *)
Definition mkdir (dir : string) : M unit :=
  fun w =>
    (Ok tt, {| heap := heap w; files := files w; dirs := {[dir]} ∪ dirs w;
               trace := trace w ++ [EvMkdir dir] |}).

(** [filepath.exists()] *)
Definition path_exists (file : string) : M bool :=
  fun w => (Ok (bool_decide (is_Some (files w !! file))), w).

(** [np.load(filepath)] *)
Definition np_load (file : string) : M npz :=
  fun w =>
    match files w !! file with
    | Some d =>
        (Ok d, {| heap := heap w; files := files w; dirs := dirs w;
                  trace := trace w ++ [EvLoad file] |})
    | None => (Raise (FileNotFoundError file), w)
    end.

(** [np.savez(filepath, **d)] *)
Definition np_savez (file : string) (d : npz) : M unit :=
  fun w =>
    (Ok tt, {| heap := heap w; files := <[file := d]> (files w); dirs := dirs w;
               trace := trace w ++ [EvSave file] |}).

(** ** [Waveguide.filepath] *)

Definition filepath (self : nat) : M (option string) :=
  let* i := get_instance self in
  let c := config i in
  match cache_path c with
  | Some p =>
      if negb (cache_enabled c) then ret None
      else
        let cache_path := Path p in
        let* _ := mkdir cache_path in
        let* st := lift (settings c) in
        let named_args_string := Py.join "_" st in
        let h := Py.take 16 (MD5.hexdigest (Py.encode named_args_string)) in
        ret (Some (path_join cache_path (cache_file_name h)))
  | None => ret None
  end.

(** ** [Waveguide.waveguide] *)

(** [isinstance(m, td.CustomMedium | td.Medium)] picks the object itself,
    anything else goes through [get_medium]. *)
Definition resolve_medium (m : MaterialSpec medium) : result medium :=
  match m with
  | MatMedium md => Ok md
  | _ => get_medium m
  end.

(** [bool(m)] of a material specification. *)
Definition material_truthy (m : MaterialSpec medium) : bool :=
  match m with
  | MatName s => negb (String.eqb s "")
  | MatIndex n => float_truthy n
  | MatNK _ _ => true
  | MatMedium _ => true
  end.

Definition opt_truthy (o : option float) : bool :=
  match o with Some x => float_truthy x | None => false end.

(** The layer of lines 173-186: [td.Medium.from_nk(...)] when the
    coefficient is not zero. *)
Definition loss_medium (n_clad : complex) (k freq0 : float) : result (option medium) :=
  if negb (PrimFloat.eqb k 0%float)
  then result_bind (from_nk (fst n_clad) (PrimFloat.add (snd n_clad) k) freq0)
         (fun m => Ok (Some m))
  else Ok None.

(** The body of the [if not hasattr(self, "_waveguide")] branch: the media,
    the two loss layers, [td.ModeSpec(...)] and
    [waveguide.RectangularDielectric(...)], each of which can refuse its
    arguments. *)
Definition build_waveguide (c : Config) : result (RectangularDielectric medium) :=
  result_bind (resolve_medium (core_material c)) (fun core_medium =>
  result_bind (resolve_medium (clad_material c)) (fun clad_medium =>
  result_bind
    (match box_material c with
     | Some b =>
         if material_truthy b
         then result_bind (resolve_medium b) (fun m => Ok (Some m))
         else Ok None
     | None => Ok None
     end) (fun box_medium =>
  let freq0 := PrimFloat.div C_0 (np_mean (wavelength c)) in
  let n_core := csqrt (eps_model core_medium freq0) in
  let n_clad := csqrt (eps_model clad_medium freq0) in
  result_bind (loss_medium n_clad (sidewall_k c) freq0) (fun sidewall_medium =>
  result_bind (loss_medium n_clad (surface_k c) freq0) (fun surface_medium =>
  let mode_spec :=
    {| ms_num_modes := num_modes c;
       ms_target_neff := fst n_core;
       ms_bend_radius := bend_radius c;
       ms_bend_axis := 1;
       ms_num_pml := if opt_truthy (bend_radius c) then (12, 12) else (0, 0);
       ms_precision := precision c;
       ms_group_index_step := group_index_step c |} in
  result_bind (check_ModeSpec mode_spec) (fun _ =>
  let wg :=
    {| rd_wavelength := wavelength c;
       rd_core_width := core_width c;
       rd_core_thickness := core_thickness c;
       rd_core_medium := core_medium;
       rd_clad_medium := clad_medium;
       rd_box_medium := box_medium;
       rd_slab_thickness := slab_thickness c;
       rd_clad_thickness := clad_thickness c;
       rd_box_thickness := box_thickness c;
       rd_side_margin := side_margin c;
       rd_sidewall_angle := sidewall_angle c;
       rd_sidewall_thickness := sidewall_thickness c;
       rd_sidewall_medium := sidewall_medium;
       rd_surface_thickness := surface_thickness c;
       rd_surface_medium := surface_medium;
       rd_propagation_axis := 2;
       rd_normal_axis := 1;
       rd_mode_spec := mode_spec;
       rd_grid_resolution := grid_resolution c;
       rd_max_grid_scaling := max_grid_scaling c |} in
  result_bind (check_RectangularDielectric wg) (fun _ =>
  Ok wg))))))).

Definition waveguide (self : nat) : M (RectangularDielectric medium) :=
  let* i := get_instance self in
  match _waveguide i with
  | Some wg => ret wg
  | None =>
      let* wg := lift (build_waveguide (config i)) in
      let* _ := log (EvBuild self) in
      let* _ := set_waveguide self wg in
      ret wg
  end.

(** ** [Waveguide._data] *)

(** [wg.mode_solver.data] *)
Definition mode_solver_data (self : nat) (wg : RectangularDielectric medium)
  : M ModeData :=
  let* _ := log (EvSolve self) in
  ret (mode_solver wg).

(** [d[k]] on a mapping *)
Definition getitem {V} (d : gmap string V) (k : string) : result V :=
  match d !! k with
  | Some v => Ok v
  | None => Raise (KeyError k)
  end.

(** The keys [f + c for f in "EH" for c in "xyz"]. *)
Definition component_names : list string :=
  ["Ex"; "Ey"; "Ez"; "Hx"; "Hy"; "Hz"]%string.

(** The dict comprehension of lines 236-240. *)
Definition field_entries (fields : gmap string (ndarray complex))
  : result (list (string * array)) :=
  result_mapM
    (fun name =>
       result_bind (getitem fields name) (fun da =>
       Ok (name, ArrC (Np.squeeze da))))
    component_names.

(** [np.zeros(n)] *)
Definition np_zeros (n : Z) : result (list float) :=
  if n <? 0 then Raise (ValueError "negative dimensions are not allowed")
  else Ok (replicate (Z.to_nat n) 0%float).

(** [range(n)] *)
Definition range (n : Z) : list nat := seq 0 (Z.to_nat n).

(** [np.sum(np.abs(e) ** 2)] of one field component: the reduction is the
    library's (the modulus of a complex number, the order of summation and
    what xarray does with NaN). *)
Definition field_energy (e : ndarray complex) : float := np_sum_abs_sq e.

(** Lines 257-260 on the two energies [areas_e], in binary64: divide by
    their sum, scale by 100, and take each one's share of the pair. *)
Definition fractions_of_areas (a0 a1 : float) : float * float :=
  let s := PrimFloat.add a0 a1 in
  let b0 := PrimFloat.div a0 s in
  let b1 := PrimFloat.div a1 s in
  let c0 := PrimFloat.mul b0 100%float in
  let c1 := PrimFloat.mul b1 100%float in
  (PrimFloat.div c0 (PrimFloat.add c0 c1), PrimFloat.div c1 (PrimFloat.add c0 c1)).

(** The body of the loop for one mode: [(fraction_te[i], fraction_tm[i])]. *)
Definition fractions_of_mode (ex ey : ndarray complex) : float * float :=
  fractions_of_areas (field_energy ex) (field_energy ey).

(** One pass of the loop of lines 251-260 on the two arrays. *)
Definition fraction_step (fields : gmap string (ndarray complex))
    (acc : list float * list float) (i : nat) : result (list float * list float) :=
  result_bind (getitem fields "Ex") (fun ex =>
  result_bind (Np.sel_mode_index (Z.of_nat i) ex) (fun exi =>
  result_bind (getitem fields "Ey") (fun ey =>
  result_bind (Np.sel_mode_index (Z.of_nat i) ey) (fun eyi =>
  let '(te, tm) := fractions_of_mode exi eyi in
  Ok (<[i := te]> (fst acc), <[i := tm]> (snd acc)))))).

Fixpoint fraction_loop (fields : gmap string (ndarray complex))
    (acc : list float * list float) (modes : list nat)
  : result (list float * list float) :=
  match modes with
  | [] => Ok acc
  | i :: r =>
      result_bind (fraction_step fields acc i) (fun acc' =>
      fraction_loop fields acc' r)
  end.

(** Lines 248-260: [(fraction_te, fraction_tm)]. *)
Definition polarization_fractions (c : Config)
    (fields : gmap string (ndarray complex)) : result (list float * list float) :=
  result_bind (np_zeros (num_modes c)) (fun fraction_te =>
  result_bind (np_zeros (num_modes c)) (fun fraction_tm =>
  fraction_loop fields (fraction_te, fraction_tm) (range (num_modes c)))).

(** Lines 233-270 of [_data]: run the solver, collect the arrays into
    [self._cached_data] and store them when a cache file is given. *)
Definition _data_compute (self : nat) (c : Config) (filepath : option string)
  : M unit :=
  let* wg := waveguide self in
  let* md := mode_solver_data self wg in
  let fields := md_fields md in
  let* entries := lift (field_entries fields) in
  let* _ := set_cached_data self (list_to_map entries) in
  let* _ := lift (getitem fields "Ex") in
  let* _ := cached_setitem self "x" (ArrF (Np.of_row (md_x md))) in
  let* _ := cached_setitem self "y" (ArrF (Np.of_row (md_y md))) in
  let* _ := cached_setitem self "n_eff" (ArrC (Np.squeeze (md_n_complex md))) in
  let* _ := cached_setitem self "mode_area" (ArrF (Np.squeeze (md_mode_area md))) in
  let* fr := lift (polarization_fractions c fields) in
  let* _ := cached_setitem self "fraction_te" (ArrF (Np.of_row (fst fr))) in
  let* _ := cached_setitem self "fraction_tm" (ArrF (Np.of_row (snd fr))) in
  let* _ :=
    match md_n_group md with
    | Some g => cached_setitem self "n_group" (ArrF (Np.squeeze g))
    | None => ret tt
    end in
  match filepath with
  | Some f =>
      let* d := get_cached_data self in
      np_savez f d
  | None => ret tt
  end.

Definition _data (self : nat) : M npz :=
  let* i := get_instance self in
  match _cached_data i with
  | Some d => ret d
  | None =>
      let* filepath := filepath self in
      let* hit :=
        match filepath with
        | Some f =>
            let* e := path_exists f in
            ret (e && negb (overwrite (config i)))
        | None => ret false
        end in
      match filepath, hit with
      | Some f, true =>
          let* d := np_load f in
          let* _ := set_cached_data self d in
          get_cached_data self
      | _, _ =>
          let* _ := _data_compute self (config i) filepath in
          get_cached_data self
      end
  end.

(** ** The accessors *)

Definition data_item (self : nat) (k : string) : M array :=
  let* d := _data self in
  lift (getitem d k).

Definition fraction_te (self : nat) : M array := data_item self "fraction_te".
Definition fraction_tm (self : nat) : M array := data_item self "fraction_tm".
Definition n_eff (self : nat) : M array := data_item self "n_eff".
Definition mode_area (self : nat) : M array := data_item self "mode_area".

(** [self._data.get("n_group", None)] *)
Definition n_group (self : nat) : M (option array) :=
  let* d := _data self in
  ret (d !! "n_group").

(** [np.pi], [np.e] and the decimal literals of [loss_dB_per_cm]. *)
Definition np_pi : float := 0x1.921fb54442d18p+1%float.
Definition np_e : float := 0x1.5bf0a8b145769p+1%float.
Definition lit_1e_6 : float := 0x1.0c6f7a0b5ed8dp-20%float.
Definition lit_1e_2 : float := 0x1.47ae147ae147bp-7%float.

(** [np.imag(a)] *)
Definition np_imag (a : array) : ndarray float :=
  match a with
  | ArrC z => Np.map_nd snd z
  | ArrF x => Np.map_nd (fun _ => 0%float) x
  end.

(** Lines 305-307 on the arrays: [self.wavelength] and [self.n_eff]. *)
Definition loss_array (wavelength_um : ndarray float) (n : array)
  : result (ndarray float) :=
  let wavelength := Np.map_nd (fun x => PrimFloat.mul x lit_1e_6) wavelength_um in
  result_bind
    (Np.bcast PrimFloat.div
       (Np.map_nd (PrimFloat.mul (PrimFloat.mul 2%float np_pi)) (Np.T (np_imag n)))
       wavelength) (fun alpha =>
  Ok (Np.map_nd
        (fun x => PrimFloat.mul
                    (PrimFloat.mul (PrimFloat.mul 20%float (np_log10 np_e)) x)
                    lit_1e_2)
        (Np.T alpha))).

Definition loss_dB_per_cm (self : nat) : M (ndarray float) :=
  let* i := get_instance self in
  let* n := n_eff self in
  lift (loss_array (wavelength (config i)) n).

(** The wavelength [index] evaluates the permittivity at. *)
Definition index_wavelength (c : Config) : result (ndarray float) :=
  if 1 <? Np.size (wavelength c)
  then Np.index_first (Np.size (wavelength c) / 2) (wavelength c)
  else Ok (wavelength c).

Definition index (self : nat) : M (ndarray complex) :=
  let* wg := waveguide self in
  let* i := get_instance self in
  let* wl := lift (index_wavelength (config i)) in
  let* wg' := waveguide self in
  let eps := sim_epsilon wg' (Np.map_nd (PrimFloat.div C_0) wl) in
  ret (Np.map_nd csqrt (Np.T (Np.squeeze eps))).

Definition overlap (self : nat) (other : nat) (conjugate : bool)
  : M (ndarray complex) :=
  let* wg := waveguide self in
  let* self_data := mode_solver_data self wg in
  let* wg' := waveguide other in
  let* other_data := mode_solver_data other wg' in
  ret (Np.squeeze (outer_dot self_data other_data conjugate)).

(** ** Plotting *)

(** What [DataArray.plot] is asked to draw. *)
Record artist := {
  art_name : option string;
  art_values : ndarray float;
  art_coords : option (array * array);
  art_kwargs : gmap string float }.

Definition plot_grid (self : nat) : M unit :=
  let* _ := waveguide self in
  log (EvPlot self).

(** [a.shape] of a stored array *)
Definition array_shape (a : array) : list nat :=
  match a with
  | ArrF x => Np.shape x
  | ArrC z => Np.shape z
  end.

(** One coordinate against the named axes: a rank-1 coordinate must name an
    axis of its length, a rank-0 one no axis. *)
Definition check_coord (dims : list (string * nat)) (name : string) (c : array)
  : result unit :=
  match array_shape c, assoc name dims with
  | [n], Some s =>
      if Nat.eqb n s then Ok tt
      else Raise (ValueError "conflicting sizes for dimension")
  | [n], None =>
      Raise (ValueError "coordinate has dimensions that are not a subset of the DataArray dimensions")
  | [], Some _ =>
      Raise (ValueError "coordinate is a DataArray dimension, but it has another shape")
  | _, _ => Ok tt
  end.

(** [xarray.DataArray(values, coords={"y": y, "x": x})], no [dims] given:
    when there are as many coordinates as axes, two, the axes are named
    "y" and "x" in this order, otherwise "dim_0", "dim_1", ...; a
    coordinate of rank two or more is refused for want of dimension
    names, and every coordinate is checked against the axes. *)
Definition DataArray (values : ndarray float) (y x : array) : result unit :=
  let dims :=
    match Np.shape values with
    | [ny; nx] => [("y"%string, ny); ("x"%string, nx)]
    | _ => []
    end in
  if (2 <=? length (array_shape y))%nat || (2 <=? length (array_shape x))%nat
  then Raise (ValueError "cannot set variable with data of this rank without explicit dimension names")
  else result_bind (check_coord dims "y" y) (fun _ => check_coord dims "x" x).

(** [data_array.plot] with the keyword arguments, followed by
    [artist.axes]: xarray squeezes
    the array; with two axes left it draws an image, whose artist has
    [axes]; with no axis or no element it raises [TypeError]; with one axis
    it draws lines and with more a histogram, and what these return has no
    attribute [axes]. *)
Definition xarray_plot (self : nat) (values : ndarray float) : M unit :=
  let shp := Np.shape (Np.squeeze values) in
  if existsb (Nat.eqb 0) shp then raise (TypeError "No numeric data to plot.")
  else
    match shp with
    | [] => raise (TypeError "No numeric data to plot.")
    | [_; _] => log (EvPlot self)
    | _ =>
        let* _ := log (EvPlot self) in
        raise (AttributeError "axes")
    end.

Definition plot_index (self : nat) (kwargs : gmap string float) : M artist :=
  let* n := index self in
  let* _ := xarray_plot self (Np.map_nd fst n) in
  ret {| art_name := None; art_values := Np.map_nd fst n;
         art_coords := None; art_kwargs := kwargs |}.

(** [np.abs] of a complex number *)
Definition cabs (z : complex) : float := np_hypot (fst z) (snd z).

Definition is_nan (x : float) : bool := negb (PrimFloat.eqb x x).

(** [np.max] of the elements: a NaN wins. *)
Definition np_max (l : list float) : result float :=
  match l with
  | [] => Raise (ValueError "zero-size array to reduction operation maximum")
  | x :: r =>
      Ok (foldl (fun m y => if is_nan m then m
                            else if is_nan y then y
                            else if PrimFloat.ltb m y then y else m) x r)
  end.

(** [np.argmin]: the first smallest element, a NaN counting as smallest. *)
Fixpoint argmin_from (best : nat) (bv : float) (k : nat) (l : list float) : nat :=
  match l with
  | [] => best
  | y :: r =>
      if is_nan bv then best
      else if is_nan y || PrimFloat.ltb y bv then argmin_from k y (S k) r
      else argmin_from best bv (S k) r
  end.

Definition np_argmin (l : list float) : result nat :=
  match l with
  | [] => Raise (ValueError "attempt to get argmin of an empty sequence")
  | x :: r => Ok (argmin_from 0%nat x 1%nat r)
  end.

(** An array of either dtype as complex numbers. *)
Definition as_complex (a : array) : ndarray complex :=
  match a with
  | ArrC z => z
  | ArrF x => Np.map_nd (fun r => (r, 0%float)) x
  end.

(** The [if value == ...] chain of [plot_field]. *)
Definition select_value (value : string) (data : ndarray complex)
  : result (ndarray float) :=
  if String.eqb value "real" then Ok (Np.map_nd fst data)
  else if String.eqb value "imag" then Ok (Np.map_nd snd data)
  else if String.eqb value "abs" then Ok (Np.map_nd cabs data)
  else if String.eqb value "dB" then
    let db := Np.map_nd (fun z => PrimFloat.mul 20%float (np_log10 (cabs z))) data in
    result_bind (np_max (Np.flatten db)) (fun m =>
    Ok (Np.map_nd (fun x => PrimFloat.sub x m) db))
  else if String.eqb value "phase" then
    Ok (Np.map_nd (fun z => np_arctan2 (snd z) (fst z)) data)
  else Raise (ValueError "value must be one of 'real', 'imag', 'abs', 'phase', 'dB'").

(** The index [i] of lines 377-381. *)
Definition wavelength_index (c : Config) (wl : option float) : result Z :=
  if opt_truthy wl then
    match wl with
    | Some x =>
        result_bind
          (np_argmin (map (fun y => PrimFloat.abs (PrimFloat.sub x y))
                          (Np.flatten (wavelength c))))
          (fun k => Ok (Z.of_nat k))
    | None => Ok (Np.size (wavelength c) / 2)
    end
  else Ok (Np.size (wavelength c) / 2).

(** [f"mode_index = {mode_index} must be less than num_modes {self.num_modes}"] *)
Definition bad_mode_index (mode_index num_modes : Z) : exn :=
  ValueError
    (String.append "mode_index = "
       (String.append (pretty mode_index)
          (String.append " must be less than num_modes " (pretty num_modes)))).

Definition plot_field (self : nat) (field_name value : string) (mode_index : Z)
    (wl : option float) (kwargs : gmap string float) : M artist :=
  let* data := data_item self field_name in
  let* i := get_instance self in
  let c := config i in
  if num_modes c <=? mode_index then raise (bad_mode_index mode_index (num_modes c))
  else
    let data := as_complex data in
    let* data :=
      if 1 <? num_modes c then lift (Np.index_last mode_index data) else ret data in
    let* data :=
      if 1 <? Np.size (wavelength c) then
        let* k := lift (wavelength_index c wl) in
        lift (Np.index_last k data)
      else ret data in
    let* data := lift (select_value value data) in
    let* y := data_item self "y" in
    let* x := data_item self "x" in
    let* _ := lift (DataArray (Np.T data) y x) in
    let kwargs :=
      if String.eqb value "dB" then <["vmin" := (-20)%float]> kwargs else kwargs in
    let* _ := xarray_plot self (Np.T data) in
    ret {| art_name := Some field_name; art_values := Np.T data;
           art_coords := Some (y, x); art_kwargs := kwargs |}.

Definition _ipython_display_ (self : nat) : M unit :=
  let* _ := plot_index self ∅ in
  ret tt.

(** ** [__repr__] and [__str__] *)

Definition repr_items (c : Config) : result (list string) :=
  result_mapM
    (fun k =>
       result_bind (getattr c k) (fun v =>
       result_bind (custom_serializer v) (fun s =>
       Ok (String.append k (String.append "=" (py_repr s))))))
    fields_keys.

Definition __repr__ (self : nat) : M string :=
  let* i := get_instance self in
  let* items := lift (repr_items (config i)) in
  ret (String.append class_name
         (String.append "(" (String.append (Py.join ", " items) ")"))).

Definition __str__ (self : nat) : M string := __repr__ self.

(** ** Construction and the operations of an instance *)

(** [Waveguide(wavelength=v, ...)]: a new object, no private attribute set. *)
Definition new_waveguide (v : WavelengthArg) (rest : Config) : M nat :=
  fun w =>
    let self := fresh (dom (heap w)) in
    (Ok self,
     {| heap := <[self := {| config := make_config v rest;
                             _cached_data := None; _waveguide := None |}]> (heap w);
        files := files w; dirs := dirs w; trace := trace w |}).

(** Everything a caller can do with instances of the class. *)
Inductive op : Type :=
| OpNew (v : WavelengthArg) (rest : Config)
| OpFilepath (self : nat)
| OpWaveguide (self : nat)
| OpData (self : nat)
| OpFractionTe (self : nat)
| OpFractionTm (self : nat)
| OpNEff (self : nat)
| OpNGroup (self : nat)
| OpModeArea (self : nat)
| OpLoss (self : nat)
| OpIndex (self : nat)
| OpOverlap (self other : nat) (conjugate : bool)
| OpPlotGrid (self : nat)
| OpPlotIndex (self : nat) (kwargs : gmap string float)
| OpPlotField (self : nat) (field_name value : string) (mode_index : Z)
    (wl : option float) (kwargs : gmap string float)
| OpDisplay (self : nat)
| OpRepr (self : nat)
| OpStr (self : nat).

(** The world a computation leaves behind, whether it returned or raised. *)
Definition exec {A} (m : M A) (w : World) : World := snd (m w).

Definition run_op (o : op) (w : World) : World :=
  match o with
  | OpNew v rest => exec (new_waveguide v rest) w
  | OpFilepath self => exec (filepath self) w
  | OpWaveguide self => exec (waveguide self) w
  | OpData self => exec (_data self) w
  | OpFractionTe self => exec (fraction_te self) w
  | OpFractionTm self => exec (fraction_tm self) w
  | OpNEff self => exec (n_eff self) w
  | OpNGroup self => exec (n_group self) w
  | OpModeArea self => exec (mode_area self) w
  | OpLoss self => exec (loss_dB_per_cm self) w
  | OpIndex self => exec (index self) w
  | OpOverlap self other c => exec (overlap self other c) w
  | OpPlotGrid self => exec (plot_grid self) w
  | OpPlotIndex self kw => exec (plot_index self kw) w
  | OpPlotField self f v m wl kw => exec (plot_field self f v m wl kw) w
  | OpDisplay self => exec (_ipython_display_ self) w
  | OpRepr self => exec (__repr__ self) w
  | OpStr self => exec (__str__ self) w
  end.

Definition run_ops (ops : list op) (w : World) : World :=
  foldl (fun w o => run_op o w) w ops.

(** ** Summaries used to state the properties *)

(** The serialized value of a declared field, as [filepath] obtains it. *)
Definition serialized (c : Config) (name : string) : result string :=
  result_bind (getattr c name) custom_serializer.

(** One entry of [settings]: [f"{setting}={...}"]. *)
Definition setting_entry (name s : string) : string :=
  String.append name (String.append "=" s).

(** The value [filepath] returns, without its [mkdir]. *)
Definition filepath_of (c : Config) : result (option string) :=
  match cache_path c with
  | Some p =>
      if cache_enabled c
      then result_bind (cache_key c) (fun h =>
           Ok (Some (path_join (Path p) (cache_file_name h))))
      else Ok None
  | None => Ok None
  end.

(** The simulation object an access to [waveguide] yields. *)
Definition the_waveguide (i : Instance) : result (RectangularDielectric medium) :=
  match _waveguide i with
  | Some wg => Ok wg
  | None => build_waveguide (config i)
  end.

(** The events of that access: a construction only when none is stored. *)
Definition build_events (self : nat) (i : Instance) : list event :=
  match _waveguide i with
  | Some _ => []
  | None => [EvBuild self]
  end.

(** The named mapping that lines 235-266 collect from the solver's data. *)
Definition computed_data (c : Config) (md : ModeData) : result npz :=
  result_bind (field_entries (md_fields md)) (fun entries =>
  result_bind (polarization_fractions c (md_fields md)) (fun fr =>
  let d :=
    <["fraction_tm" := ArrF (Np.of_row (snd fr))]>
    (<["fraction_te" := ArrF (Np.of_row (fst fr))]>
    (<["mode_area" := ArrF (Np.squeeze (md_mode_area md))]>
    (<["n_eff" := ArrC (Np.squeeze (md_n_complex md))]>
    (<["y" := ArrF (Np.of_row (md_y md))]>
    (<["x" := ArrF (Np.of_row (md_x md))]>
    (list_to_map entries : npz)))))) in
  Ok (match md_n_group md with
      | Some g => <["n_group" := ArrF (Np.squeeze g)]> d
      | None => d
      end))).

(** [self.attr = ...]: the world with object [self] replaced. *)
Definition store (self : nat) (i : Instance) (w : World) : World :=
  {| heap := <[self := i]> (heap w); files := files w; dirs := dirs w;
     trace := trace w |}.

(** The world with events appended to the trace. *)
Definition emit (es : list event) (w : World) : World :=
  {| heap := heap w; files := files w; dirs := dirs w; trace := trace w ++ es |}.

(** The world after an access to [waveguide] that yields [wg]. *)
Definition built (self : nat) (i : Instance) (wg : RectangularDielectric medium)
    (w : World) : World :=
  match _waveguide i with
  | Some _ => w
  | None =>
      store self {| config := config i; _cached_data := _cached_data i;
                    _waveguide := Some wg |} (emit [EvBuild self] w)
  end.

(** The world after [filepath]: the cache directory is made when caching
    is enabled. *)
Definition after_filepath (c : Config) (w : World) : World :=
  match cache_path c with
  | Some p => if cache_enabled c then exec (mkdir (Path p)) w else w
  | None => w
  end.

(** [np.savez(f, **d)] on a world. *)
Definition saved (f : string) (d : npz) (w : World) : World :=
  {| heap := heap w; files := <[f := d]> (files w); dirs := dirs w;
     trace := trace w ++ [EvSave f] |}.

(** The world after [_data] computed the mapping [d] with the simulation
    object [wg], starting from [w0] (where [filepath] returned [fp]). *)
Definition computed (self : nat) (i : Instance) (wg : RectangularDielectric medium)
    (d : npz) (fp : option string) (w0 : World) : World :=
  let w1 := emit [EvSolve self] (built self i wg w0) in
  let w2 := store self {| config := config i; _cached_data := Some d;
                          _waveguide := Some wg |} w1 in
  match fp with
  | Some f => saved f d w2
  | None => w2
  end.

(** The world after [_data] loaded the mapping [d] from the file [f]. *)
Definition loaded (self : nat) (i : Instance) (d : npz) (f : string)
    (w0 : World) : World :=
  store self {| config := config i; _cached_data := Some d;
                _waveguide := _waveguide i |} (emit [EvLoad f] w0).

(** The specification's formula for one mode and one wavelength in um:
    [20 * log10(e) * (2 pi * Im(n_eff) / wavelength_in_meters) * 1e-2]. *)
Definition loss_closed_form (im_n_eff wavelength_um : float) : float :=
  let wavelength_in_meters := PrimFloat.mul wavelength_um lit_1e_6 in
  PrimFloat.mul
    (PrimFloat.mul
       (PrimFloat.mul 20%float (np_log10 np_e))
       (PrimFloat.div (PrimFloat.mul (PrimFloat.mul 2%float np_pi) im_n_eff)
                      wavelength_in_meters))
    lit_1e_2.

(** The three pointwise steps of [loss_array]. *)
Definition two_pi_times (x : float) : float :=
  PrimFloat.mul (PrimFloat.mul 2%float np_pi) x.
Definition to_meters (x : float) : float := PrimFloat.mul x lit_1e_6.
Definition to_dB_per_cm (x : float) : float :=
  PrimFloat.mul (PrimFloat.mul (PrimFloat.mul 20%float (np_log10 np_e)) x) lit_1e_2.

(** Entry [k][j] of a list of rows. *)
Definition mat_get {A} (m : list (list A)) (k j : nat) : option A :=
  m !! k ≫= fun r => r !! j.

(** The entry for wavelength [k] and mode [j] of an array with dims
    (f, mode_index) after [squeeze]: with [nm] modes, a rank-1 array runs
    over the wavelengths when [nm = 1] and over the modes otherwise. *)
Definition squeezed_get {A} (a : ndarray A) (nm k j : nat) : option A :=
  match a with
  | El v => Some v
  | Nd _ =>
      match Np.as_row a with
      | Some r => r !! (if Nat.eqb nm 1 then k else j)
      | None => Np.as_matrix a ≫= fun m => mat_get m k j
      end
  end.

(** Number of constructions of the simulation object of [self] in a trace. *)
Definition is_build (self : nat) (e : event) : bool :=
  match e with EvBuild s => Nat.eqb s self | _ => false end.

Definition builds (self : nat) (t : list event) : nat :=
  length (List.filter (is_build self) t).

(** [m] keeps the property [P] of worlds, whether it returns or raises. *)
Definition preserves (P : World -> Prop) {A} (m : M A) : Prop :=
  forall w, P w -> P (exec m w).

(** Object [self] exists and its declared fields are [c]. *)
Definition has_config (self : nat) (c : Config) (w : World) : Prop :=
  exists i, heap w !! self = Some i /\ config i = c.

(** Object [self] exists, and its simulation object was constructed once
    if it is stored and never if it is not. *)
Definition built_when_stored (self : nat) (w : World) : Prop :=
  exists i, heap w !! self = Some i
            /\ builds self (trace w) = match _waveguide i with
                                       | Some _ => 1%nat
                                       | None => 0%nat
                                       end.

(** Object [self] exists and stores the simulation object [wg]. *)
Definition holds_waveguide (self : nat) (wg : RectangularDielectric medium)
    (w : World) : Prop :=
  exists i, heap w !! self = Some i /\ _waveguide i = Some wg.

(** ** Summaries for the further properties *)

(** The objects an operation is called on. *)
Definition targets (o : op) : list nat :=
  match o with
  | OpNew _ _ => []
  | OpOverlap self other _ => [self; other]
  | OpFilepath self | OpWaveguide self | OpData self | OpFractionTe self
  | OpFractionTm self | OpNEff self | OpNGroup self | OpModeArea self
  | OpLoss self | OpIndex self | OpPlotGrid self | OpPlotIndex self _
  | OpPlotField self _ _ _ _ _ | OpDisplay self | OpRepr self | OpStr self => [self]
  end.

(** Object [self] is exactly [i]. *)
Definition is_instance (self : nat) (i : Instance) (w : World) : Prop :=
  heap w !! self = Some i.

(** Object [self] exists and holds the result mapping [d]. *)
Definition holds_data (self : nat) (d : npz) (w : World) : Prop :=
  exists i, heap w !! self = Some i /\ _cached_data i = Some d.

(** The file system is as given and object [self] exists with its cache
    disabled. *)
Definition offline (self : nat) (F : gmap string npz) (D : gset string)
    (w : World) : Prop :=
  files w = F /\ dirs w = D
  /\ exists i, heap w !! self = Some i /\ cache_enabled (config i) = false.

(** The events of the data cache: a file read or written, a solver run. *)
Definition is_cache_event (e : event) : bool :=
  match e with
  | EvLoad _ | EvSave _ | EvSolve _ => true
  | EvMkdir _ | EvBuild _ | EvPlot _ => false
  end.

(** The data side of a world: the files, the file accesses and solver runs
    so far, and the result mapping of every object that holds one. *)
Definition data_state (w : World) : gmap string npz * list event * gmap nat npz :=
  (files w, List.filter is_cache_event (trace w), omap _cached_data (heap w)).

(** The operations that ask for the geometry or the description of an
    instance only. *)
Definition needs_no_data (o : op) : bool :=
  match o with
  | OpNew _ _ | OpFilepath _ | OpWaveguide _ | OpIndex _ | OpPlotGrid _
  | OpPlotIndex _ _ | OpDisplay _ | OpRepr _ | OpStr _ => true
  | OpData _ | OpFractionTe _ | OpFractionTm _ | OpNEff _ | OpNGroup _
  | OpModeArea _ | OpLoss _ | OpOverlap _ _ _ | OpPlotField _ _ _ _ _ _ => false
  end.

(** [m], started in a world of [P], returns a value and a world in [Q] or
    raises in a world of [E]. *)
Definition hoare {A} (P : World -> Prop) (m : M A) (Q : A -> World -> Prop)
    (E : World -> Prop) : Prop :=
  forall w, P w ->
    match m w with
    | (Ok a, w') => Q a w'
    | (Raise _, w') => E w'
    end.

(** The files are [F]. *)
Definition unwritten (F : gmap string npz) (w : World) : Prop := files w = F.

(** Object [self] exists and holds a result mapping. *)
Definition has_data (self : nat) (w : World) : Prop :=
  exists i d, heap w !! self = Some i /\ _cached_data i = Some d.

(** The mapping lines 236-246 have collected when the loop over the modes
    starts. *)
Definition partial_data (md : ModeData) (entries : list (string * array)) : npz :=
  <["mode_area" := ArrF (Np.squeeze (md_mode_area md))]>
  (<["n_eff" := ArrC (Np.squeeze (md_n_complex md))]>
  (<["y" := ArrF (Np.of_row (md_y md))]>
  (<["x" := ArrF (Np.of_row (md_x md))]>
  (list_to_map entries : npz)))).

(** The Ex and Ey samples of mode [i], as the loop of lines 251-260
    selects them. *)
Definition mode_fields (fields : gmap string (ndarray complex)) (i : nat)
  : result (ndarray complex * ndarray complex) :=
  result_bind (getitem fields "Ex") (fun ex =>
  result_bind (Np.sel_mode_index (Z.of_nat i) ex) (fun exi =>
  result_bind (getitem fields "Ey") (fun ey =>
  result_bind (Np.sel_mode_index (Z.of_nat i) ey) (fun eyi =>
  Ok (exi, eyi))))).

(** The keys of a computed result mapping. *)
Definition computed_keys (md : ModeData) : list string :=
  component_names
  ++ ["x"; "y"; "n_eff"; "mode_area"; "fraction_te"; "fraction_tm"]%string
  ++ match md_n_group md with Some _ => ["n_group"%string] | None => [] end.

(** Object [self] exists with the fields [c] and no simulation object. *)
Definition unbuilt (self : nat) (c : Config) (w : World) : Prop :=
  exists i, heap w !! self = Some i /\ config i = c /\ _waveguide i = None.

(** The mode and the wavelength [plot_field] selects from the stored array
    [a]: lines 374-382. *)
Definition selected (c : Config) (a : array) (mode_index : Z) (wl : option float)
  : result (ndarray complex) :=
  result_bind
    (if 1 <? num_modes c then Np.index_last mode_index (as_complex a)
     else Ok (as_complex a)) (fun data =>
  if 1 <? Np.size (wavelength c)
  then result_bind (wavelength_index c wl) (fun k => Np.index_last k data)
  else Ok data).

(** The array [plot_field] draws from the stored array [a]: the selection
    and the component of lines 374-398. *)
Definition field_values (c : Config) (a : array) (value : string) (mode_index : Z)
    (wl : option float) : result (ndarray float) :=
  result_bind (selected c a mode_index wl) (select_value value).

(** An array of rank 0 or 1. *)
Definition low_rank {A} (a : ndarray A) : Prop :=
  (exists z, a = El z) \/ (exists l, a = Np.of_row l).

(** An array with dims (f, mode_index) for the configuration [c]: one row
    for each wavelength, one entry for each mode. *)
Definition derived_dims {A} (c : Config) (a : ndarray A) : Prop :=
  exists N : list (list A),
    a = Np.of_matrix N
    /\ Z.of_nat (length N) = Np.size (wavelength c)
    /\ Forall (fun r => Z.of_nat (length r) = num_modes c) N.

(** The mapping [d] is laid out as [_data] computes it for [c]: collected
    from solver data whose derived arrays have dims (f, mode_index). *)
Definition computed_layout (c : Config) (d : npz) : Prop :=
  exists md,
    computed_data c md = Ok d
    /\ derived_dims c (md_n_complex md)
    /\ derived_dims c (md_mode_area md)
    /\ (forall g, md_n_group md = Some g -> derived_dims c g).

(** Object [self] exists with the fields [c], and the simulation object it
    stores, if any, is [wg]. *)
Definition stores_only (self : nat) (c : Config) (wg : RectangularDielectric medium)
    (w : World) : Prop :=
  exists i, heap w !! self = Some i /\ config i = c
            /\ (forall wg', _waveguide i = Some wg' -> wg' = wg).


End Model.

(** ** A concrete library, serializer and world to evaluate the model on *)

Module Fixture.

(** Field samples on a 3 x 3 x 1 grid, one frequency, two modes: dims
    (x, y, z, f, mode_index). *)
Definition grid (sample : nat -> nat -> nat -> complex) : ndarray complex :=
  Nd (map (fun x =>
    Nd (map (fun y =>
      Nd [Nd [Nd (map (fun m => El (sample x y m)) [0; 1]%nat)]])
      [0; 1; 2]%nat))
    [0; 1; 2]%nat).

Definition one : complex := (1%float, 0%float).
Definition zero : complex := (0%float, 0%float).

(** Mode 0 has two unit samples of Ex and nine of Ey; mode 1 has one of
    Ex and three of Ey. *)
Definition Ex : ndarray complex :=
  grid (fun x y m =>
          match m with
          | O => if Nat.eqb x 0 && Nat.ltb y 2 then one else zero
          | _ => if Nat.eqb x 0 && Nat.eqb y 0 then one else zero
          end).

Definition Ey : ndarray complex :=
  grid (fun x y m =>
          match m with
          | O => one
          | _ => if Nat.eqb x 1 then one else zero
          end).

Definition Ez : ndarray complex := grid (fun _ _ _ => zero).

Definition mode_data : ModeData := {|
  md_fields := list_to_map
    [("Ex", Ex); ("Ey", Ey); ("Ez", Ez); ("Hx", Ey); ("Hy", Ex); ("Hz", Ez)]%string;
  md_x := [(-1)%float; 0%float; 1%float];
  md_y := [(-0.5)%float; 0%float; 0.5%float];
  md_n_complex := Np.of_matrix [[(2%float, 0.5%float); (1.5%float, 0.25%float)]];
  md_mode_area := Np.of_matrix [[0.5%float; 0.75%float]];
  md_n_group := None |}.

(** Media are refractive indices; the transcendental functions are
    stand-ins, nothing below depends on their values. *)
Definition lib : Library := {|
  medium := float;
  get_medium := fun m =>
    match m with
    | MatName s =>
        if String.eqb s "sin" then Ok 2%float
        else if String.eqb s "sio2" then Ok 1.5%float
        else Raise (LibraryError "unknown material")
    | MatIndex n => Ok n
    | MatNK n _ => Ok n
    | MatMedium m => Ok m
    end;
  eps_model := fun n _ => (PrimFloat.mul n n, 0%float);
  from_nk := fun n _ _ => Ok n;
  check_ModeSpec := fun ms =>
    if ms_num_modes ms <=? 0 then Raise (ValueError "num_modes")
    else if match ms_bend_radius ms with
            | Some r => PrimFloat.eqb r 0%float
            | None => false
            end
         then Raise (ValueError "bend_radius")
         else Ok tt;
  check_RectangularDielectric := fun _ => Ok tt;
  csqrt := fun z => (PrimFloat.sqrt (fst z), 0%float);
  np_mean := fun a => match Np.flatten a with x :: _ => x | [] => 0%float end;
  np_log10 := fun x => x;
  np_hypot := fun a b =>
    PrimFloat.sqrt (PrimFloat.add (PrimFloat.mul a a) (PrimFloat.mul b b));
  np_sum_abs_sq := fun e =>
    foldl PrimFloat.add 0%float
      (map (fun z => PrimFloat.add (PrimFloat.mul (fst z) (fst z))
                                   (PrimFloat.mul (snd z) (snd z)))
           (Np.flatten e));
  np_arctan2 := fun y _ => y;
  C_0 := 0x1.10a9ced9ca8p+48%float;
  mode_solver := fun _ => mode_data;
  sim_epsilon := fun _ _ => Np.of_matrix [[(4%float, 0%float)]];
  outer_dot := fun _ _ _ => Np.of_matrix [[(1%float, 0%float)]];
  py_repr := fun s => String.append "'" (String.append s "'") |}.

(** A serializer that tags every kind of value. *)
Definition serializer : @Serializer lib := {|
  custom_serializer := fun v =>
    Ok (match v with
        | VNone => "None"
        | VBool true => "True"
        | VBool false => "False"
        | VInt z => pretty z
        | VFloat x => if PrimFloat.ltb x 0%float then "-float" else "float"
        | VStr s => s
        | VPath s => s
        | VTuple _ _ => "tuple"
        | VArray a => String.append "array" (pretty (Np.size a))
        | VMedium _ => "medium"
        end)%string |}.

(** The fields other than [wavelength]. *)
Definition settings_of (path : option PathType) (ow : bool) : @Config lib := {|
  wavelength := El 0%float;
  core_width := 1%float;
  core_thickness := 0.5%float;
  core_material := MatName "sin";
  clad_material := MatName "sio2";
  box_material := None;
  slab_thickness := 0%float;
  clad_thickness := None;
  box_thickness := None;
  side_margin := None;
  sidewall_angle := 0%float;
  sidewall_thickness := 0%float;
  sidewall_k := 0%float;
  surface_thickness := 0%float;
  surface_k := 0%float;
  bend_radius := None;
  num_modes := 2;
  group_index_step := inl false;
  precision := "double";
  grid_resolution := 20;
  max_grid_scaling := 1.5%float;
  cache_path := path;
  overwrite := ow |}.

Definition fresh_instance (c : @Config lib) : @Instance lib :=
  {| config := c; _cached_data := None; _waveguide := None |}.

(** Object 0 has the cache disabled, objects 1 and 2 share a cache
    directory and differ in the container their wavelength came in,
    objects 3 and 4 are equal and overwrite. *)
Definition world0 : @World lib := {|
  heap := list_to_map
    [ (0%nat, fresh_instance (make_config (WFloat 1.5%float) (settings_of None false)));
      (1%nat, fresh_instance
                (make_config (WList [1.5%float]) (settings_of (Some (PathStr "cache")) false)));
      (2%nat, fresh_instance
                (make_config (WTuple [1.5%float]) (settings_of (Some (PathObj "cache")) false)));
      (3%nat, fresh_instance
                (make_config (WList [1.5%float]) (settings_of (Some (PathStr "cache")) true)));
      (4%nat, fresh_instance
                (make_config (WList [1.5%float]) (settings_of (Some (PathStr "cache")) true))) ];
  files := ∅;
  dirs := ∅;
  trace := [] |}.

Definition config_of (self : nat) : @Config lib :=
  match heap world0 !! self with
  | Some i => config i
  | None => settings_of None false
  end.

Definition instance_of (self : nat) : @Instance lib :=
  fresh_instance (config_of self).

(** The simulation object and the result mapping of an object. *)
Definition waveguide_of (self : nat) : RectangularDielectric (@medium lib) :=
  match @build_waveguide lib (config_of self) with
  | Ok wg => wg
  | Raise _ =>
      {| rd_wavelength := El 0%float; rd_core_width := 0%float;
         rd_core_thickness := 0%float; rd_core_medium := 0%float;
         rd_clad_medium := 0%float; rd_box_medium := None;
         rd_slab_thickness := 0%float; rd_clad_thickness := None;
         rd_box_thickness := None; rd_side_margin := None;
         rd_sidewall_angle := 0%float; rd_sidewall_thickness := 0%float;
         rd_sidewall_medium := None; rd_surface_thickness := 0%float;
         rd_surface_medium := None; rd_propagation_axis := 2;
         rd_normal_axis := 1;
         rd_mode_spec := {| ms_num_modes := 0; ms_target_neff := 0%float;
                            ms_bend_radius := None; ms_bend_axis := 1;
                            ms_num_pml := (0, 0); ms_precision := "";
                            ms_group_index_step := inl false |};
         rd_grid_resolution := 0; rd_max_grid_scaling := 0%float |}
  end.

Definition data_of (self : nat) : npz :=
  match @computed_data lib (config_of self) mode_data with
  | Ok d => d
  | Raise _ => ∅
  end.

(** The cache file of objects 1 and 2. *)
Definition cache_file : string := "cache/Waveguide_678402345953e18d.npz".

(** The serialized values of object 1, in sorted field order. *)
Definition serialized_values : list string :=
  Eval vm_compute in
    omap (fun name =>
            match @serialized lib serializer (config_of 1) name with
            | Ok s => Some s
            | Raise _ => None
            end) (Py.sorted (@fields_keys lib)).

End Fixture.

(** ** Two instances that fail *)

Module Cases.

Definition settings_with (core : MaterialSpec (@medium Fixture.lib)) (modes : Z)
    (path : option PathType) : @Config Fixture.lib := {|
  wavelength := El 0%float;
  core_width := 1%float;
  core_thickness := 0.5%float;
  core_material := core;
  clad_material := MatName "sio2";
  box_material := None;
  slab_thickness := 0%float;
  clad_thickness := None;
  box_thickness := None;
  side_margin := None;
  sidewall_angle := 0%float;
  sidewall_thickness := 0%float;
  sidewall_k := 0%float;
  surface_thickness := 0%float;
  surface_k := 0%float;
  bend_radius := None;
  num_modes := modes;
  group_index_step := inl false;
  precision := "double";
  grid_resolution := 20;
  max_grid_scaling := 1.5%float;
  cache_path := path;
  overwrite := false |}.

(** Object 0 names a core material the library does not know and caches
    in "cache"; object 1 asks for three modes where the solver's data has
    two, and does not cache. *)
Definition world : @World Fixture.lib := {|
  heap := list_to_map
    [ (0%nat, Fixture.fresh_instance
                (make_config (WFloat 1.5%float)
                   (settings_with (MatName "diamond") 2 (Some (PathStr "cache")))));
      (1%nat, Fixture.fresh_instance
                (make_config (WFloat 1.5%float)
                   (settings_with (MatName "sin") 3 None))) ];
  files := ∅;
  dirs := ∅;
  trace := [] |}.

Definition instance_of (self : nat) : @Instance Fixture.lib :=
  match heap world !! self with
  | Some i => i
  | None => Fixture.fresh_instance (settings_with (MatName "sin") 2 None)
  end.

(** The six field components object 1 collects before its loop fails. *)
Definition entries : list (string * array) :=
  match @field_entries (md_fields Fixture.mode_data) with
  | Ok l => l
  | Raise _ => []
  end.

(** The simulation object of object 1. *)
Definition simulation : RectangularDielectric (@medium Fixture.lib) :=
  match @build_waveguide Fixture.lib (config (instance_of 1)) with
  | Ok wg => wg
  | Raise _ => Fixture.waveguide_of 0
  end.

(** A configuration with three wavelengths. *)
Definition three_wavelengths : @Config Fixture.lib :=
  make_config (WList [1.5%float; 1.625%float; 1.75%float])
    (settings_with (MatName "sin") 2 None).

(** What [plot_field] draws for Ex in dB, mode 0, of object 0 of the
    first world. *)
Definition plotted : ndarray float :=
  match @field_values Fixture.lib (Fixture.config_of 0)
          (ArrC (Np.squeeze Fixture.Ex)) "dB" 0 None with
  | Ok v => v
  | Raise _ => El 0%float
  end.

(** The first world with a cache file at the path of objects 1 and 2 that
    holds, besides what [_data] computes for them, the Ex samples under
    the name "Foo". *)
Definition foreign_cache : @World Fixture.lib := {|
  heap := heap Fixture.world0;
  files := {[ Fixture.cache_file :=
                <["Foo" := ArrC (Np.squeeze Fixture.Ex)]> (Fixture.data_of 1) ]};
  dirs := ∅;
  trace := [] |}.

End Cases.

(** * Properties *)

(** ** Strings, sorting and the digest *)

(** The digest on the test vectors of RFC 1321. *)
Example md5_empty : MD5.hexdigest [] = "d41d8cd98f00b204e9800998ecf8427e"%string.
Proof. vm_compute. reflexivity. Qed.

Example md5_abc :
  MD5.hexdigest (Py.encode "abc") = "900150983cd24fb0d6963f7d28e17f72"%string.
Proof. vm_compute. reflexivity. Qed.

Example md5_two_blocks :
  MD5.hexdigest (Py.encode
    "12345678901234567890123456789012345678901234567890123456789012345678901234567890")
  = "57edf4a22be3c955ac49da2e2107b67a"%string.
Proof. vm_compute. reflexivity. Qed.


Lemma take_length n s : String.length (Py.take n s) = Nat.min n (String.length s).
Proof.
  revert s. induction n as [|n IH]; intros [|c s]; simpl; auto.
Qed.

Lemma take_chars n s c :
  In c (list_ascii_of_string (Py.take n s)) -> In c (list_ascii_of_string s).
Proof.
  revert s. induction n as [|n IH]; intros [|a s]; simpl; try tauto.
  intros [Hc|Hc]; [left; exact Hc | right; apply IH, Hc].
Qed.

Lemma hexdigit_hex n : In (MD5.hexdigit n) MD5.hexchars.
Proof.
  unfold MD5.hexdigit.
  destruct (nth_in_or_default (Z.to_nat (n mod 16)) MD5.hexchars "0"%char) as [Hin|Hd].
  - exact Hin.
  - rewrite Hd. simpl. left. reflexivity.
Qed.

Lemma digest_length msg : length (MD5.digest msg) = 16%nat.
Proof.
  unfold MD5.digest. destruct (MD5.digest_state msg). reflexivity.
Qed.

Lemma string_of_list_ascii_length l :
  String.length (string_of_list_ascii l) = length l.
Proof. induction l as [|a l IH]; simpl; congruence. Qed.

Lemma hexbytes_length bs : length (concat (map MD5.hexbyte bs)) = (2 * length bs)%nat.
Proof. induction bs as [|b bs IH]; simpl; [reflexivity | rewrite IH; lia]. Qed.

Lemma hexbytes_hex bs c : In c (concat (map MD5.hexbyte bs)) -> In c MD5.hexchars.
Proof.
  induction bs as [|b bs IH]; simpl; [tauto|].
  intros [<-|[<-|Hc]]; [apply hexdigit_hex | apply hexdigit_hex | apply IH, Hc].
Qed.

(** A digest prints as 32 hexadecimal characters. *)
Lemma hexdigest_length msg : String.length (MD5.hexdigest msg) = 32%nat.
Proof.
  unfold MD5.hexdigest.
  rewrite string_of_list_ascii_length, hexbytes_length, digest_length. reflexivity.
Qed.

Lemma hexdigest_hex msg c :
  In c (list_ascii_of_string (MD5.hexdigest msg)) -> In c MD5.hexchars.
Proof.
  unfold MD5.hexdigest. rewrite list_ascii_of_string_of_list_ascii.
  apply hexbytes_hex.
Qed.

(** Insertion keeps a list ordered, and [Py.sorted] permutes its input into
    an ordered list. *)
Lemma insert_sorted_perm x l : Permutation (x :: l) (Py.insert_sorted x l).
Proof.
  induction l as [|y l IH]; simpl; [reflexivity|].
  destruct (Py.str_le x y); [reflexivity|].
  rewrite perm_swap. constructor. exact IH.
Qed.

Lemma insert_sorted_hd x l y :
  HdRel (fun a b => Py.str_le a b = true) y l -> Py.str_le y x = true ->
  HdRel (fun a b => Py.str_le a b = true) y (Py.insert_sorted x l).
Proof.
  intros Hl Hx. destruct l as [|z l]; simpl.
  - constructor. exact Hx.
  - destruct (Py.str_le x z); constructor; [exact Hx|].
    inversion Hl; assumption.
Qed.

Lemma insert_sorted_ordered x l : str_ordered l -> str_ordered (Py.insert_sorted x l).
Proof.
  unfold str_ordered. induction 1 as [|y l Hs IH Hhd]; simpl.
  - repeat constructor.
  - destruct (Py.str_le x y) eqn:Hxy.
    + constructor; [constructor; assumption | constructor; exact Hxy].
    + constructor; [exact IH|].
      apply insert_sorted_hd; [exact Hhd|].
      destruct (String.leb_total x y) as [H|H]; [|exact H].
      unfold Py.str_le in Hxy. congruence.
Qed.

Lemma sorted_ordered l : str_ordered (Py.sorted l).
Proof.
  induction l as [|x l IH]; simpl; [constructor|].
  apply insert_sorted_ordered, IH.
Qed.

Lemma sorted_perm l : Permutation l (Py.sorted l).
Proof.
  induction l as [|x l IH]; simpl; [reflexivity|].
  rewrite <- insert_sorted_perm. constructor. exact IH.
Qed.

Section MapMFacts.
Context {A B : Type} (f : A -> result B).

Lemma result_mapM_ok (l : list A) (ys : list B) :
  Forall2 (fun x y => f x = Ok y) l ys -> result_mapM f l = Ok ys.
Proof.
  induction 1 as [|x y l ys Hxy _ IH]; simpl; [reflexivity|].
  rewrite Hxy. simpl. rewrite IH. reflexivity.
Qed.


(** [result_mapM] raises only what [f] raises on an element. *)
Lemma result_mapM_raise (l : list A) (e : exn) :
  result_mapM f l = Raise e -> exists x, In x l /\ f x = Raise e.
Proof.
  induction l as [|x l IH]; simpl; [discriminate|].
  destruct (f x) as [y|e'] eqn:Hx; simpl.
  - destruct (result_mapM f l) as [ys|e'']; simpl; [discriminate|].
    intros [= <-]. destruct (IH eq_refl) as (z & Hz & Hfz).
    exists z. split; [right; exact Hz | exact Hfz].
  - intros [= <-]. exists x. split; [left; reflexivity | exact Hx].
Qed.
End MapMFacts.

(** ** The cache key and the cache file *)

Section KeyFacts.
Context `{ser : Serializer}.

Lemma settings_ok (c : Config) (vals : list string) :
  Forall2 (fun name s => serialized c name = Ok s) (Py.sorted fields_keys) vals ->
  settings c = Ok (zip_with setting_entry (Py.sorted fields_keys) vals).
Proof.
  unfold settings. generalize (Py.sorted fields_keys).
  induction 1 as [|name s l vs Hs _ IH]; simpl; [reflexivity|].
  unfold serialized in Hs.
  destruct (getattr c name) as [v|]; simpl in *; [|discriminate].
  rewrite Hs. simpl. rewrite IH. reflexivity.
Qed.


(** Every declared field has its attribute. *)
Lemma getattr_declared (c : Config) (name : string) :
  In name fields_keys -> exists v, getattr c name = Ok v.
Proof.
  unfold fields_keys, getattr. simpl.
  intros Hin.
  repeat (destruct Hin as [<-|Hin]; [eexists; reflexivity|]).
  destruct Hin.
Qed.

(** Key derivation fails only where the serializer fails on the value of
    a declared field. *)
Lemma settings_raise_from_serializer (c : Config) (e : exn) :
  settings c = Raise e ->
  exists name v, In name fields_keys /\ getattr c name = Ok v
                 /\ custom_serializer v = Raise e.
Proof.
  unfold settings. intros Hr.
  apply result_mapM_raise in Hr as (name & Hin & Hf).
  assert (Hk : In name fields_keys).
  { apply (Permutation_in name (Permutation_sym (sorted_perm fields_keys))), Hin. }
  destruct (getattr_declared c name Hk) as [v Hv].
  exists name, v. split; [exact Hk|]. split; [exact Hv|].
  rewrite Hv in Hf. simpl in Hf.
  destruct (custom_serializer v); simpl in Hf; congruence.
Qed.

Lemma filepath_run (self : nat) (w : World) (i : Instance) :
  heap w !! self = Some i ->
  filepath self w =
    match cache_path (config i) with
    | Some p =>
        if cache_enabled (config i)
        then (filepath_of (config i), exec (mkdir (Path p)) w)
        else (Ok None, w)
    | None => (Ok None, w)
    end.
Proof.
  intros Hi. unfold filepath, bind, get_instance. rewrite Hi.
  unfold filepath_of, cache_key.
  destruct (cache_path (config i)) as [p|]; [|reflexivity].
  destruct (cache_enabled (config i)); simpl; [|reflexivity].
  unfold lift, exec. simpl. destruct (settings (config i)); reflexivity.
Qed.

End KeyFacts.

Section CacheKey.
Context `{ser : Serializer}.

(** C2: with a cache directory configured, [filepath] enumerates the
    declared fields in sorted name order, serializes each value, joins the
    [name=value] entries with underscores, hashes the string with MD5 and
    keeps the first 16 characters of the hexadecimal digest; the file is
    [Waveguide_<key>.npz] in the cache directory. The key has exactly 16
    characters, all hexadecimal, and the enumeration is an ordered
    permutation of the declared fields. *)
Theorem filepath_key_derivation (w : World) (self : nat) (i : Instance)
    (p : PathType) (vals : list string) :
  heap w !! self = Some i ->
  cache_path (config i) = Some p ->
  cache_enabled (config i) = true ->
  Forall2 (fun name s => serialized (config i) name = Ok s)
          (Py.sorted fields_keys) vals ->
  let named_args_string :=
    Py.join "_" (zip_with setting_entry (Py.sorted fields_keys) vals) in
  let key := Py.take 16 (MD5.hexdigest (Py.encode named_args_string)) in
  fst (filepath self w)
    = Ok (Some (String.append (Path p)
                  (String.append "/"
                     (String.append "Waveguide"
                        (String.append "_" (String.append key ".npz"))))))
  /\ String.length key = 16%nat
  /\ Forall (fun c => In c MD5.hexchars) (list_ascii_of_string key)
  /\ Permutation fields_keys (Py.sorted fields_keys)
  /\ str_ordered (Py.sorted fields_keys).
Proof.
  intros Hi Hp Hen Hvals. cbv zeta.
  split; [|split; [|split; [|split]]].
  - rewrite (filepath_run self w i Hi), Hp, Hen. cbn [fst].
    unfold filepath_of, cache_key. rewrite Hp, Hen.
    rewrite (settings_ok _ _ Hvals). reflexivity.
  - rewrite take_length, hexdigest_length. reflexivity.
  - apply List.Forall_forall. intros c Hc.
    apply take_chars in Hc. apply hexdigest_hex in Hc. exact Hc.
  - apply sorted_perm.
  - apply sorted_ordered.
Qed.

(** The elements of a rank-1 array in order. *)
Lemma flatten_of_row {A} (l : list A) : Np.flatten (Np.of_row l) = l.
Proof.
  unfold Np.of_row. cbn [Np.flatten].
  induction l as [|x l IH]; [reflexivity|]. cbn. f_equal. exact IH.
Qed.


End CacheKey.

(** The declared fields in the order [filepath] enumerates them. *)
Example sorted_fields_keys `{Library} :
  Py.sorted fields_keys =
    [ "bend_radius"; "box_material"; "box_thickness"; "cache_path";
      "clad_material"; "clad_thickness"; "core_material"; "core_thickness";
      "core_width"; "grid_resolution"; "group_index_step"; "max_grid_scaling";
      "num_modes"; "overwrite"; "precision"; "side_margin"; "sidewall_angle";
      "sidewall_k"; "sidewall_thickness"; "slab_thickness"; "surface_k";
      "surface_thickness"; "wavelength" ]%string.
Proof. reflexivity. Qed.

(** ** Running the methods: the monad and its primitives *)

Section RunFacts.
Context `{ser : Serializer}.

Lemma bind_run {A B} (m : M A) (k : A -> M B) (w w1 : World) (a : A) :
  m w = (Ok a, w1) -> bind m k w = k a w1.
Proof. intros Hm. unfold bind. rewrite Hm. reflexivity. Qed.

Lemma bind_raise {A B} (m : M A) (k : A -> M B) (w w1 : World) (e : exn) :
  m w = (Raise e, w1) -> bind m k w = (Raise e, w1).
Proof. intros Hm. unfold bind. rewrite Hm. reflexivity. Qed.

Lemma store_lookup self i w : heap (store self i w) !! self = Some i.
Proof. apply lookup_insert_eq. Qed.

Lemma store_store self i j w : store self i (store self j w) = store self i w.
Proof. unfold store. simpl. rewrite insert_insert_eq. reflexivity. Qed.

Lemma emit_emit es es' w : emit es' (emit es w) = emit (es ++ es') w.
Proof. unfold emit. simpl. rewrite app_assoc. reflexivity. Qed.

Lemma emit_nil w : emit [] w = w.
Proof. destruct w. unfold emit. simpl. rewrite app_nil_r. reflexivity. Qed.

Lemma get_instance_run self w i :
  heap w !! self = Some i -> get_instance self w = (Ok i, w).
Proof. intros Hi. unfold get_instance. rewrite Hi. reflexivity. Qed.

Lemma log_run e w : log e w = (Ok tt, emit [e] w).
Proof. reflexivity. Qed.

Lemma set_cached_data_run self d w i :
  heap w !! self = Some i ->
  set_cached_data self d w =
    (Ok tt, store self {| config := config i; _cached_data := Some d;
                          _waveguide := _waveguide i |} w).
Proof.
  intros Hi. unfold set_cached_data.
  rewrite (bind_run _ _ _ _ _ (get_instance_run _ _ _ Hi)). reflexivity.
Qed.

Lemma cached_setitem_run self k v w i d :
  heap w !! self = Some i -> _cached_data i = Some d ->
  cached_setitem self k v w =
    (Ok tt, store self {| config := config i; _cached_data := Some (<[k := v]> d);
                          _waveguide := _waveguide i |} w).
Proof.
  intros Hi Hd. unfold cached_setitem.
  rewrite (bind_run _ _ _ _ _ (get_instance_run _ _ _ Hi)), Hd. reflexivity.
Qed.

Lemma get_cached_data_run self w i d :
  heap w !! self = Some i -> _cached_data i = Some d ->
  get_cached_data self w = (Ok d, w).
Proof.
  intros Hi Hd. unfold get_cached_data.
  rewrite (bind_run _ _ _ _ _ (get_instance_run _ _ _ Hi)), Hd. reflexivity.
Qed.

Lemma set_waveguide_run self wg w i :
  heap w !! self = Some i ->
  set_waveguide self wg w =
    (Ok tt, store self {| config := config i; _cached_data := _cached_data i;
                          _waveguide := Some wg |} w).
Proof.
  intros Hi. unfold set_waveguide.
  rewrite (bind_run _ _ _ _ _ (get_instance_run _ _ _ Hi)). reflexivity.
Qed.

Lemma waveguide_run self w i :
  heap w !! self = Some i ->
  waveguide self w =
    match the_waveguide i with
    | Ok wg => (Ok wg, built self i wg w)
    | Raise e => (Raise e, w)
    end.
Proof.
  intros Hi. unfold waveguide, the_waveguide, built.
  rewrite (bind_run _ _ _ _ _ (get_instance_run _ _ _ Hi)).
  destruct (_waveguide i) as [wg|]; [reflexivity|].
  destruct (build_waveguide (config i)) as [wg|e]; [|reflexivity].
  rewrite (bind_run _ _ w w wg) by reflexivity.
  rewrite (bind_run _ _ _ _ _ (log_run _ _)).
  erewrite bind_run; [|apply set_waveguide_run; exact Hi].
  reflexivity.
Qed.

Lemma built_lookup self i wg w :
  heap w !! self = Some i -> the_waveguide i = Ok wg ->
  heap (built self i wg w) !! self
    = Some {| config := config i; _cached_data := _cached_data i;
              _waveguide := Some wg |}.
Proof.
  intros Hi Hwg. unfold built, the_waveguide in *.
  destruct (_waveguide i) as [wg'|] eqn:Hw.
  - injection Hwg as <-. rewrite Hi. destruct i; simpl in *. congruence.
  - apply store_lookup.
Qed.

Lemma built_trace self i wg w :
  trace (built self i wg w) = trace w ++ build_events self i.
Proof.
  unfold built, build_events. destruct (_waveguide i); simpl;
    [rewrite app_nil_r|]; reflexivity.
Qed.

Lemma built_files self i wg w : files (built self i wg w) = files w.
Proof. unfold built. destruct (_waveguide i); reflexivity. Qed.

Lemma built_dirs self i wg w : dirs (built self i wg w) = dirs w.
Proof. unfold built. destruct (_waveguide i); reflexivity. Qed.

Lemma built_heap self i wg w :
  heap w !! self = Some i -> the_waveguide i = Ok wg ->
  heap (built self i wg w)
    = <[self := {| config := config i; _cached_data := _cached_data i;
                   _waveguide := Some wg |}]> (heap w).
Proof.
  intros Hi Hwg. unfold built, the_waveguide in *.
  destruct (_waveguide i) as [wg'|] eqn:Hw; [|reflexivity].
  injection Hwg as <-. symmetry. apply insert_id.
  rewrite Hi. destruct i; simpl in *. congruence.
Qed.

End RunFacts.

(** ** The disk cache: [_data] *)

Section DataFacts.
Context `{ser : Serializer}.

Lemma filepath_result (self : nat) (w : World) (i : Instance) :
  heap w !! self = Some i ->
  filepath self w = (filepath_of (config i), after_filepath (config i) w).
Proof.
  intros Hi. rewrite (filepath_run self w i Hi).
  unfold filepath_of, after_filepath.
  destruct (cache_path (config i)); [|reflexivity].
  destruct (cache_enabled (config i)); reflexivity.
Qed.

Lemma after_filepath_heap c w : heap (after_filepath c w) = heap w.
Proof.
  unfold after_filepath. destruct (cache_path c); [|reflexivity].
  destruct (cache_enabled c); reflexivity.
Qed.

Lemma after_filepath_files c w : files (after_filepath c w) = files w.
Proof.
  unfold after_filepath. destruct (cache_path c); [|reflexivity].
  destruct (cache_enabled c); reflexivity.
Qed.

(** With a cache file to return, the directory was made. *)
Lemma after_filepath_trace c w p f :
  cache_path c = Some p -> filepath_of c = Ok (Some f) ->
  trace (after_filepath c w) = trace w ++ [EvMkdir (Path p)].
Proof.
  unfold after_filepath, filepath_of. intros ->.
  destruct (cache_enabled c); [reflexivity | discriminate].
Qed.

Lemma after_filepath_disabled c w : cache_enabled c = false -> after_filepath c w = w.
Proof.
  unfold after_filepath. intros ->. destruct (cache_path c); reflexivity.
Qed.

Lemma filepath_of_disabled c : cache_enabled c = false -> filepath_of c = Ok None.
Proof.
  unfold filepath_of. intros ->. destruct (cache_path c); reflexivity.
Qed.

Lemma field_entries_Ex fields entries :
  field_entries fields = Ok entries -> exists ex, getitem fields "Ex" = Ok ex.
Proof.
  unfold field_entries. simpl.
  destruct (getitem fields "Ex") as [ex|e]; [eauto | discriminate].
Qed.

Ltac mstep L := erewrite bind_run; [| L].

Lemma mode_solver_data_run self wg w :
  mode_solver_data self wg w = (Ok (mode_solver wg), emit [EvSolve self] w).
Proof. reflexivity. Qed.

Lemma data_compute_run self w0 i fp wg d :
  heap w0 !! self = Some i -> _cached_data i = None ->
  the_waveguide i = Ok wg ->
  computed_data (config i) (mode_solver wg) = Ok d ->
  _data_compute self (config i) fp w0 = (Ok tt, computed self i wg d fp w0).
Proof.
  intros Hi Hc Hwg Hd.
  unfold computed_data in Hd.
  destruct (field_entries (md_fields (mode_solver wg))) as [entries|] eqn:He;
    [|discriminate].
  destruct (polarization_fractions (config i) (md_fields (mode_solver wg)))
    as [fr|] eqn:Hfr; [|discriminate].
  cbn [result_bind] in Hd. injection Hd as Hd.
  destruct (field_entries_Ex _ _ He) as [ex Hex].
  unfold _data_compute.
  mstep ltac:(rewrite (waveguide_run _ _ _ Hi), Hwg; reflexivity).
  pose proof (built_lookup self i wg w0 Hi Hwg) as Hb.
  set (w1 := built self i wg w0) in *.
  mstep ltac:(apply mode_solver_data_run).
  rewrite He. mstep ltac:(reflexivity).
  mstep ltac:(apply set_cached_data_run; exact Hb).
  cbn [config _waveguide _cached_data].
  rewrite Hex. mstep ltac:(reflexivity).
  do 4 (mstep ltac:(eapply cached_setitem_run; [apply store_lookup | reflexivity]);
        rewrite store_store; cbn [config _waveguide _cached_data]).
  rewrite Hfr. mstep ltac:(reflexivity).
  do 2 (mstep ltac:(eapply cached_setitem_run; [apply store_lookup | reflexivity]);
        rewrite store_store; cbn [config _waveguide _cached_data]).
  unfold computed. fold w1. cbv zeta.
  destruct (md_n_group (mode_solver wg)) as [g|].
  - mstep ltac:(eapply cached_setitem_run; [apply store_lookup | reflexivity]).
    rewrite store_store; cbn [config _waveguide _cached_data].
    rewrite Hd.
    destruct fp as [f|]; [|reflexivity].
    mstep ltac:(eapply get_cached_data_run; [apply store_lookup | reflexivity]).
    reflexivity.
  - mstep ltac:(reflexivity). rewrite Hd.
    destruct fp as [f|]; [|reflexivity].
    mstep ltac:(eapply get_cached_data_run; [apply store_lookup | reflexivity]).
    reflexivity.
Qed.

(** A later access returns the stored mapping and does nothing else. *)
Lemma data_cached_run self w i d :
  heap w !! self = Some i -> _cached_data i = Some d ->
  _data self w = (Ok d, w).
Proof.
  intros Hi Hd. unfold _data.
  rewrite (bind_run _ _ _ _ _ (get_instance_run _ _ _ Hi)), Hd. reflexivity.
Qed.

(** First access, cache hit. *)
Lemma data_hit_run self w i f d0 :
  heap w !! self = Some i -> _cached_data i = None ->
  filepath_of (config i) = Ok (Some f) ->
  files w !! f = Some d0 -> overwrite (config i) = false ->
  _data self w = (Ok d0, loaded self i d0 f (after_filepath (config i) w)).
Proof.
  intros Hi Hc Hf Hex Hov. unfold _data.
  rewrite (bind_run _ _ _ _ _ (get_instance_run _ _ _ Hi)), Hc.
  erewrite bind_run; [|rewrite (filepath_result _ _ _ Hi), Hf; reflexivity].
  set (w0 := after_filepath (config i) w).
  assert (Hex0 : files w0 !! f = Some d0)
    by (unfold w0; rewrite after_filepath_files; exact Hex).
  assert (Hi0 : heap w0 !! self = Some i)
    by (unfold w0; rewrite after_filepath_heap; exact Hi).
  erewrite (bind_run _ _ w0 w0 true).
  2:{ unfold bind, path_exists, ret. rewrite Hex0, Hov.
      rewrite bool_decide_eq_true_2 by eauto. reflexivity. }
  erewrite (bind_run _ _ w0 (emit [EvLoad f] w0) d0).
  2:{ unfold np_load. rewrite Hex0. reflexivity. }
  mstep ltac:(apply set_cached_data_run; exact Hi0).
  apply get_cached_data_run with (i := {| config := config i; _cached_data := Some d0;
                                          _waveguide := _waveguide i |});
    [apply store_lookup | reflexivity].
Qed.

(** First access, no usable cache file: compute, and store when caching
    is enabled. *)
Lemma data_miss_run self w i fp wg d :
  heap w !! self = Some i -> _cached_data i = None ->
  filepath_of (config i) = Ok fp ->
  match fp with
  | Some f => files w !! f = None \/ overwrite (config i) = true
  | None => True
  end ->
  the_waveguide i = Ok wg ->
  computed_data (config i) (mode_solver wg) = Ok d ->
  _data self w = (Ok d, computed self i wg d fp (after_filepath (config i) w)).
Proof.
  intros Hi Hc Hf Hmiss Hwg Hd. unfold _data.
  rewrite (bind_run _ _ _ _ _ (get_instance_run _ _ _ Hi)), Hc.
  erewrite bind_run; [|rewrite (filepath_result _ _ _ Hi), Hf; reflexivity].
  set (w0 := after_filepath (config i) w).
  assert (Hi0 : heap w0 !! self = Some i)
    by (unfold w0; rewrite after_filepath_heap; exact Hi).
  assert (Hrest :
    bind (_data_compute self (config i) fp) (fun _ => get_cached_data self) w0
    = (Ok d, computed self i wg d fp w0)).
  { mstep ltac:(apply (data_compute_run self w0 i fp wg d Hi0 Hc Hwg Hd)).
    apply get_cached_data_run with (i := {| config := config i; _cached_data := Some d;
                                            _waveguide := Some wg |});
      [|reflexivity].
    unfold computed. cbv zeta. destruct fp; apply store_lookup. }
  destruct fp as [f|].
  - erewrite (bind_run _ _ w0 w0 false); [exact Hrest|].
    unfold bind, path_exists, ret.
    destruct Hmiss as [Hnone| ->].
    + rewrite bool_decide_eq_false_2; [reflexivity|].
      unfold w0. rewrite after_filepath_files, Hnone. intros [? [=]].
    + rewrite andb_false_r. reflexivity.
  - erewrite (bind_run _ _ w0 w0 false); [exact Hrest | reflexivity].
Qed.

End DataFacts.

Section CachePolicy.
Context `{ser : Serializer}.

(** C3: the first access to [_data] of an instance.  (1) Without a cache
    directory the mapping is computed (the solver runs) and no file is
    written.  (2) With a cache directory, an existing cache file and
    [overwrite = False] the file's mapping is returned after [mkdir] and
    [np.load] only: the simulation object is not built and the solver does
    not run.  (3) Otherwise (no file, or [overwrite = True] even with a
    file) the solver runs, the arrays are collected into the mapping, and
    the mapping is written to the cache file before it is returned.  In
    each case the instance keeps the returned mapping. *)
Theorem data_first_access_policy (w : World) (self : nat) (i : Instance) :
  heap w !! self = Some i ->
  _cached_data i = None ->
  (cache_enabled (config i) = false ->
   forall wg d,
     the_waveguide i = Ok wg ->
     computed_data (config i) (mode_solver wg) = Ok d ->
     exists w',
       _data self w = (Ok d, w')
       /\ files w' = files w
       /\ trace w' = trace w ++ build_events self i ++ [EvSolve self]
       /\ (_cached_data <$> heap w' !! self) = Some (Some d))
  /\ (forall p f d0,
       cache_path (config i) = Some p ->
       filepath_of (config i) = Ok (Some f) ->
       files w !! f = Some d0 ->
       overwrite (config i) = false ->
       exists w',
         _data self w = (Ok d0, w')
         /\ files w' = files w
         /\ trace w' = trace w ++ [EvMkdir (Path p); EvLoad f]
         /\ (_cached_data <$> heap w' !! self) = Some (Some d0)
         /\ (_waveguide <$> heap w' !! self) = Some (_waveguide i))
  /\ (forall p f wg d,
       cache_path (config i) = Some p ->
       filepath_of (config i) = Ok (Some f) ->
       files w !! f = None \/ overwrite (config i) = true ->
       the_waveguide i = Ok wg ->
       computed_data (config i) (mode_solver wg) = Ok d ->
       exists w',
         _data self w = (Ok d, w')
         /\ files w' = <[f := d]> (files w)
         /\ trace w' = trace w ++ [EvMkdir (Path p)] ++ build_events self i
                               ++ [EvSolve self; EvSave f]
         /\ (_cached_data <$> heap w' !! self) = Some (Some d)).
Proof.
  intros Hi Hc. split; [|split].
  - intros Hoff wg d Hwg Hd.
    eexists. split.
    { apply (data_miss_run self w i None wg d Hi Hc); auto.
      apply filepath_of_disabled, Hoff. }
    rewrite (after_filepath_disabled _ _ Hoff). unfold computed. cbv zeta.
    cbn [files trace heap store emit].
    rewrite built_files, built_trace, lookup_insert_eq, <- app_assoc.
    auto.
  - intros p f d0 Hp Hf Hex Hov.
    eexists. split; [apply (data_hit_run self w i f d0 Hi Hc Hf Hex Hov)|].
    unfold loaded. cbn [files trace heap store emit].
    rewrite after_filepath_files, (after_filepath_trace _ _ _ _ Hp Hf),
      lookup_insert_eq, <- app_assoc.
    auto.
  - intros p f wg d Hp Hf Hmiss Hwg Hd.
    eexists. split.
    { apply (data_miss_run self w i (Some f) wg d Hi Hc Hf Hmiss Hwg Hd). }
    unfold computed, saved. cbv zeta. cbn [files trace heap store emit].
    rewrite built_files, built_trace, after_filepath_files,
      (after_filepath_trace _ _ _ _ Hp Hf), lookup_insert_eq.
    rewrite <- !app_assoc. auto.
Qed.

(** C4: a mapping computed and written by one instance and then loaded by
    another instance with the same cache file (first access, [overwrite]
    off) comes back name by name as the very arrays that were computed,
    hence within any tolerance, and the load runs no simulation. *)
Theorem cache_round_trip (w : World) (a b : nat) (ia ib : Instance)
    (p : PathType) (f : string) (wg : RectangularDielectric medium) (d : npz) :
  a <> b ->
  heap w !! a = Some ia -> _cached_data ia = None ->
  heap w !! b = Some ib -> _cached_data ib = None ->
  filepath_of (config ia) = Ok (Some f) ->
  files w !! f = None \/ overwrite (config ia) = true ->
  the_waveguide ia = Ok wg ->
  computed_data (config ia) (mode_solver wg) = Ok d ->
  cache_path (config ib) = Some p ->
  filepath_of (config ib) = Ok (Some f) ->
  overwrite (config ib) = false ->
  exists w1 w2 d',
    _data a w = (Ok d, w1)
    /\ _data b w1 = (Ok d', w2)
    /\ (forall name, d' !! name = d !! name)
    /\ trace w2 = trace w1 ++ [EvMkdir (Path p); EvLoad f].
Proof.
  intros Hab Ha Hca Hb Hcb Hfa Hmiss Hwg Hd Hp Hfb Hov.
  pose proof (data_miss_run a w ia (Some f) wg d Ha Hca Hfa Hmiss Hwg Hd) as Hrun.
  set (w1 := computed a ia wg d (Some f) (after_filepath (config ia) w)) in *.
  assert (Hb1 : heap w1 !! b = Some ib).
  { unfold w1, computed, saved. cbv zeta. cbn [heap store emit].
    rewrite lookup_insert_ne by exact Hab.
    unfold built. destruct (_waveguide ia); cbn [heap store emit];
      rewrite ?lookup_insert_ne by exact Hab;
      rewrite after_filepath_heap; exact Hb. }
  assert (Hf1 : files w1 !! f = Some d).
  { unfold w1, computed, saved. cbv zeta. cbn [files]. apply lookup_insert_eq. }
  pose proof (data_hit_run b w1 ib f d Hb1 Hcb Hfb Hf1 Hov) as Hload.
  exists w1, (loaded b ib d f (after_filepath (config ib) w1)), d.
  split; [exact Hrun|]. split; [exact Hload|]. split; [reflexivity|].
  unfold loaded. cbn [trace store emit].
  rewrite (after_filepath_trace _ _ _ _ Hp Hfb), <- app_assoc. reflexivity.
Qed.

End CachePolicy.


(** ** Array shapes: rows, matrices, squeeze, transpose and broadcasting *)

Section ArrayFacts.
Context {A : Type}.

Lemma as_row_of_row (l : list A) : Np.as_row (Np.of_row l) = Some l.
Proof.
  unfold Np.of_row, Np.as_row. induction l as [|x l IH]; simpl; [reflexivity|].
  rewrite IH. reflexivity.
Qed.

Lemma as_matrix_of_matrix (m : list (list A)) : Np.as_matrix (Np.of_matrix m) = Some m.
Proof.
  unfold Np.of_matrix, Np.as_matrix.
  induction m as [|r m IH]; cbn [map foldr]; [reflexivity|].
  rewrite IH, as_row_of_row. reflexivity.
Qed.

Lemma as_row_of_matrix (r : list A) (m : list (list A)) :
  Np.as_row (Np.of_matrix (r :: m)) = None.
Proof. reflexivity. Qed.

Lemma last_axis_of_row (l : list A) : Np.last_axis (map El l) = true.
Proof. destruct l; reflexivity. Qed.

Lemma T_of_row (l : list A) : Np.T (Np.of_row l) = Np.of_row l.
Proof. unfold Np.T, Np.of_row. rewrite last_axis_of_row. reflexivity. Qed.

Lemma T_of_matrix (r : list A) (m : list (list A)) :
  Np.T (Np.of_matrix (r :: m)) = Np.of_matrix (Np.columns (length r) (r :: m)).
Proof.
  unfold Np.T. change (Np.of_matrix (r :: m)) with (Nd (Np.of_row r :: map Np.of_row m)) at 1.
  cbn [Np.last_axis Np.of_row].
  change (Nd (Nd (map El r) :: map Np.of_row m)) with (Np.of_matrix (r :: m)).
  rewrite as_matrix_of_matrix. reflexivity.
Qed.

Lemma map_squeeze_scalars (l : list A) : map Np.squeeze (map El l) = map El l.
Proof. induction l as [|z l IH]; simpl; [reflexivity | rewrite IH; reflexivity]. Qed.

Lemma squeeze_Nd (items : list (ndarray A)) :
  length items <> 1%nat -> Np.squeeze (Nd items) = Nd (map Np.squeeze items).
Proof.
  intros Hl. destruct items as [|x [|y l]]; [reflexivity | simpl in Hl; congruence |].
  reflexivity.
Qed.

Lemma squeeze_of_row (l : list A) :
  length l <> 1%nat -> Np.squeeze (Np.of_row l) = Np.of_row l.
Proof.
  intros Hl. unfold Np.of_row.
  destruct l as [|x [|y l]]; [reflexivity | simpl in Hl; congruence |].
  cbn [map Np.squeeze]. rewrite map_squeeze_scalars. reflexivity.
Qed.

Lemma map_squeeze_rows (m : list (list A)) :
  Forall (fun r => length r <> 1%nat) m ->
  map Np.squeeze (map Np.of_row m) = map Np.of_row m.
Proof.
  induction 1 as [|r m Hr _ IH]; cbn [map]; [reflexivity|].
  rewrite IH, (squeeze_of_row r Hr). reflexivity.
Qed.

Lemma map_squeeze_singletons (m : list (list A)) (col : list A) :
  Forall2 (fun r z => r = [z]) m col ->
  map Np.squeeze (map Np.of_row m) = map El col.
Proof.
  induction 1 as [|r z m col Hr _ IH]; cbn [map]; [reflexivity|].
  rewrite IH, Hr. reflexivity.
Qed.
End ArrayFacts.

Section ColumnFacts.
Context {A : Type}.

(** Column [j] of a list of rows of length [n] holds entry [j] of each row. *)
Lemma columns_lookup (n : nat) (m : list (list A)) (j : nat) :
  Forall (fun r => length r = n) m -> (j < n)%nat ->
  exists col, Np.columns n m !! j = Some col
              /\ length col = length m
              /\ forall k, col !! k = mat_get m k j.
Proof.
  revert m j. induction n as [|n IH]; intros m j Hm Hj; [lia|].
  cbn [Np.columns]. destruct j as [|j].
  - exists (omap head m). split; [reflexivity|]. split.
    + induction Hm as [|r m Hr _ IHm]; [reflexivity|].
      destruct r; [discriminate|]. simpl. f_equal. exact IHm.
    + intros k. revert k. induction Hm as [|r m Hr _ IHm]; intros k; [reflexivity|].
      destruct r as [|x r]; [discriminate|]. destruct k; [reflexivity|].
      simpl. apply IHm.
  - destruct (IH (map (drop 1) m) j) as (col & Hcol & Hlen & Hget).
    + clear -Hm. induction Hm as [|r m Hr _ IHm]; constructor; [|exact IHm].
      destruct r; [discriminate|]. simpl in *. rewrite drop_0. lia.
    + lia.
    + exists col. split; [exact Hcol|]. split.
      * rewrite Hlen, length_map. reflexivity.
      * intros k. rewrite Hget. unfold mat_get. rewrite list_lookup_fmap.
        destruct (m !! k) as [r|]; [|reflexivity]. simpl.
        rewrite lookup_drop. reflexivity.
Qed.

Lemma columns_length (n : nat) (m : list (list A)) : length (Np.columns n m) = n.
Proof. revert m. induction n as [|n IH]; intros m; simpl; [|rewrite IH]; reflexivity. Qed.

Lemma columns_cons (n : nat) (m : list (list A)) :
  (0 < n)%nat -> exists c cs, Np.columns n m = c :: cs.
Proof. destruct n; [lia|]. cbn [Np.columns]. eauto. Qed.

Lemma squeezed_get_row (l : list A) (nm k j : nat) :
  squeezed_get (Np.of_row l) nm k j = l !! (if Nat.eqb nm 1 then k else j).
Proof.
  unfold squeezed_get. rewrite as_row_of_row. reflexivity.
Qed.

Lemma squeezed_get_matrix (m : list (list A)) (nm k j : nat) :
  m <> [] -> squeezed_get (Np.of_matrix m) nm k j = mat_get m k j.
Proof.
  intros Hm. destruct m as [|r m]; [congruence|].
  unfold squeezed_get. rewrite as_row_of_matrix, as_matrix_of_matrix. reflexivity.
Qed.

Lemma zip_op_lookup (op : A -> A -> A) (l r : list A) (k : nat) :
  Np.zip_op op l r !! k
  = l !! k ≫= fun x => r !! k ≫= fun y => Some (op x y).
Proof.
  revert r k. induction l as [|x l IH]; intros [|y r] [|k]; simpl; try reflexivity.
  - destruct (l !! k); reflexivity.
  - apply IH.
Qed.

Lemma zip_op_length (op : A -> A -> A) (l r : list A) :
  length l = length r -> length (Np.zip_op op l r) = length l.
Proof.
  revert r. induction l as [|x l IH]; intros [|y r] Hl; simpl in *; try congruence.
  rewrite IH; congruence.
Qed.
End ColumnFacts.

Section MatrixFacts.
Context {A : Type}.

Lemma mat_get_columns (n : nat) (m : list (list A)) (j k : nat) :
  Forall (fun r => length r = n) m -> (j < n)%nat ->
  mat_get (Np.columns n m) j k = mat_get m k j.
Proof.
  intros Hm Hj. destruct (columns_lookup n m j Hm Hj) as (col & Hcol & _ & Hget).
  unfold mat_get at 1. rewrite Hcol. simpl. apply Hget.
Qed.

Lemma mat_get_map {B} (f : A -> B) (m : list (list A)) (k j : nat) :
  mat_get (map (map f) m) k j = f <$> mat_get m k j.
Proof.
  unfold mat_get. rewrite list_lookup_fmap.
  destruct (m !! k) as [r|]; simpl; [apply list_lookup_fmap | reflexivity].
Qed.

Lemma mat_get_zip (op : A -> A -> A) (w : list A) (m : list (list A)) (k j : nat) :
  mat_get (map (fun r => Np.zip_op op r w) m) k j
  = mat_get m k j ≫= fun x => w !! j ≫= fun y => Some (op x y).
Proof.
  unfold mat_get. rewrite list_lookup_fmap.
  destruct (m !! k) as [r|]; simpl; [apply zip_op_lookup | reflexivity].
Qed.

Lemma mat_get_bounds (n : nat) (m : list (list A)) (k j : nat) (z : A) :
  Forall (fun r => length r = n) m -> mat_get m k j = Some z ->
  (k < length m)%nat /\ (j < n)%nat.
Proof.
  intros Hm Hz. unfold mat_get in Hz.
  destruct (m !! k) as [r|] eqn:Hr; [|discriminate]. simpl in Hz.
  split; [eapply lookup_lt_Some; exact Hr|].
  rewrite List.Forall_forall in Hm.
  rewrite <- (Hm r); [eapply lookup_lt_Some; exact Hz|].
  apply list_elem_of_In. eapply list_elem_of_lookup_2. exact Hr.
Qed.

Lemma map_nd_of_row {B} (f : A -> B) (l : list A) :
  Np.map_nd f (Np.of_row l) = Np.of_row (map f l).
Proof.
  unfold Np.of_row. cbn [Np.map_nd]. rewrite !map_map. reflexivity.
Qed.

Lemma map_nd_of_matrix {B} (f : A -> B) (m : list (list A)) :
  Np.map_nd f (Np.of_matrix m) = Np.of_matrix (map (map f) m).
Proof.
  unfold Np.of_matrix. cbn [Np.map_nd]. rewrite !map_map. f_equal.
  apply map_ext. intros r. apply map_nd_of_row.
Qed.

Lemma bcast_rows_matrix (op : A -> A -> A) (w : list A) (m : list (list A)) :
  Forall (fun r => length r = length w) m ->
  result_mapM (fun r => Np.bcast_rows op r w) m
  = Ok (map (fun r => Np.zip_op op r w) m).
Proof.
  induction 1 as [|r m Hr _ IH]; simpl; [reflexivity|].
  unfold Np.bcast_rows at 1. rewrite Hr, Nat.eqb_refl. simpl. rewrite IH. reflexivity.
Qed.
End MatrixFacts.


Section BroadcastFacts.
Context {A : Type} (op : A -> A -> A).

Lemma squeeze_of_matrix (m : list (list A)) :
  length m <> 1%nat -> Forall (fun r => length r <> 1%nat) m ->
  Np.squeeze (Np.of_matrix m) = Np.of_matrix m.
Proof.
  intros Hm Hr. unfold Np.of_matrix.
  rewrite squeeze_Nd by (rewrite length_map; exact Hm).
  rewrite (map_squeeze_rows m Hr). reflexivity.
Qed.

Lemma squeeze_of_column (m : list (list A)) (col : list A) :
  length m <> 1%nat -> Forall2 (fun r z => r = [z]) m col ->
  Np.squeeze (Np.of_matrix m) = Np.of_row col.
Proof.
  intros Hm Hr. unfold Np.of_matrix.
  rewrite squeeze_Nd by (rewrite length_map; exact Hm).
  rewrite (map_squeeze_singletons m col Hr). reflexivity.
Qed.

Lemma bcast_scalar (a : ndarray A) (y : A) :
  Np.bcast op a (El y) = Ok (Np.map_nd (fun x => op x y) a).
Proof. reflexivity. Qed.

Lemma bcast_el_row (x : A) (w : list A) :
  Np.bcast op (El x) (Np.of_row w) = Ok (Np.of_row (map (op x) w)).
Proof.
  unfold Np.bcast. rewrite as_row_of_row. reflexivity.
Qed.

Lemma bcast_row_row (v w : list A) :
  Np.bcast op (Np.of_row v) (Np.of_row w)
  = result_bind (Np.bcast_rows op v w) (fun r => Ok (Np.of_row r)).
Proof.
  unfold Np.bcast. rewrite !as_row_of_row. reflexivity.
Qed.

Lemma bcast_matrix_row (r : list A) (m : list (list A)) (w : list A) :
  Np.bcast op (Np.of_matrix (r :: m)) (Np.of_row w)
  = result_bind (result_mapM (fun r => Np.bcast_rows op r w) (r :: m))
      (fun rows => Ok (Np.of_matrix rows)).
Proof.
  unfold Np.bcast. rewrite as_row_of_row, as_row_of_matrix, as_matrix_of_matrix.
  reflexivity.
Qed.
End BroadcastFacts.

Section LossFacts.
Context `{ser : Serializer}.

Lemma loss_closed_form_steps im x :
  loss_closed_form im x
  = to_dB_per_cm (PrimFloat.div (two_pi_times im) (to_meters x)).
Proof. reflexivity. Qed.

Lemma loss_array_unfold wl n :
  loss_array wl (ArrC n)
  = result_bind
      (Np.bcast PrimFloat.div (Np.map_nd two_pi_times (Np.T (Np.map_nd snd n)))
                (Np.map_nd to_meters wl))
      (fun alpha => Ok (Np.map_nd to_dB_per_cm (Np.T alpha))).
Proof. reflexivity. Qed.

(** Several wavelengths and several modes: a rank-2 [n_eff]. *)
Lemma loss_array_matrix (ws : list float) (N : list (list complex)) (nm : nat) :
  length N = length ws -> (1 < length ws)%nat -> (1 < nm)%nat ->
  Forall (fun r => length r = nm) N ->
  exists L,
    loss_array (Np.of_row ws) (ArrC (Np.squeeze (Np.of_matrix N))) = Ok L
    /\ forall k j z x,
        mat_get N k j = Some z -> ws !! k = Some x ->
        squeezed_get L nm k j = Some (loss_closed_form (snd z) x).
Proof.
  intros Hlen Hnf Hnm Hrect.
  rewrite squeeze_of_matrix;
    [|lia|eapply Forall_impl; [exact Hrect|]; simpl; intros; lia].
  rewrite loss_array_unfold, map_nd_of_matrix.
  set (Im := map (map snd) N).
  assert (HIm : Forall (fun r => length r = nm) Im).
  { unfold Im. apply List.Forall_forall. intros r Hr.
    apply in_map_iff in Hr as (r' & <- & Hr').
    rewrite length_map. rewrite List.Forall_forall in Hrect. auto. }
  assert (HImlen : length Im = length ws) by (unfold Im; rewrite length_map; exact Hlen).
  destruct Im as [|i0 Im'] eqn:HImeq; [simpl in HImlen; lia|].
  rewrite T_of_matrix. rewrite <- HImeq in *.
  assert (Hi0 : length i0 = nm).
  { rewrite HImeq in HIm. inversion HIm; assumption. }
  rewrite Hi0, map_nd_of_matrix, map_nd_of_row.
  set (cols := map (map two_pi_times) (Np.columns nm Im)).
  set (wr := map to_meters ws).
  assert (Hcols : Forall (fun r => length r = length wr) cols).
  { unfold cols, wr. apply List.Forall_forall. intros r Hr.
    apply in_map_iff in Hr as (c & <- & Hc). rewrite !length_map.
    apply list_elem_of_In, list_elem_of_lookup in Hc as [j Hj].
    assert (Hjn : (j < nm)%nat).
    { apply lookup_lt_Some in Hj. rewrite columns_length in Hj. exact Hj. }
    destruct (columns_lookup nm Im j HIm Hjn) as (col & Hcol & Hl & _).
    rewrite Hcol in Hj. injection Hj as <-. rewrite Hl. exact HImlen. }
  assert (Hne : exists c0 cols', cols = c0 :: cols').
  { unfold cols. destruct nm as [|nm']; [lia|]. cbn [Np.columns map]. eauto. }
  destruct Hne as (c0 & cols' & Hceq).
  rewrite Hceq, bcast_matrix_row, <- Hceq, (bcast_rows_matrix _ _ _ Hcols).
  cbn [result_bind].
  set (rows := map (fun r => Np.zip_op PrimFloat.div r wr) cols).
  assert (Hrows : Forall (fun r => length r = length ws) rows).
  { unfold rows. apply List.Forall_forall. intros r Hr.
    apply in_map_iff in Hr as (c & <- & Hc).
    rewrite List.Forall_forall in Hcols. specialize (Hcols c Hc).
    rewrite zip_op_length by exact Hcols. rewrite Hcols. unfold wr.
    apply length_map. }
  assert (Hrne : exists r0 rows', rows = r0 :: rows').
  { unfold rows. rewrite Hceq. cbn [map]. eauto. }
  destruct Hrne as (r0 & rows' & Hreq).
  assert (Hr0 : length r0 = length ws).
  { rewrite Hreq in Hrows. inversion Hrows; assumption. }
  rewrite Hreq, T_of_matrix, <- Hreq, Hr0, map_nd_of_matrix.
  eexists. split; [reflexivity|].
  intros k j z x Hz Hx.
  destruct (mat_get_bounds nm N k j z Hrect Hz) as [Hk Hj].
  rewrite squeezed_get_matrix.
  2:{ destruct (columns_cons (length ws) rows) as (c & cs & ->); [lia | discriminate]. }
  rewrite mat_get_map, (mat_get_columns _ _ _ _ Hrows) by lia.
  unfold rows. rewrite mat_get_zip. unfold cols.
  rewrite mat_get_map, (mat_get_columns _ _ _ _ HIm Hj).
  unfold Im. rewrite mat_get_map, Hz. unfold wr.
  rewrite list_lookup_fmap, Hx. reflexivity.
Qed.

(** Several wavelengths, one mode: [n_eff] runs over the wavelengths. *)
Lemma loss_array_column (ws : list float) (N : list (list complex)) :
  length N = length ws -> (1 < length ws)%nat ->
  Forall (fun r => length r = 1%nat) N ->
  exists L,
    loss_array (Np.of_row ws) (ArrC (Np.squeeze (Np.of_matrix N))) = Ok L
    /\ forall k j z x,
        mat_get N k j = Some z -> ws !! k = Some x ->
        squeezed_get L 1 k j = Some (loss_closed_form (snd z) x).
Proof.
  intros Hlen Hnf Hrect.
  assert (Hcol : exists col, Forall2 (fun r z => r = [z]) N col).
  { clear -Hrect. induction Hrect as [|r N Hr _ (col & IH)]; [exists []; constructor|].
    destruct r as [|z [|? ?]]; try discriminate.
    exists (z :: col). constructor; [reflexivity | exact IH]. }
  destruct Hcol as [col Hcol].
  rewrite (squeeze_of_column N col) by (lia || exact Hcol).
  rewrite loss_array_unfold, map_nd_of_row, T_of_row, !map_nd_of_row, bcast_row_row.
  assert (Hcl : length col = length ws).
  { rewrite <- Hlen. symmetry. eapply Forall2_length. exact Hcol. }
  unfold Np.bcast_rows. rewrite !length_map, Hcl, Nat.eqb_refl. cbn [result_bind].
  rewrite T_of_row, map_nd_of_row.
  eexists. split; [reflexivity|].
  intros k j z x Hz Hx. rewrite squeezed_get_row. cbn [Nat.eqb].
  rewrite list_lookup_fmap, zip_op_lookup, !list_lookup_fmap, Hx.
  assert (Hck : col !! k = Some z).
  { unfold mat_get in Hz. destruct (N !! k) as [r|] eqn:Hr; [|discriminate].
    destruct (Forall2_lookup_l _ _ _ _ _ Hcol Hr) as (z' & Hz' & ->).
    simpl in Hz. destruct j; simpl in Hz; [|discriminate]. congruence. }
  rewrite Hck. reflexivity.
Qed.

(** One wavelength: [n_eff] runs over the modes, or is a scalar. *)
Lemma loss_array_row (wl : ndarray float) (x : float) (row : list complex) :
  wl = Np.of_row [x] \/ wl = El x ->
  (0 < length row)%nat ->
  exists L,
    loss_array wl (ArrC (Np.squeeze (Np.of_matrix [row]))) = Ok L
    /\ forall j z,
        row !! j = Some z ->
        squeezed_get L (length row) 0 j = Some (loss_closed_form (snd z) x).
Proof.
  intros Hwl Hrow.
  destruct row as [|z0 [|z1 row]]; [simpl in Hrow; lia | |].
  - (* one mode: a scalar *)
    change (Np.squeeze (Np.of_matrix [[z0]])) with (@El complex z0).
    rewrite loss_array_unfold. cbn [Np.map_nd Np.T].
    destruct Hwl as [-> | ->].
    + rewrite map_nd_of_row, bcast_el_row. cbn [result_bind map].
      rewrite T_of_row, map_nd_of_row.
      eexists. split; [reflexivity|].
      intros [|j] z Hz; [|discriminate]. injection Hz as <-. reflexivity.
    + cbn [Np.map_nd]. rewrite bcast_scalar. cbn [result_bind Np.map_nd Np.T].
      eexists. split; [reflexivity|].
      intros [|j] z Hz; [|discriminate]. injection Hz as <-. reflexivity.
  - (* several modes *)
    set (r := z0 :: z1 :: row) in *.
    assert (Hsq : Np.squeeze (Np.of_matrix [r]) = Np.of_row r).
    { change (Np.squeeze (Np.of_matrix [r])) with (Np.squeeze (Np.of_row r)).
      apply squeeze_of_row. unfold r. simpl. lia. }
    rewrite Hsq, loss_array_unfold, map_nd_of_row, T_of_row, map_nd_of_row.
    assert (Hnm : Nat.eqb (length r) 1 = false) by reflexivity.
    destruct Hwl as [-> | ->].
    + rewrite map_nd_of_row, bcast_row_row.
      unfold Np.bcast_rows. rewrite !length_map.
      change (length [x]) with 1%nat. rewrite Hnm.
      change (map two_pi_times (map snd r))
        with (two_pi_times (snd z0) :: two_pi_times (snd z1)
                :: map two_pi_times (map snd row)) at 1.
      cbn [map result_bind]. rewrite T_of_row, map_nd_of_row.
      eexists. split; [reflexivity|].
      intros j z Hz. rewrite squeezed_get_row, Hnm.
      change (two_pi_times (snd z0) :: two_pi_times (snd z1)
                :: map two_pi_times (map snd row))
        with (map two_pi_times (map snd r)).
      rewrite !list_lookup_fmap, Hz. reflexivity.
    + cbn [Np.map_nd]. rewrite bcast_scalar. cbn [result_bind].
      rewrite map_nd_of_row, T_of_row, map_nd_of_row.
      eexists. split; [reflexivity|].
      intros j z Hz. rewrite squeezed_get_row, Hnm.
      rewrite !list_lookup_fmap, Hz. reflexivity.
Qed.

(** Every shape at once: a wavelength array of rank 0 or 1 holding [ws], and
    the solver's [n_complex] with one row per wavelength and [nm] modes. *)
Lemma loss_array_entries (wl : ndarray float) (ws : list float)
    (N : list (list complex)) (nm : nat) :
  wl = Np.of_row ws \/ (exists x, wl = El x /\ ws = [x]) ->
  length N = length ws -> (0 < length ws)%nat -> (0 < nm)%nat ->
  Forall (fun r => length r = nm) N ->
  exists L,
    loss_array wl (ArrC (Np.squeeze (Np.of_matrix N))) = Ok L
    /\ forall k j z x,
        mat_get N k j = Some z -> ws !! k = Some x ->
        squeezed_get L nm k j = Some (loss_closed_form (snd z) x).
Proof.
  intros Hwl Hlen Hnf Hnm Hrect.
  destruct ws as [|x0 [|x1 ws]]; [simpl in Hnf; lia | |].
  - (* one wavelength *)
    destruct N as [|row [|? ?]]; try discriminate.
    assert (Hrow : length row = nm) by (inversion Hrect; assumption).
    destruct (loss_array_row wl x0 row) as (L & HL & Hent).
    { destruct Hwl as [-> | (x & -> & [= ->])]; auto. }
    { lia. }
    exists L. split; [exact HL|].
    intros k j z x Hz Hx. destruct k; [|discriminate].
    injection Hx as <-. rewrite <- Hrow. apply Hent. exact Hz.
  - (* several wavelengths *)
    destruct Hwl as [-> | (x & _ & [=])].
    destruct (decide (nm = 1%nat)) as [-> | Hne].
    + apply loss_array_column; [exact Hlen | simpl; lia | exact Hrect].
    + apply loss_array_matrix; [exact Hlen | simpl; lia | lia | exact Hrect].
Qed.

(** C5: with [n_eff] the squeezed (wavelength, mode) array of the solver and
    the configured wavelengths in um, [loss_dB_per_cm] returns, for every
    wavelength [k] and mode [j], exactly
    [20 * log10(e) * (2 pi * Im(n_eff[k][j]) / (wavelength[k] * 1e-6)) * 1e-2],
    the same binary64 operations in the same order, and leaves the world as
    the access to [_data] left it. *)
Theorem loss_dB_per_cm_closed_form (w w' : World) (self : nat) (i : Instance)
    (d : npz) (ws : list float) (N : list (list complex)) (nm : nat) :
  heap w !! self = Some i ->
  _data self w = (Ok d, w') ->
  d !! "n_eff" = Some (ArrC (Np.squeeze (Np.of_matrix N))) ->
  wavelength (config i) = Np.of_row ws
    \/ (exists x, wavelength (config i) = El x /\ ws = [x]) ->
  length N = length ws -> (0 < length ws)%nat -> (0 < nm)%nat ->
  Forall (fun r => length r = nm) N ->
  exists L,
    loss_dB_per_cm self w = (Ok L, w')
    /\ forall k j z x,
        mat_get N k j = Some z -> ws !! k = Some x ->
        squeezed_get L nm k j = Some (loss_closed_form (snd z) x).
Proof.
  intros Hi Hdata Hn Hwl Hlen Hnf Hnm Hrect.
  destruct (loss_array_entries _ ws N nm Hwl Hlen Hnf Hnm Hrect) as (L & HL & Hent).
  exists L. split; [|exact Hent].
  unfold loss_dB_per_cm.
  rewrite (bind_run _ _ _ _ _ (get_instance_run _ _ _ Hi)).
  erewrite bind_run.
  2:{ unfold n_eff, data_item. rewrite (bind_run _ _ _ _ _ Hdata).
      unfold getitem. rewrite Hn. reflexivity. }
  rewrite HL. reflexivity.
Qed.

End LossFacts.

(** ** Invariants of the operations *)

Section Preservation.
Context `{ser : Serializer}.
Variable P : World -> Prop.

Lemma pres_ret {A} (a : A) : preserves P (ret a).
Proof. intros w Hw. exact Hw. Qed.

Lemma pres_raise {A} (e : exn) : preserves P (@raise _ A e).
Proof. intros w Hw. exact Hw. Qed.

Lemma pres_lift {A} (r : result A) : preserves P (lift r).
Proof. intros w Hw. exact Hw. Qed.

Lemma pres_bind {A B} (m : M A) (k : A -> M B) :
  preserves P m -> (forall a, preserves P (k a)) -> preserves P (bind m k).
Proof.
  intros Hm Hk w Hw. unfold exec, bind.
  specialize (Hm w Hw). unfold exec in Hm.
  destruct (m w) as [[a|e] w1]; simpl in *; [apply (Hk a w1 Hm) | exact Hm].
Qed.

Lemma pres_get_instance self : preserves P (get_instance self).
Proof.
  intros w Hw. unfold exec, get_instance. destruct (heap w !! self); exact Hw.
Qed.

Lemma pres_path_exists f : preserves P (path_exists f).
Proof. intros w Hw. exact Hw. Qed.

Lemma pres_get_cached_data self : preserves P (get_cached_data self).
Proof.
  intros w Hw. unfold exec, get_cached_data, bind, get_instance.
  destruct (heap w !! self) as [i|]; [|exact Hw].
  destruct (_cached_data i); exact Hw.
Qed.

(** What the property must survive: events other than constructions, the
    file system calls, assignments to [_cached_data], an access to
    [waveguide], and the creation of another object. *)
Hypothesis P_log : forall e, (forall s, e <> EvBuild s) -> preserves P (log e).
Hypothesis P_mkdir : forall dir, preserves P (mkdir dir).
Hypothesis P_load : forall f, preserves P (np_load f).
Hypothesis P_savez : forall f d, preserves P (np_savez f d).
Hypothesis P_set_cached_data : forall self d, preserves P (set_cached_data self d).
Hypothesis P_cached_setitem : forall self k v, preserves P (cached_setitem self k v).
Hypothesis P_waveguide : forall self, preserves P (waveguide self).
Hypothesis P_new : forall v rest, preserves P (new_waveguide v rest).

Create HintDb pres discriminated.
#[local] Hint Resolve pres_ret pres_raise pres_lift pres_get_instance
  pres_path_exists pres_get_cached_data P_mkdir P_load P_savez
  P_set_cached_data P_cached_setitem P_waveguide P_new : pres.
#[local] Hint Extern 1 (preserves _ (bind _ _)) => apply pres_bind; [|intros ?] : pres.
#[local] Hint Extern 1 (preserves _ (log _)) => apply P_log; discriminate : pres.
#[local] Hint Extern 2 (preserves _ (match ?x with _ => _ end)) => destruct x : pres.

Lemma pres_filepath self : preserves P (filepath self).
Proof. unfold filepath. auto 20 with pres. Qed.

Lemma pres_mode_solver_data self wg : preserves P (mode_solver_data self wg).
Proof. unfold mode_solver_data. auto 20 with pres. Qed.

#[local] Hint Resolve pres_filepath pres_mode_solver_data : pres.

Lemma pres_data_compute self c fp : preserves P (_data_compute self c fp).
Proof. unfold _data_compute. auto 40 with pres. Qed.

#[local] Hint Resolve pres_data_compute : pres.

Lemma pres_data self : preserves P (_data self).
Proof. unfold _data. auto 40 with pres. Qed.

#[local] Hint Resolve pres_data : pres.

Lemma pres_data_item self k : preserves P (data_item self k).
Proof. unfold data_item. auto 20 with pres. Qed.

#[local] Hint Resolve pres_data_item : pres.

Lemma pres_index self : preserves P (index self).
Proof. unfold index. auto 20 with pres. Qed.

#[local] Hint Resolve pres_index : pres.

Lemma pres_xarray_plot self v : preserves P (xarray_plot self v).
Proof.
  unfold xarray_plot. cbv zeta.
  destruct (existsb _ _); [apply pres_raise|].
  destruct (Np.shape _) as [|? [|? [|? ?]]]; auto 20 with pres.
Qed.

#[local] Hint Resolve pres_xarray_plot : pres.

Lemma pres_plot_index self kw : preserves P (plot_index self kw).
Proof. unfold plot_index. auto 20 with pres. Qed.

#[local] Hint Resolve pres_plot_index : pres.

Lemma pres_plot_field self f v m wl kw : preserves P (plot_field self f v m wl kw).
Proof. unfold plot_field. auto 40 with pres. Qed.

Lemma pres_repr self : preserves P (__repr__ self).
Proof. unfold __repr__. auto 20 with pres. Qed.

#[local] Hint Resolve pres_plot_field pres_repr : pres.

(** Every operation keeps the property. *)
Lemma run_op_preserves (o : op) (w : World) : P w -> P (run_op o w).
Proof.
  destruct o; cbn [run_op];
    match goal with |- _ -> P (exec ?m w) => revert w; change (preserves P m) end;
    unfold loss_dB_per_cm, overlap, plot_grid, _ipython_display_, __str__,
      fraction_te, fraction_tm, n_eff, mode_area, n_group;
    auto 40 with pres.
Qed.

Lemma run_ops_preserves (ops : list op) (w : World) : P w -> P (run_ops ops w).
Proof.
  unfold run_ops. revert w. induction ops as [|o ops IH]; intros w Hw; [exact Hw|].
  simpl. apply IH, run_op_preserves, Hw.
Qed.

End Preservation.


Section Effects.
Context `{ser : Serializer}.

Lemma builds_app self t t' : builds self (t ++ t') = (builds self t + builds self t')%nat.
Proof. unfold builds. rewrite List.filter_app, length_app. reflexivity. Qed.

Lemma builds_other self e :
  (forall s, e <> EvBuild s) -> builds self [e] = 0%nat.
Proof. intros He. destruct e; try reflexivity. destruct (He self0 eq_refl). Qed.

Lemma set_cached_data_effect self d w :
  exec (set_cached_data self d) w =
    match heap w !! self with
    | Some i => store self {| config := config i; _cached_data := Some d;
                              _waveguide := _waveguide i |} w
    | None => w
    end.
Proof.
  unfold exec, set_cached_data, bind, get_instance.
  destruct (heap w !! self); reflexivity.
Qed.

Lemma cached_setitem_effect self k v w :
  exec (cached_setitem self k v) w =
    match heap w !! self with
    | Some i =>
        match _cached_data i with
        | Some d => store self {| config := config i;
                                  _cached_data := Some (<[k := v]> d);
                                  _waveguide := _waveguide i |} w
        | None => w
        end
    | None => w
    end.
Proof.
  unfold exec, cached_setitem, bind, get_instance.
  destruct (heap w !! self) as [i|]; [|reflexivity].
  destruct (_cached_data i); reflexivity.
Qed.

Lemma waveguide_effect self w :
  exec (waveguide self) w =
    match heap w !! self with
    | Some i =>
        match the_waveguide i with
        | Ok wg => built self i wg w
        | Raise _ => w
        end
    | None => w
    end.
Proof.
  unfold exec. destruct (heap w !! self) as [i|] eqn:Hi.
  - rewrite (waveguide_run self w i Hi). destruct (the_waveguide i); reflexivity.
  - unfold waveguide, bind, get_instance. rewrite Hi. reflexivity.
Qed.

Lemma new_waveguide_other v rest w self i :
  heap w !! self = Some i ->
  heap (exec (new_waveguide v rest) w) !! self = Some i.
Proof.
  intros Hi. unfold exec, new_waveguide. cbn [snd heap].
  rewrite lookup_insert_ne; [exact Hi|].
  intros Heq. assert (Hin : self ∈ dom (heap w)) by (apply elem_of_dom; eauto).
  rewrite <- Heq in Hin. exact (is_fresh _ Hin).
Qed.

(** The declared fields survive every primitive. *)
Lemma has_config_ops self c ops w :
  has_config self c w -> has_config self c (run_ops ops w).
Proof.
  apply run_ops_preserves.
  - intros e _ w0 Hw. exact Hw.
  - intros dir w0 Hw. exact Hw.
  - intros f w0 (i & Hi & Hc). unfold exec, np_load.
    destruct (files w0 !! f); exists i; auto.
  - intros f d w0 Hw. exact Hw.
  - intros s d w0 (i & Hi & Hc). rewrite set_cached_data_effect.
    destruct (heap w0 !! s) as [j|] eqn:Hj; [|exists i; auto].
    destruct (decide (s = self)) as [->|Hne].
    + eexists. split; [apply store_lookup|]. simpl. congruence.
    + exists i. split; [|exact Hc]. unfold store. cbn [heap].
      rewrite lookup_insert_ne by exact Hne. exact Hi.
  - intros s k v w0 (i & Hi & Hc). rewrite cached_setitem_effect.
    destruct (heap w0 !! s) as [j|] eqn:Hj; [|exists i; auto].
    destruct (_cached_data j); [|exists i; auto].
    destruct (decide (s = self)) as [->|Hne].
    + eexists. split; [apply store_lookup|]. simpl. congruence.
    + exists i. split; [|exact Hc]. unfold store. cbn [heap].
      rewrite lookup_insert_ne by exact Hne. exact Hi.
  - intros s w0 (i & Hi & Hc). rewrite waveguide_effect.
    destruct (heap w0 !! s) as [j|] eqn:Hj; [|exists i; auto].
    destruct (the_waveguide j) as [wg|e] eqn:Hwg; [|exists i; auto].
    destruct (decide (s = self)) as [->|Hne].
    + eexists. split; [apply (built_lookup self j wg w0 Hj Hwg)|]. simpl. congruence.
    + exists i. split; [|exact Hc]. unfold built.
      destruct (_waveguide j); [exact Hi|]. unfold store. cbn [heap].
      rewrite lookup_insert_ne by exact Hne. exact Hi.
  - intros v rest w0 (i & Hi & Hc). exists i. split; [|exact Hc].
    apply new_waveguide_other, Hi.
Qed.

Lemma builds_snoc_other self t e :
  (forall s, e <> EvBuild s) -> builds self (t ++ [e]) = builds self t.
Proof. intros He. rewrite builds_app, (builds_other self e He). lia. Qed.

(** The construction count matches the stored handle after every primitive. *)
Lemma built_when_stored_ops self ops w :
  built_when_stored self w -> built_when_stored self (run_ops ops w).
Proof.
  apply run_ops_preserves.
  - intros e He w0 (i & Hi & Hc). exists i. split; [exact Hi|].
    cbn [exec log snd trace]. rewrite builds_snoc_other by exact He. exact Hc.
  - intros dir w0 (i & Hi & Hc). exists i. split; [exact Hi|].
    cbn [exec mkdir snd trace]. rewrite builds_snoc_other by discriminate. exact Hc.
  - intros f w0 (i & Hi & Hc). unfold exec, np_load.
    destruct (files w0 !! f); exists i; (split; [exact Hi|]); [|exact Hc].
    cbn [snd trace]. rewrite builds_snoc_other by discriminate. exact Hc.
  - intros f d w0 (i & Hi & Hc). exists i. split; [exact Hi|].
    cbn [exec np_savez snd trace]. rewrite builds_snoc_other by discriminate. exact Hc.
  - intros s d w0 (i & Hi & Hc). rewrite set_cached_data_effect.
    destruct (heap w0 !! s) as [j|] eqn:Hj; [|exists i; auto].
    destruct (decide (s = self)) as [->|Hne].
    + eexists. split; [apply store_lookup|]. cbn [trace store _waveguide].
      replace j with i by congruence. exact Hc.
    + exists i. split; [|exact Hc]. unfold store. cbn [heap].
      rewrite lookup_insert_ne by exact Hne. exact Hi.
  - intros s k v w0 (i & Hi & Hc). rewrite cached_setitem_effect.
    destruct (heap w0 !! s) as [j|] eqn:Hj; [|exists i; auto].
    destruct (_cached_data j); [|exists i; auto].
    destruct (decide (s = self)) as [->|Hne].
    + eexists. split; [apply store_lookup|]. cbn [trace store _waveguide].
      replace j with i by congruence. exact Hc.
    + exists i. split; [|exact Hc]. unfold store. cbn [heap].
      rewrite lookup_insert_ne by exact Hne. exact Hi.
  - intros s w0 (i & Hi & Hc). rewrite waveguide_effect.
    destruct (heap w0 !! s) as [j|] eqn:Hj; [|exists i; auto].
    destruct (the_waveguide j) as [wg|e] eqn:Hwg; [|exists i; auto].
    unfold built. destruct (_waveguide j) as [wg'|] eqn:Hj'; [exists i; auto|].
    destruct (decide (s = self)) as [->|Hne].
    + eexists. split; [apply store_lookup|].
      cbn [trace store emit _waveguide]. rewrite builds_app, Hc.
      replace i with j by congruence. rewrite Hj'.
      unfold builds. cbn [List.filter is_build]. rewrite Nat.eqb_refl. reflexivity.
    + exists i. split.
      * unfold store. cbn [heap emit]. rewrite lookup_insert_ne by exact Hne. exact Hi.
      * cbn [trace store emit]. rewrite builds_app, Hc.
        unfold builds. cbn [List.filter is_build].
        destruct (Nat.eqb_spec s self); [contradiction|]. simpl. lia.
  - intros v rest w0 (i & Hi & Hc). exists i. split; [|exact Hc].
    apply new_waveguide_other, Hi.
Qed.

(** A stored simulation object stays stored. *)
Lemma holds_waveguide_ops self wg ops w :
  holds_waveguide self wg w -> holds_waveguide self wg (run_ops ops w).
Proof.
  apply run_ops_preserves.
  - intros e _ w0 Hw. exact Hw.
  - intros dir w0 Hw. exact Hw.
  - intros f w0 (i & Hi & Hc). unfold exec, np_load.
    destruct (files w0 !! f); exists i; auto.
  - intros f d w0 Hw. exact Hw.
  - intros s d w0 (i & Hi & Hc). rewrite set_cached_data_effect.
    destruct (heap w0 !! s) as [j|] eqn:Hj; [|exists i; auto].
    destruct (decide (s = self)) as [->|Hne].
    + eexists. split; [apply store_lookup|]. simpl. congruence.
    + exists i. split; [|exact Hc]. unfold store. cbn [heap].
      rewrite lookup_insert_ne by exact Hne. exact Hi.
  - intros s k v w0 (i & Hi & Hc). rewrite cached_setitem_effect.
    destruct (heap w0 !! s) as [j|] eqn:Hj; [|exists i; auto].
    destruct (_cached_data j); [|exists i; auto].
    destruct (decide (s = self)) as [->|Hne].
    + eexists. split; [apply store_lookup|]. simpl. congruence.
    + exists i. split; [|exact Hc]. unfold store. cbn [heap].
      rewrite lookup_insert_ne by exact Hne. exact Hi.
  - intros s w0 (i & Hi & Hc). rewrite waveguide_effect.
    destruct (heap w0 !! s) as [j|] eqn:Hj; [|exists i; auto].
    destruct (the_waveguide j) as [wg'|e] eqn:Hwg; [|exists i; auto].
    unfold built. destruct (_waveguide j) as [wg''|] eqn:Hj'; [exists i; auto|].
    destruct (decide (s = self)) as [->|Hne]; [congruence|].
    exists i. split; [|exact Hc]. unfold store. cbn [heap emit].
    rewrite lookup_insert_ne by exact Hne. exact Hi.
  - intros v rest w0 (i & Hi & Hc). exists i. split; [|exact Hc].
    apply new_waveguide_other, Hi.
Qed.

(** C9: whatever operations of the class run, on this or on other
    instances, the declared fields of an instance stay what they were when
    it was built. *)
Theorem config_immutable (w0 : World) (self : nat) (i0 : Instance) (ops : list op) :
  heap w0 !! self = Some i0 ->
  exists i, heap (run_ops ops w0) !! self = Some i /\ config i = config i0.
Proof.
  intros Hi. apply (has_config_ops self (config i0) ops w0). exists i0. auto.
Qed.

Lemma stores_only_ops self c wg ops w :
  build_waveguide c = Ok wg ->
  stores_only self c wg w -> stores_only self c wg (run_ops ops w).
Proof.
  intros Hb. apply run_ops_preserves.
  - intros e _ w0 Hw. exact Hw.
  - intros dir w0 Hw. exact Hw.
  - intros f w0 Hw. unfold exec, np_load. destruct (files w0 !! f); exact Hw.
  - intros f d w0 Hw. exact Hw.
  - intros s d w0 (i & Hi & Hc & Hs). rewrite set_cached_data_effect.
    destruct (heap w0 !! s) as [j|] eqn:Hj; [|exists i; auto].
    destruct (decide (s = self)) as [->|Hne].
    + assert (j = i) as -> by congruence.
      eexists. split; [apply store_lookup|]. cbn [config _waveguide]. auto.
    + exists i. unfold store. cbn [heap]. rewrite lookup_insert_ne by exact Hne. auto.
  - intros s k v w0 (i & Hi & Hc & Hs). rewrite cached_setitem_effect.
    destruct (heap w0 !! s) as [j|] eqn:Hj; [|exists i; auto].
    destruct (_cached_data j); [|exists i; auto].
    destruct (decide (s = self)) as [->|Hne].
    + assert (j = i) as -> by congruence.
      eexists. split; [apply store_lookup|]. cbn [config _waveguide]. auto.
    + exists i. unfold store. cbn [heap]. rewrite lookup_insert_ne by exact Hne. auto.
  - intros s w0 (i & Hi & Hc & Hs). rewrite waveguide_effect.
    destruct (heap w0 !! s) as [j|] eqn:Hj; [|exists i; auto].
    destruct (the_waveguide j) as [wg'|e] eqn:Hwg; [|exists i; auto].
    unfold built. destruct (_waveguide j) as [wg''|] eqn:Hj'; [exists i; auto|].
    destruct (decide (s = self)) as [->|Hne].
    + assert (j = i) as -> by congruence.
      unfold the_waveguide in Hwg. rewrite Hj', Hc, Hb in Hwg. injection Hwg as <-.
      eexists. split; [apply store_lookup|]. cbn [config _waveguide].
      split; [exact Hc|]. intros ? [= <-]. reflexivity.
    + exists i. unfold store. cbn [heap emit].
      rewrite lookup_insert_ne by exact Hne. auto.
  - intros v rest w0 (i & Hi & Hc & Hs). exists i.
    split; [apply new_waveguide_other, Hi | auto].
Qed.

(** Once stored and counted, the simulation object stays the one. *)
Lemma built_stays self wg w ops :
  built_when_stored self w -> holds_waveguide self wg w ->
  builds self (trace (run_ops ops w)) = 1%nat.
Proof.
  intros Hb Hh.
  destruct (built_when_stored_ops self ops w Hb) as (i & Hi & Hc).
  destruct (holds_waveguide_ops self wg ops w Hh) as (j & Hj & Hw).
  assert (i = j) as -> by congruence. rewrite Hc, Hw. reflexivity.
Qed.

Lemma builds_after_filepath self c w :
  builds self (trace (after_filepath c w)) = builds self (trace w).
Proof.
  unfold after_filepath. destruct (cache_path c); [|reflexivity].
  destruct (cache_enabled c); [|reflexivity].
  cbn [exec mkdir snd trace]. apply builds_snoc_other. discriminate.
Qed.

Lemma builds_build self : builds self [EvBuild self] = 1%nat.
Proof. unfold builds. cbn [List.filter is_build]. rewrite Nat.eqb_refl. reflexivity. Qed.

(** C8 as the code has it: the simulation object of an instance is
    constructed at most once, and a construction is counted exactly when
    one is stored. When the construction succeeds, every access to
    [waveguide], at any time, returns that one object: the access
    constructs it if none is stored and changes nothing otherwise, and
    [index], [plot_grid] and [overlap] obtain it the same way. [_data]
    constructs it when it computes the mode data; when it loads the data
    from the cache file, it and the accessors built on it construct
    nothing. *)
Theorem waveguide_built_at_most_once (w0 : World) (self : nat) (i0 : Instance)
    (ops : list op) :
  heap w0 !! self = Some i0 ->
  _waveguide i0 = None ->
  builds self (trace w0) = 0%nat ->
  let w := run_ops ops w0 in
  (builds self (trace w) <= 1)%nat
  /\ (exists i, heap w !! self = Some i
                /\ (builds self (trace w) = 0%nat <-> _waveguide i = None))
  /\ (forall wg,
        build_waveguide (config i0) = Ok wg ->
        exists w1,
          waveguide self w = (Ok wg, w1)
          /\ trace w1 = trace w ++ (if decide (builds self (trace w) = 0%nat)
                                    then [EvBuild self] else [])
          /\ builds self (trace w1) = 1%nat
          /\ (forall ops',
                waveguide self (run_ops ops' w1) = (Ok wg, run_ops ops' w1))
          /\ builds self (trace (exec (index self) w)) = 1%nat
          /\ builds self (trace (exec (plot_grid self) w)) = 1%nat
          /\ (forall other conjugate,
                builds self (trace (exec (overlap self other conjugate) w)) = 1%nat))
  /\ (forall fp wg d,
        _cached_data i0 = None ->
        filepath_of (config i0) = Ok fp ->
        match fp with
        | Some f => files w0 !! f = None \/ overwrite (config i0) = true
        | None => True
        end ->
        build_waveguide (config i0) = Ok wg ->
        computed_data (config i0) (mode_solver wg) = Ok d ->
        forall k, builds self (trace (exec (data_item self k) w0)) = 1%nat)
  /\ (forall f d0,
        _cached_data i0 = None ->
        filepath_of (config i0) = Ok (Some f) ->
        files w0 !! f = Some d0 ->
        overwrite (config i0) = false ->
        forall k,
          builds self (trace (exec (data_item self k) w0)) = 0%nat
          /\ exists i, heap (exec (data_item self k) w0) !! self = Some i
                       /\ _waveguide i = None).
Proof.
  intros Hi Hnone Hb. cbv zeta.
  assert (Hinv : built_when_stored self (run_ops ops w0)).
  { apply built_when_stored_ops. exists i0. rewrite Hnone. auto. }
  pose proof Hinv as (i & Hli & Hcount).
  assert (Hitem : forall (k : string) (w' w1 : World) (d : npz),
            _data self w' = (Ok d, w1) -> exec (data_item self k) w' = w1).
  { intros k w' w1 d Hrun. unfold exec, data_item.
    rewrite (bind_run _ _ _ _ _ Hrun). reflexivity. }
  split; [|split; [|split; [|split]]].
  - rewrite Hcount. destruct (_waveguide i); lia.
  - exists i. split; [exact Hli|].
    rewrite Hcount. destruct (_waveguide i); split; congruence.
  - intros wg Hbuild.
    destruct (stores_only_ops self (config i0) wg ops w0 Hbuild)
      as (i' & Hli' & Hc & Hs).
    { exists i0. split; [exact Hi|]. split; [reflexivity|]. congruence. }
    assert (i' = i) as -> by congruence.
    assert (Hwg : the_waveguide i = Ok wg).
    { unfold the_waveguide. destruct (_waveguide i) as [wg'|] eqn:Hst.
      - rewrite (Hs wg' eq_refl). reflexivity.
      - rewrite Hc. exact Hbuild. }
    set (w := run_ops ops w0) in *.
    set (w1 := built self i wg w).
    assert (Hrun : waveguide self w = (Ok wg, w1)).
    { rewrite (waveguide_run _ _ _ Hli), Hwg. reflexivity. }
    assert (Hheld : holds_waveguide self wg w1).
    { eexists. split; [apply (built_lookup _ _ _ _ Hli Hwg) | reflexivity]. }
    assert (Hinv1 : built_when_stored self w1).
    { replace w1 with (run_ops [OpWaveguide self] w).
      - apply built_when_stored_ops, Hinv.
      - cbn. unfold exec. rewrite Hrun. reflexivity. }
    assert (Hrun1 : waveguide self w1 = (Ok wg, w1)).
    { destruct Hheld as (j & Hj & Hjw).
      rewrite (waveguide_run _ _ _ Hj). unfold the_waveguide, built. rewrite Hjw.
      reflexivity. }
    exists w1. split; [exact Hrun|]. split; [|split; [|split; [|split; [|split]]]].
    + unfold w1. rewrite built_trace. unfold build_events. rewrite Hcount.
      destruct (_waveguide i); reflexivity.
    + apply (built_stays self wg w1 [] Hinv1 Hheld).
    + intros ops'.
      destruct (holds_waveguide_ops self wg ops' w1 Hheld) as (j & Hj & Hjw).
      rewrite (waveguide_run _ _ _ Hj). unfold the_waveguide, built. rewrite Hjw.
      reflexivity.
    + replace (exec (index self) w) with (run_ops [OpIndex self] w1).
      * apply (built_stays self wg w1 _ Hinv1 Hheld).
      * cbn. unfold exec, index.
        rewrite (bind_run _ _ _ _ _ Hrun), (bind_run _ _ _ _ _ Hrun1). reflexivity.
    + replace (exec (plot_grid self) w) with (run_ops [OpPlotGrid self] w1).
      * apply (built_stays self wg w1 _ Hinv1 Hheld).
      * cbn. unfold exec, plot_grid.
        rewrite (bind_run _ _ _ _ _ Hrun), (bind_run _ _ _ _ _ Hrun1). reflexivity.
    + intros other conjugate.
      replace (exec (overlap self other conjugate) w)
        with (run_ops [OpOverlap self other conjugate] w1).
      * apply (built_stays self wg w1 _ Hinv1 Hheld).
      * cbn. unfold exec, overlap.
        rewrite (bind_run _ _ _ _ _ Hrun), (bind_run _ _ _ _ _ Hrun1). reflexivity.
  - intros fp wg d Hc Hf Hmiss Hbuild Hd k.
    assert (Hwg : the_waveguide i0 = Ok wg).
    { unfold the_waveguide. rewrite Hnone. exact Hbuild. }
    rewrite (Hitem k _ _ _ (data_miss_run self w0 i0 fp wg d Hi Hc Hf Hmiss Hwg Hd)).
    unfold computed. cbv zeta.
    assert (Hcore : builds self
              (trace (emit [EvSolve self] (built self i0 wg (after_filepath (config i0) w0))))
            = 1%nat).
    { cbn [trace emit]. rewrite built_trace. unfold build_events. rewrite Hnone.
      rewrite !builds_app, builds_after_filepath, Hb, builds_build.
      rewrite builds_other by discriminate. reflexivity. }
    destruct fp as [f|]; cbn [trace saved store]; [|exact Hcore].
    rewrite builds_snoc_other by discriminate. exact Hcore.
  - intros f d0 Hc Hf Hfile Hov k.
    rewrite (Hitem k _ _ _ (data_hit_run self w0 i0 f d0 Hi Hc Hf Hfile Hov)).
    unfold loaded. split.
    + cbn [trace store emit]. rewrite builds_snoc_other by discriminate.
      rewrite builds_after_filepath. exact Hb.
    + eexists. split; [apply store_lookup | exact Hnone].
Qed.
End Effects.

(** ** Arrays [plot_field] cannot draw *)

Section Ranks.
Context {A : Type}.

(** Induction on nested arrays. *)
Lemma ndarray_nested_ind (P : ndarray A -> Prop) :
  (forall x, P (El x)) ->
  (forall items, Forall P items -> P (Nd items)) ->
  forall a, P a.
Proof.
  intros HEl HNd. fix IH 1. intros [x|items]; [apply HEl|].
  apply HNd. induction items as [|y items IHitems]; constructor; [apply IH | exact IHitems].
Qed.

Lemma map_nd_squeeze {B} (f : A -> B) (a : ndarray A) :
  Np.map_nd f (Np.squeeze a) = Np.squeeze (Np.map_nd f a).
Proof.
  induction a as [x|items IH] using ndarray_nested_ind; [reflexivity|].
  destruct items as [|x [|y items]].
  - reflexivity.
  - apply Forall_cons_1 in IH as [IHx _]. exact IHx.
  - change (Np.squeeze (Nd (x :: y :: items)))
      with (Nd (map Np.squeeze (x :: y :: items))).
    change (Np.squeeze (Np.map_nd f (Nd (x :: y :: items))))
      with (Nd (map Np.squeeze (map (Np.map_nd f) (x :: y :: items)))).
    cbn [Np.map_nd]. f_equal. rewrite !map_map.
    apply Forall_map_ext_1 || idtac.
    induction IH as [|z l Hz _ IHl]; [reflexivity|].
    cbn [map]. rewrite Hz, IHl. reflexivity.
Qed.

Lemma low_rank_map_nd {B} (f : A -> B) (a : ndarray A) :
  low_rank a -> low_rank (Np.map_nd f a).
Proof.
  intros [[z ->]|[l ->]]; [left; eexists; reflexivity|].
  right. exists (map f l). apply map_nd_of_row.
Qed.

Lemma index_last_row (i : Z) (l : list A) (b : ndarray A) :
  Np.index_last i (Np.of_row l) = Ok b -> exists z, b = El z.
Proof.
  unfold Np.of_row. cbn [Np.index_last]. rewrite last_axis_of_row.
  destruct (Np.py_index _ i) as [k|]; cbn [result_bind]; [|discriminate].
  rewrite nth_error_map. destruct (nth_error l k) as [z|]; cbn; [|discriminate].
  intros [= <-]. eauto.
Qed.

(** Indexing the last axis of an array of rank 0 or 1 fails or leaves a
    scalar. *)
Lemma low_rank_index_last (i : Z) (a b : ndarray A) :
  low_rank a -> Np.index_last i a = Ok b -> exists z, b = El z.
Proof.
  intros [[z ->]|[l ->]]; [discriminate | apply index_last_row].
Qed.

(** Indexing the last axis of a rank-2 array leaves a rank-1 array. *)
Lemma index_last_rows (i : Z) (N : list (list A)) (l : list (ndarray A)) :
  result_mapM (Np.index_last i) (map Np.of_row N) = Ok l ->
  exists col, l = map El col.
Proof.
  revert l. induction N as [|r N IH]; intros l; cbn [map result_mapM].
  - intros [= <-]. exists []. reflexivity.
  - destruct (Np.index_last i (Np.of_row r)) as [b|] eqn:Hb; [|discriminate].
    cbn [result_bind].
    destruct (result_mapM (Np.index_last i) (map Np.of_row N)) as [l'|]; [|discriminate].
    cbn [result_bind]. intros [= <-].
    destruct (index_last_row _ _ _ Hb) as [z ->].
    destruct (IH l' eq_refl) as [col ->]. exists (z :: col). reflexivity.
Qed.

Lemma py_index_zero (i : Z) : Np.py_index 0 i = Raise IndexError.
Proof.
  unfold Np.py_index.
  destruct ((0 <=? i) && (i <? Z.of_nat 0)) eqn:H1.
  { apply andb_true_iff in H1 as [H1 H2].
    apply Z.leb_le in H1. apply Z.ltb_lt in H2. cbn in H2. lia. }
  destruct ((i <? 0) && (- Z.of_nat 0 <=? i)) eqn:H2; [|reflexivity].
  apply andb_true_iff in H2 as [H2 H3].
  apply Z.ltb_lt in H2. apply Z.leb_le in H3. cbn in H3. lia.
Qed.

Lemma index_last_empty (i : Z) : Np.index_last i (@Nd A []) = Raise IndexError.
Proof. cbn [Np.index_last Np.last_axis length]. rewrite py_index_zero. reflexivity. Qed.

Lemma index_last_matrix (i : Z) (N : list (list A)) (b : ndarray A) :
  Np.index_last i (Np.of_matrix N) = Ok b -> low_rank b.
Proof.
  destruct N as [|r N].
  - change (Np.of_matrix []) with (@Nd A []). rewrite index_last_empty. discriminate.
  - unfold Np.of_matrix. cbn [map Np.index_last Np.last_axis Np.of_row].
    change (Nd (map El r) :: map (fun l => Nd (map El l)) N)
      with (map Np.of_row (r :: N)).
    destruct (result_mapM _ _) as [l|] eqn:Hl; [|discriminate].
    cbn [result_bind]. intros [= <-].
    destruct (index_last_rows i (r :: N) l Hl) as [col ->].
    right. exists col. reflexivity.
Qed.

(** A matrix of one row or of rows of one entry squeezes to rank 0 or 1. *)
Lemma squeeze_matrix (N : list (list A)) (nm : nat) :
  Forall (fun r => length r = nm) N ->
  low_rank (Np.squeeze (Np.of_matrix N))
  \/ ((2 <= length N)%nat /\ nm <> 1%nat
      /\ Np.squeeze (Np.of_matrix N) = Np.of_matrix N).
Proof.
  intros Hrows. destruct N as [|r [|r' N]].
  - left. right. exists []. reflexivity.
  - left. change (Np.squeeze (Np.of_matrix [r])) with (Np.squeeze (Np.of_row r)).
    destruct r as [|z [|z' r]].
    + right. exists []. reflexivity.
    + left. exists z. reflexivity.
    + right. exists (z :: z' :: r). apply squeeze_of_row. cbn. lia.
  - destruct (decide (nm = 1%nat)) as [->|Hnm].
    + left. right.
      assert (Hcol : exists col, Forall2 (fun r z => r = [z]) (r :: r' :: N) col).
      { clear -Hrows. induction Hrows as [|x l Hx _ [col IH]]; [exists []; constructor|].
        destruct x as [|z [|? ?]]; try discriminate Hx.
        exists (z :: col). constructor; [reflexivity | exact IH]. }
      destruct Hcol as [col Hcol]. exists col.
      apply squeeze_of_column; [cbn; lia | exact Hcol].
    + right. split; [cbn; lia|]. split; [exact Hnm|].
      apply squeeze_of_matrix; [cbn; lia|].
      eapply Forall_impl; [exact Hrows|]. intros x ->. exact Hnm.
Qed.
End Ranks.

Section Unplottable.
Context `{ser : Serializer}.

(** The selection of [plot_field] from an array of rank 0 or 1 fails or
    leaves rank 0 or 1. *)
Lemma selected_low_rank (c : Config) (a : array) (mode_index : Z)
    (wl : option float) (v : ndarray complex) :
  low_rank (as_complex a) -> selected c a mode_index wl = Ok v -> low_rank v.
Proof.
  intros Hlow. unfold selected.
  destruct (1 <? num_modes c).
  - destruct (Np.index_last mode_index (as_complex a)) as [b|] eqn:Hb; [|discriminate].
    cbn [result_bind]. destruct (low_rank_index_last _ _ _ Hlow Hb) as [z ->].
    destruct (1 <? Np.size (wavelength c)).
    + destruct (wavelength_index c wl); cbn [result_bind]; discriminate.
    + intros [= <-]. left. eauto.
  - cbn [result_bind]. destruct (1 <? Np.size (wavelength c)).
    + destruct (wavelength_index c wl) as [k|]; cbn [result_bind]; [|discriminate].
      intros Hk. destruct (low_rank_index_last _ _ _ Hlow Hk) as [z ->].
      left. eauto.
    + intros [= <-]. exact Hlow.
Qed.

(** The selection from a squeezed array with dims (f, mode_index) fails or
    leaves rank 0 or 1: each axis that the squeeze keeps is indexed. *)
Lemma selected_derived (c : Config) (a : array) (N : list (list complex))
    (mode_index : Z) (wl : option float) (v : ndarray complex) :
  as_complex a = Np.squeeze (Np.of_matrix N) ->
  Z.of_nat (length N) = Np.size (wavelength c) ->
  Forall (fun r => Z.of_nat (length r) = num_modes c) N ->
  selected c a mode_index wl = Ok v -> low_rank v.
Proof.
  intros Ha Hnf Hnm.
  destruct (squeeze_matrix N (Z.to_nat (num_modes c))) as [Hlow|(Hlen & Hone & Hsq)].
  { eapply Forall_impl; [exact Hnm|]. intros r Hr. cbn in Hr. lia. }
  { apply selected_low_rank. rewrite Ha. exact Hlow. }
  unfold selected. rewrite Ha, Hsq.
  replace (1 <? Np.size (wavelength c)) with true
    by (symmetry; apply Z.ltb_lt; lia).
  destruct (1 <? num_modes c) eqn:Hmodes.
  - destruct (Np.index_last mode_index (Np.of_matrix N)) as [b|] eqn:Hb; [|discriminate].
    cbn [result_bind]. pose proof (index_last_matrix _ _ _ Hb) as Hlow.
    destruct (wavelength_index c wl) as [k|]; cbn [result_bind]; [|discriminate].
    intros Hk. destruct (low_rank_index_last _ _ _ Hlow Hk) as [z ->]. left. eauto.
  - cbn [result_bind].
    destruct (wavelength_index c wl) as [k|]; cbn [result_bind]; [|discriminate].
    intros Hk. exfalso.
    (* the rows are empty: there is no last axis to index *)
    apply Z.ltb_ge in Hmodes.
    destruct N as [|r N]; [cbn in Hlen; lia|].
    apply Forall_cons_1 in Hnm as [Hr _].
    assert (r = []) as ->.
    { destruct r as [|z [|z' r]]; [reflexivity | | cbn in Hr; lia].
      exfalso. apply Hone. cbn in Hr. lia. }
    change (Np.of_matrix ([] :: N)) with (Nd (@Nd complex [] :: map Np.of_row N)) in Hk.
    cbn [Np.index_last Np.last_axis result_mapM length] in Hk.
    rewrite py_index_zero in Hk. discriminate Hk.
Qed.

Lemma select_value_low_rank (value : string) (data : ndarray complex)
    (v : ndarray float) :
  low_rank data -> select_value value data = Ok v -> low_rank v.
Proof.
  intros Hlow. unfold select_value.
  repeat match goal with
         | |- context [String.eqb value ?s] => destruct (String.eqb value s)
         end;
    try discriminate;
    try (intros [= <-]; apply low_rank_map_nd, Hlow).
  destruct (np_max _) as [m|]; cbn [result_bind]; [|discriminate].
  intros [= <-]. apply low_rank_map_nd, low_rank_map_nd, Hlow.
Qed.

(** With a rank-1 coordinate [y], the constructor accepts values of rank 2
    only. *)
Lemma DataArray_low_rank (v : ndarray float) (ly : list float) (x : array) :
  low_rank v -> exists e, DataArray (Np.T v) (ArrF (Np.of_row ly)) x = Raise e.
Proof.
  intros Hlow.
  assert (Hdims : match Np.shape (Np.T v) with
                  | [ny; nx] => [("y"%string, ny); ("x"%string, nx)]
                  | _ => []
                  end = []).
  { destruct Hlow as [[z ->]|[l ->]]; [reflexivity|].
    rewrite T_of_row. destruct l; reflexivity. }
  unfold DataArray. rewrite Hdims.
  destruct (_ || _); [eauto|].
  unfold check_coord at 1. cbn [array_shape assoc].
  destruct ly; cbn; eauto.
Qed.
End Unplottable.

(** ** Validation in [plot_field] *)

Section PlotField.
Context `{ser : Serializer}.

Lemma data_keeps_config (self : nat) (w : World) (i : Instance) :
  heap w !! self = Some i ->
  exists i', heap (exec (_data self) w) !! self = Some i' /\ config i' = config i.
Proof.
  intros Hi. apply (has_config_ops self (config i) [OpData self] w).
  exists i. auto.
Qed.

End PlotField.

(** * Further properties of the code *)

(** ** Operations by the methods they are made of *)

Section MethodPreservation.
Context `{ser : Serializer}.
Variable P : World -> Prop.
Variable Q : nat -> Prop.

(** What [P] must survive, for the objects [Q] selects: events other than
    constructions, and the three stateful properties as a whole. *)
Hypothesis Q_log : forall e, (forall s, e <> EvBuild s) -> preserves P (log e).
Hypothesis Q_filepath : forall self, Q self -> preserves P (filepath self).
Hypothesis Q_waveguide : forall self, Q self -> preserves P (waveguide self).
Hypothesis Q_data : forall self, Q self -> preserves P (_data self).
Hypothesis Q_new : forall v rest, preserves P (new_waveguide v rest).

Create HintDb mpres discriminated.
#[local] Hint Resolve pres_ret pres_raise pres_lift pres_get_instance Q_new : mpres.
#[local] Hint Extern 1 (preserves _ (bind _ _)) => apply pres_bind; [|intros ?] : mpres.
#[local] Hint Extern 1 (preserves _ (log _)) => apply Q_log; discriminate : mpres.
#[local] Hint Extern 1 (preserves _ (filepath _)) => apply Q_filepath; assumption : mpres.
#[local] Hint Extern 1 (preserves _ (waveguide _)) => apply Q_waveguide; assumption : mpres.
#[local] Hint Extern 1 (preserves _ (_data _)) => apply Q_data; assumption : mpres.
#[local] Hint Extern 2 (preserves _ (match ?x with _ => _ end)) => destruct x : mpres.

Lemma method_xarray_plot self v : preserves P (xarray_plot self v).
Proof.
  unfold xarray_plot. cbv zeta.
  destruct (existsb _ _); [apply pres_raise|].
  destruct (Np.shape _) as [|? [|? [|? ?]]]; auto 20 with mpres.
Qed.

#[local] Hint Resolve method_xarray_plot : mpres.

Lemma run_op_method_preserves (o : op) (w : World) :
  Forall Q (targets o) -> P w -> P (run_op o w).
Proof.
  intros Ht. revert w.
  destruct o; cbn [run_op targets] in *;
    repeat match goal with
           | H : Forall _ (_ :: _) |- _ => apply Forall_cons_1 in H as [? H]
           end;
    match goal with |- forall w, _ -> P (exec ?m w) => change (preserves P m) end;
    unfold loss_dB_per_cm, overlap, plot_grid, _ipython_display_, __str__, __repr__,
      plot_field, plot_index, index, mode_solver_data,
      fraction_te, fraction_tm, n_eff, mode_area, n_group, data_item;
    auto 40 with mpres.
Qed.

Lemma run_ops_method_preserves (ops : list op) (w : World) :
  Forall (fun o => Forall Q (targets o)) ops -> P w -> P (run_ops ops w).
Proof.
  unfold run_ops. intros Hops. revert w.
  induction Hops as [|o ops Ho _ IH]; intros w Hw; [exact Hw|].
  simpl. apply IH, run_op_method_preserves; assumption.
Qed.
End MethodPreservation.

(** ** Objects do not share state *)

Section Frame.
Context `{ser : Serializer}.
Variables (self : nat) (i : Instance).

Lemma frame_mkdir dir : preserves (is_instance self i) (mkdir dir).
Proof. intros w Hw. exact Hw. Qed.

Lemma frame_log e : preserves (is_instance self i) (log e).
Proof. intros w Hw. exact Hw. Qed.

Lemma frame_np_load f : preserves (is_instance self i) (np_load f).
Proof. intros w Hw. unfold exec, np_load. destruct (files w !! f); exact Hw. Qed.

Lemma frame_np_savez f d : preserves (is_instance self i) (np_savez f d).
Proof. intros w Hw. exact Hw. Qed.

Lemma frame_new v rest : preserves (is_instance self i) (new_waveguide v rest).
Proof. intros w Hw. apply new_waveguide_other, Hw. Qed.

Lemma frame_filepath s : preserves (is_instance self i) (filepath s).
Proof.
  intros w Hw. unfold is_instance, exec.
  destruct (heap w !! s) as [j|] eqn:Hj.
  - rewrite (filepath_result s w j Hj). cbn [snd]. rewrite after_filepath_heap. exact Hw.
  - unfold filepath, bind, get_instance. rewrite Hj. exact Hw.
Qed.

Section Other.
Variable s : nat.
Hypothesis Hs : s <> self.

Lemma frame_set_cached_data d : preserves (is_instance self i) (set_cached_data s d).
Proof.
  intros w Hw. unfold is_instance. rewrite set_cached_data_effect.
  destruct (heap w !! s); [|exact Hw].
  unfold store. cbn [heap]. rewrite lookup_insert_ne by exact Hs. exact Hw.
Qed.

Lemma frame_cached_setitem k v : preserves (is_instance self i) (cached_setitem s k v).
Proof.
  intros w Hw. unfold is_instance. rewrite cached_setitem_effect.
  destruct (heap w !! s) as [j|]; [|exact Hw].
  destruct (_cached_data j); [|exact Hw].
  unfold store. cbn [heap]. rewrite lookup_insert_ne by exact Hs. exact Hw.
Qed.

Lemma frame_waveguide : preserves (is_instance self i) (waveguide s).
Proof.
  intros w Hw. unfold is_instance. rewrite waveguide_effect.
  destruct (heap w !! s) as [j|]; [|exact Hw].
  destruct (the_waveguide j); [|exact Hw].
  unfold built. destruct (_waveguide j); [exact Hw|].
  unfold store. cbn [heap emit]. rewrite lookup_insert_ne by exact Hs. exact Hw.
Qed.

Lemma frame_data : preserves (is_instance self i) (_data s).
Proof.
  unfold _data, _data_compute, mode_solver_data.
  repeat first
    [ apply pres_ret | apply pres_raise | apply pres_lift | apply pres_get_instance
    | apply pres_get_cached_data | apply pres_path_exists
    | apply frame_filepath | apply frame_waveguide | apply frame_set_cached_data
    | apply frame_cached_setitem | apply frame_np_load | apply frame_np_savez
    | apply frame_log
    | apply pres_bind; [|intros ?]
    | match goal with
      | |- preserves _ (match ?x with _ => _ end) => destruct x
      end ].
Qed.
End Other.

End Frame.

Section Independence.
Context `{ser : Serializer}.

(** X1: operations called on other objects (and the creation of objects)
    leave an object exactly as it is: its fields and both private
    attributes. *)
Theorem instances_are_independent (w : World) (self : nat) (i : Instance)
    (ops : list op) :
  heap w !! self = Some i ->
  Forall (fun o => Forall (fun s => s <> self) (targets o)) ops ->
  heap (run_ops ops w) !! self = Some i.
Proof.
  intros Hi Hops.
  apply (run_ops_method_preserves (is_instance self i) (fun s => s <> self));
    [ intros; apply frame_log
    | intros; apply frame_filepath
    | intros; apply frame_waveguide; assumption
    | intros; apply frame_data; assumption
    | intros; apply frame_new
    | exact Hops
    | exact Hi ].
Qed.

(** A property of one object's attributes survives what leaves the object
    alone. *)
Lemma holds_data_frame {A} (m : M A) self d :
  (forall i, preserves (is_instance self i) m) -> preserves (holds_data self d) m.
Proof.
  intros Hm w (i & Hi & Hd). exists i. split; [apply (Hm i w Hi) | exact Hd].
Qed.

Lemma holds_data_ops self d ops w :
  holds_data self d w -> holds_data self d (run_ops ops w).
Proof.
  apply (run_ops_method_preserves (holds_data self d) (fun _ => True)).
  - intros e _. apply holds_data_frame. intros i. apply frame_log.
  - intros s _. apply holds_data_frame. intros i. apply frame_filepath.
  - intros s _. destruct (decide (s = self)) as [->|Hne].
    + intros w0 (i & Hi & Hd). rewrite waveguide_effect, Hi.
      destruct (the_waveguide i) as [wg|] eqn:Hwg; [|exists i; auto].
      eexists. split; [apply (built_lookup self i wg w0 Hi Hwg) | exact Hd].
    + apply holds_data_frame. intros i. apply frame_waveguide, Hne.
  - intros s _. destruct (decide (s = self)) as [->|Hne].
    + intros w0 (i & Hi & Hd). unfold exec.
      rewrite (data_cached_run self w0 i d Hi Hd). exists i. auto.
    + apply holds_data_frame. intros i. apply frame_data, Hne.
  - intros v rest. apply holds_data_frame. intros i. apply frame_new.
  - apply Forall_forall. intros o _. apply Forall_forall. auto.
Qed.

(** The mapping a successful access to [_data] returns is the one stored. *)
Lemma data_returns_stored self w d w1 :
  _data self w = (Ok d, w1) -> holds_data self d w1.
Proof.
  unfold _data. intros Hrun.
  assert (Hget : forall {A} (m : M A) w0,
             bind m (fun _ => get_cached_data self) w0 = (Ok d, w1) ->
             holds_data self d w1).
  { intros A m w0. unfold bind.
    destruct (m w0) as [[a|e] w2]; [|discriminate].
    unfold get_cached_data, bind, get_instance.
    destruct (heap w2 !! self) as [j|] eqn:Hj; [|discriminate].
    destruct (_cached_data j) as [d'|] eqn:Hd'; [|discriminate].
    intros [= <- <-]. exists j. auto. }
  unfold bind at 1 in Hrun. unfold get_instance in Hrun.
  destruct (heap w !! self) as [i|] eqn:Hi; [|discriminate].
  destruct (_cached_data i) as [d0|] eqn:Hd0.
  { injection Hrun as <- <-. exists i. auto. }
  unfold bind at 1 in Hrun.
  destruct (filepath self w) as [[fp|e] w2]; [|discriminate].
  unfold bind at 1 in Hrun.
  destruct fp as [f|].
  - destruct (bind (path_exists f) _ w2) as [[[|]|e] w3]; [| |discriminate].
    + unfold bind at 1 in Hrun.
      destruct (np_load f w3) as [[d1|e] w4]; [|discriminate].
      apply (Hget _ _ _ Hrun).
    + apply (Hget _ _ _ Hrun).
  - cbn [ret] in Hrun. apply (Hget _ _ _ Hrun).
Qed.

(** X2: once [_data] has returned a mapping, every later access on the
    instance returns that mapping and changes nothing, whatever operations
    ran in between on any object. *)
Theorem data_memoized (w w1 : World) (self : nat) (d : npz) (ops : list op) :
  _data self w = (Ok d, w1) ->
  _data self (run_ops ops w1) = (Ok d, run_ops ops w1).
Proof.
  intros Hrun.
  destruct (holds_data_ops self d ops w1 (data_returns_stored _ _ _ _ Hrun))
    as (i & Hi & Hd).
  apply (data_cached_run self _ i d Hi Hd).
Qed.
End Independence.

(** ** The file system is touched only through an enabled cache *)

Section Offline.
Context `{ser : Serializer}.
Variables (self : nat) (F : gmap string npz) (D : gset string).

Lemma offline_store j w :
  offline self F D w ->
  (forall i, heap w !! self = Some i -> config j = config i) ->
  offline self F D (store self j w).
Proof.
  intros (HF & HD & i & Hi & Hoff) Hj. split; [exact HF|]. split; [exact HD|].
  exists j. split; [apply store_lookup|]. rewrite (Hj i Hi). exact Hoff.
Qed.

Lemma offline_log e : preserves (offline self F D) (log e).
Proof. intros w Hw. exact Hw. Qed.

Lemma offline_set_cached_data d : preserves (offline self F D) (set_cached_data self d).
Proof.
  intros w Hw. rewrite set_cached_data_effect.
  destruct (heap w !! self) as [j|] eqn:Hj; [|exact Hw].
  apply offline_store; [exact Hw|]. intros i Hi. cbn. congruence.
Qed.

Lemma offline_cached_setitem k v : preserves (offline self F D) (cached_setitem self k v).
Proof.
  intros w Hw. rewrite cached_setitem_effect.
  destruct (heap w !! self) as [j|] eqn:Hj; [|exact Hw].
  destruct (_cached_data j); [|exact Hw].
  apply offline_store; [exact Hw|]. intros i Hi. cbn. congruence.
Qed.

Lemma offline_waveguide : preserves (offline self F D) (waveguide self).
Proof.
  intros w Hw. rewrite waveguide_effect.
  destruct (heap w !! self) as [j|] eqn:Hj; [|exact Hw].
  destruct (the_waveguide j); [|exact Hw].
  unfold built. destruct (_waveguide j); [exact Hw|].
  apply offline_store; [exact Hw|]. intros i Hi. cbn in *. congruence.
Qed.

Lemma offline_filepath : preserves (offline self F D) (filepath self).
Proof.
  intros w Hw. pose proof Hw as (_ & _ & i & Hi & Hoff). unfold exec.
  rewrite (filepath_result self w i Hi). cbn [snd].
  rewrite (after_filepath_disabled _ _ Hoff). exact Hw.
Qed.

Lemma offline_data_compute c : preserves (offline self F D) (_data_compute self c None).
Proof.
  unfold _data_compute, mode_solver_data.
  repeat first
    [ apply pres_ret | apply pres_lift | apply pres_get_cached_data
    | apply offline_waveguide | apply offline_set_cached_data
    | apply offline_cached_setitem | apply offline_log
    | apply pres_bind; [|intros ?]
    | match goal with
      | |- preserves _ (match ?x with _ => _ end) => destruct x
      end ].
Qed.

Lemma offline_data : preserves (offline self F D) (_data self).
Proof.
  intros w Hw. pose proof Hw as (_ & _ & i & Hi & Hoff).
  unfold exec, _data.
  rewrite (bind_run _ _ _ _ _ (get_instance_run _ _ _ Hi)).
  destruct (_cached_data i); [exact Hw|].
  erewrite bind_run.
  2:{ rewrite (filepath_result self w i Hi), (filepath_of_disabled _ Hoff),
        (after_filepath_disabled _ _ Hoff). reflexivity. }
  rewrite (bind_run _ _ w w false) by reflexivity.
  apply (pres_bind (offline self F D)); [apply offline_data_compute | | exact Hw].
  intros _. apply pres_get_cached_data.
Qed.

Lemma offline_new v rest : preserves (offline self F D) (new_waveguide v rest).
Proof.
  intros w (HF & HD & i & Hi & Hoff). split; [exact HF|]. split; [exact HD|].
  exists i. split; [apply new_waveguide_other, Hi | exact Hoff].
Qed.
End Offline.

Section OfflineTheorem.
Context `{ser : Serializer}.

(** X3: an instance whose [cache_path] is [None] or empty never touches the
    file system: whatever of its operations run, returning or raising, no
    file and no directory appears, changes or disappears. *)
Theorem disabled_cache_never_touches_files (w : World) (self : nat) (i : Instance)
    (ops : list op) :
  heap w !! self = Some i ->
  cache_enabled (config i) = false ->
  Forall (fun o => Forall (fun s => s = self) (targets o)) ops ->
  files (run_ops ops w) = files w /\ dirs (run_ops ops w) = dirs w.
Proof.
  intros Hi Hoff Hops.
  assert (Hfinal : offline self (files w) (dirs w) (run_ops ops w)).
  { apply (run_ops_method_preserves (offline self (files w) (dirs w))
             (fun s => s = self)).
    - intros e _. apply offline_log.
    - intros s ->. apply offline_filepath.
    - intros s ->. apply offline_waveguide.
    - intros s ->. apply offline_data.
    - intros v rest. apply offline_new.
    - exact Hops.
    - split; [reflexivity|]. split; [reflexivity|]. exists i. auto. }
  destruct Hfinal as (HF & HD & _). auto.
Qed.
End OfflineTheorem.

(** ** What needs no mode data *)

Section Geometry.
Context `{ser : Serializer}.

Lemma data_state_store self i j w :
  heap w !! self = Some i -> _cached_data j = _cached_data i ->
  data_state (store self j w) = data_state w.
Proof.
  intros Hi Hj. unfold data_state, store. cbn [files trace heap]. f_equal.
  apply map_eq. intros k. rewrite !lookup_omap.
  destruct (decide (k = self)) as [->|Hne].
  - rewrite lookup_insert_eq, Hi. cbn. exact Hj.
  - rewrite lookup_insert_ne by congruence. reflexivity.
Qed.

Lemma data_state_emit e w :
  is_cache_event e = false -> data_state (emit [e] w) = data_state w.
Proof.
  intros He. unfold data_state, emit. cbn [files trace heap].
  rewrite List.filter_app. cbn [List.filter]. rewrite He, app_nil_r. reflexivity.
Qed.

Variable S : gmap string npz * list event * gmap nat npz.

Lemma geometry_log e :
  is_cache_event e = false -> preserves (fun w => data_state w = S) (log e).
Proof.
  intros He w Hw. unfold exec. rewrite log_run. cbn [snd].
  rewrite data_state_emit; assumption.
Qed.

Lemma geometry_waveguide self : preserves (fun w => data_state w = S) (waveguide self).
Proof.
  intros w Hw. rewrite waveguide_effect.
  destruct (heap w !! self) as [i|] eqn:Hi; [|exact Hw].
  destruct (the_waveguide i); [|exact Hw].
  unfold built. destruct (_waveguide i); [exact Hw|].
  rewrite (data_state_store self i); [| exact Hi | reflexivity].
  rewrite data_state_emit; [exact Hw | reflexivity].
Qed.

Lemma geometry_filepath self : preserves (fun w => data_state w = S) (filepath self).
Proof.
  intros w Hw. unfold exec, filepath, bind, get_instance.
  destruct (heap w !! self) as [i|]; [|exact Hw].
  destruct (cache_path (config i)); [|exact Hw].
  destruct (negb (cache_enabled (config i))); [exact Hw|].
  change (mkdir (Path p) w) with (Ok tt, exec (mkdir (Path p)) w).
  assert (Hm : data_state (exec (mkdir (Path p)) w) = S).
  { rewrite <- Hw. unfold data_state, exec, mkdir. cbn [snd files trace heap].
    rewrite List.filter_app. cbn [List.filter is_cache_event].
    rewrite app_nil_r. reflexivity. }
  cbv beta iota. unfold lift. destruct (settings (config i)); exact Hm.
Qed.

Lemma geometry_new v rest : preserves (fun w => data_state w = S) (new_waveguide v rest).
Proof.
  intros w Hw. rewrite <- Hw. unfold data_state, exec, new_waveguide.
  cbn [snd files trace heap]. f_equal.
  apply map_eq. intros k. rewrite !lookup_omap.
  destruct (decide (k = fresh (dom (heap w)))) as [->|Hne].
  - rewrite lookup_insert_eq. cbn.
    assert (Hnone : heap w !! fresh (dom (heap w)) = None).
    { apply not_elem_of_dom, is_fresh. }
    rewrite Hnone. reflexivity.
  - rewrite lookup_insert_ne by congruence. reflexivity.
Qed.

Lemma geometry_xarray_plot self v :
  preserves (fun w => data_state w = S) (xarray_plot self v).
Proof.
  unfold xarray_plot. cbv zeta.
  destruct (existsb _ _); [apply pres_raise|].
  destruct (Np.shape _) as [|? [|? [|? ?]]];
    repeat first
      [ apply pres_raise | apply geometry_log; reflexivity
      | apply pres_bind; [|intros ?] ].
Qed.

Lemma geometry_op (o : op) :
  needs_no_data o = true -> preserves (fun w => data_state w = S) (fun w => (Ok tt, run_op o w)).
Proof.
  intros Ho.
  assert (Hexec : forall {A} (m : M A),
             preserves (fun w => data_state w = S) m ->
             preserves (fun w => data_state w = S) (fun w => (Ok tt, exec m w))).
  { intros A m Hm w Hw. apply (Hm w Hw). }
  destruct o; try discriminate Ho; cbn [run_op]; apply Hexec;
    unfold _ipython_display_, __str__, __repr__, plot_index, plot_grid, index;
    repeat first
      [ apply pres_ret | apply pres_lift | apply pres_get_instance
      | apply geometry_waveguide | apply geometry_filepath | apply geometry_new
      | apply geometry_xarray_plot
      | apply geometry_log; reflexivity
      | apply pres_bind; [|intros ?] ].
Qed.
End Geometry.

Section GeometryTheorem.
Context `{ser : Serializer}.

(** X4: [filepath], [waveguide], [index], [plot_grid], [plot_index],
    [_ipython_display_], [__repr__], [__str__] and the construction of
    instances never obtain mode data: [mode_solver.data] is not asked for,
    no file is read or written, no result mapping is stored or changed,
    whether they return or raise. *)
Theorem geometry_needs_no_data (w : World) (ops : list op) :
  Forall (fun o => needs_no_data o = true) ops ->
  data_state (run_ops ops w) = data_state w.
Proof.
  unfold run_ops. intros Hops. revert w.
  induction Hops as [|o ops Ho _ IH]; intros w; [reflexivity|].
  cbn [foldl]. rewrite IH.
  apply (geometry_op (data_state w) o Ho w). reflexivity.
Qed.

(** X5: [overlap] goes to the solver directly: it builds the simulation
    object of each operand if that is missing, asks for [mode_solver.data]
    once per operand (twice on one object overlapped with itself), and
    neither reads nor fills a result mapping or a cache file. *)
Theorem overlap_bypasses_cache (w : World) (self other : nat) (i j : Instance)
    (wg wg' : RectangularDielectric medium) (conjugate : bool) :
  heap w !! self = Some i ->
  heap w !! other = Some j ->
  the_waveguide i = Ok wg ->
  the_waveguide j = Ok wg' ->
  exists w',
    overlap self other conjugate w
      = (Ok (Np.squeeze (outer_dot (mode_solver wg) (mode_solver wg') conjugate)), w')
    /\ trace w' = trace w ++ build_events self i ++ [EvSolve self]
                    ++ (if decide (self = other) then [] else build_events other j)
                    ++ [EvSolve other]
    /\ files w' = files w
    /\ dirs w' = dirs w
    /\ omap _cached_data (heap w') = omap _cached_data (heap w).
Proof.
  intros Hi Hj Hwg Hwg'. unfold overlap.
  erewrite bind_run; [| rewrite (waveguide_run self w i Hi), Hwg; reflexivity].
  erewrite bind_run; [| apply mode_solver_data_run].
  set (w1 := emit [EvSolve self] (built self i wg w)).
  assert (Hother : exists j', heap w1 !! other = Some j'
            /\ the_waveguide j' = Ok wg'
            /\ _cached_data j' = _cached_data j
            /\ build_events other j'
               = if decide (self = other) then [] else build_events other j).
  { destruct (decide (self = other)) as [<-|Hne].
    - assert (j = i) as -> by congruence.
      assert (wg' = wg) as -> by congruence.
      eexists. split; [apply (built_lookup self i wg w Hi Hwg)|].
      repeat split.
    - exists j. repeat split; try assumption.
      subst w1. cbn [heap emit]. unfold built.
      destruct (_waveguide i); [exact Hj|].
      unfold store. cbn [heap emit]. rewrite lookup_insert_ne by exact Hne. exact Hj. }
  destruct Hother as (j' & Hj' & Hwgj' & Hcd & Hev).
  erewrite bind_run; [| rewrite (waveguide_run other w1 j' Hj'), Hwgj'; reflexivity].
  erewrite bind_run; [| apply mode_solver_data_run].
  eexists. split; [reflexivity|].
  assert (Hds : forall s k wgk w0, heap w0 !! s = Some k ->
            omap _cached_data (heap (built s k wgk w0)) = omap _cached_data (heap w0)).
  { intros s k wgk w0 Hk. unfold built. destruct (_waveguide k); [reflexivity|].
    pose proof (data_state_store s k
                  {| config := config k; _cached_data := _cached_data k;
                     _waveguide := Some wgk |} (emit [EvBuild s] w0) Hk eq_refl) as Hst.
    apply (f_equal snd) in Hst. exact Hst. }
  split; [|split; [|split]].
  - cbn [trace emit]. rewrite !built_trace. subst w1. cbn [trace emit].
    rewrite built_trace, Hev, <- !app_assoc. reflexivity.
  - cbn [files emit]. rewrite built_files. subst w1. cbn [files emit].
    apply built_files.
  - cbn [dirs emit]. rewrite built_dirs. subst w1. cbn [dirs emit].
    apply built_dirs.
  - cbn [heap emit]. rewrite (Hds other j' wg' w1 Hj'). subst w1. cbn [heap emit].
    apply (Hds self i wg w Hi).
Qed.
End GeometryTheorem.

(** ** Pre- and postconditions *)

Section Hoare.
Context `{ser : Serializer}.

Lemma hoare_ret {A} (Q : A -> World -> Prop) E (a : A) : hoare (Q a) (ret a) Q E.
Proof. intros w Hw. exact Hw. Qed.

Lemma hoare_bind {A B} P (m : M A) (Q : A -> World -> Prop) (k : A -> M B)
    (R : B -> World -> Prop) E :
  hoare P m Q E -> (forall a, hoare (Q a) (k a) R E) -> hoare P (bind m k) R E.
Proof.
  intros Hm Hk w Hw. unfold bind. specialize (Hm w Hw).
  destruct (m w) as [[a|e] w1]; [apply (Hk a w1 Hm) | exact Hm].
Qed.

Lemma hoare_conseq {A} (P P' : World -> Prop) (m : M A) (Q Q' : A -> World -> Prop)
    (E E' : World -> Prop) :
  hoare P' m Q' E' ->
  (forall w, P w -> P' w) -> (forall a w, Q' a w -> Q a w) ->
  (forall w, E' w -> E w) ->
  hoare P m Q E.
Proof.
  intros Hm HP HQ HE w Hw. specialize (Hm w (HP w Hw)).
  destruct (m w) as [[a|e] w1]; auto.
Qed.

(** What a computation preserves holds however it ends. *)
Lemma hoare_preserves {A} (P E : World -> Prop) (m : M A) :
  preserves P m -> (forall w, P w -> E w) -> hoare P m (fun _ => P) E.
Proof.
  intros Hm HE w Hw. specialize (Hm w Hw). unfold exec in Hm.
  destruct (m w) as [[a|e] w1]; cbn [snd] in Hm; auto.
Qed.

Lemma hoare_run {A} P (m : M A) Q E w :
  hoare P m Q E -> P w ->
  match fst (m w) with
  | Ok a => Q a (exec m w)
  | Raise _ => E (exec m w)
  end.
Proof.
  intros Hm Hw. specialize (Hm w Hw). unfold exec.
  destruct (m w) as [[a|e] w1]; exact Hm.
Qed.
End Hoare.

(** ** A failed computation of the mode data *)

Section Failure.
Context `{ser : Serializer}.
Variables (self : nat) (F : gmap string npz).

Lemma unwritten_files {A} (m : M A) :
  (forall w, files (exec m w) = files w) -> preserves (unwritten F) m.
Proof. intros Hm w Hw. unfold unwritten. rewrite Hm. exact Hw. Qed.

Lemma unwritten_log e : preserves (unwritten F) (log e).
Proof. apply unwritten_files. reflexivity. Qed.

Lemma unwritten_waveguide s : preserves (unwritten F) (waveguide s).
Proof.
  apply unwritten_files. intros w. rewrite waveguide_effect.
  destruct (heap w !! s) as [i|]; [|reflexivity].
  destruct (the_waveguide i); [apply built_files | reflexivity].
Qed.

Lemma unwritten_filepath s : preserves (unwritten F) (filepath s).
Proof.
  apply unwritten_files. intros w. unfold exec, filepath, bind, get_instance.
  destruct (heap w !! s) as [i|]; [|reflexivity].
  destruct (cache_path (config i)); [|reflexivity].
  destruct (negb (cache_enabled (config i))); [reflexivity|].
  change (mkdir (Path p) w) with (Ok tt, exec (mkdir (Path p)) w).
  cbv beta iota. unfold lift. destruct (settings (config i)); reflexivity.
Qed.

Lemma unwritten_set_cached_data s d : preserves (unwritten F) (set_cached_data s d).
Proof.
  apply unwritten_files. intros w. rewrite set_cached_data_effect.
  destruct (heap w !! s); reflexivity.
Qed.

Lemma unwritten_cached_setitem s k v : preserves (unwritten F) (cached_setitem s k v).
Proof.
  apply unwritten_files. intros w. rewrite cached_setitem_effect.
  destruct (heap w !! s) as [i|]; [|reflexivity].
  destruct (_cached_data i); reflexivity.
Qed.

Lemma unwritten_np_load f : preserves (unwritten F) (np_load f).
Proof.
  apply unwritten_files. intros w. unfold exec, np_load.
  destruct (files w !! f); reflexivity.
Qed.

(** Once the mapping is assigned it stays assigned. *)
Lemma has_data_set d :
  hoare (unwritten F) (set_cached_data self d)
        (fun _ w => unwritten F w /\ has_data self w) (unwritten F).
Proof.
  intros w Hw. unfold set_cached_data, bind, get_instance, put_instance.
  destruct (heap w !! self) as [i|]; [|exact Hw].
  split; [exact Hw|]. eexists _, d. cbn [heap]. split; [apply lookup_insert_eq | reflexivity].
Qed.

Lemma has_data_setitem k v :
  preserves (fun w => unwritten F w /\ has_data self w) (cached_setitem self k v).
Proof.
  intros w [Hw (i & d & Hi & Hd)]. split; [apply unwritten_cached_setitem, Hw|].
  rewrite cached_setitem_effect, Hi, Hd.
  eexists _, _. split; [apply store_lookup | reflexivity].
Qed.

Lemma has_data_get (P : World -> Prop) E :
  (forall w, P w -> has_data self w) ->
  hoare P (get_cached_data self) (fun _ => P) E.
Proof.
  intros HP w Hw. destruct (HP w Hw) as (i & d & Hi & Hd).
  rewrite (get_cached_data_run self w i d Hi Hd). exact Hw.
Qed.

(** [np.savez] returns, and leaves the objects alone. *)
Lemma has_data_savez P E f d :
  (forall w, P w -> has_data self w) ->
  hoare P (np_savez f d) (fun _ => has_data self) E.
Proof. intros HP w Hw. exact (HP w Hw). Qed.

Ltac keep L := eapply hoare_bind; [apply hoare_preserves; [L | tauto] | intros ?].

Lemma data_compute_hoare c fp :
  hoare (unwritten F) (_data_compute self c fp)
        (fun _ => has_data self) (unwritten F).
Proof.
  unfold _data_compute, mode_solver_data.
  keep ltac:(apply unwritten_waveguide).
  keep ltac:(apply pres_bind; [apply unwritten_log | intros ?; apply pres_ret]).
  keep ltac:(apply pres_lift).
  eapply hoare_bind; [apply has_data_set | intros ?].
  keep ltac:(apply pres_lift).
  do 4 keep ltac:(apply has_data_setitem).
  keep ltac:(apply pres_lift).
  do 2 keep ltac:(apply has_data_setitem).
  eapply hoare_bind with (Q := fun _ w => unwritten F w /\ has_data self w).
  { destruct (md_n_group _).
    - apply hoare_preserves; [apply has_data_setitem | tauto].
    - apply hoare_preserves; [apply pres_ret | tauto]. }
  intros _. destruct fp as [f|].
  - eapply hoare_bind; [apply has_data_get; tauto | intros d].
    apply has_data_savez. tauto.
  - intros w [_ Hw]. exact Hw.
Qed.
End Failure.

Section FailureTheorems.
Context `{ser : Serializer}.

Ltac keep L := eapply hoare_bind; [apply hoare_preserves; [L | tauto] | intros ?].

Lemma data_hoare self F :
  hoare (unwritten F) (_data self) (fun _ _ => True) (unwritten F).
Proof.
  unfold _data.
  eapply hoare_bind;
    [apply hoare_preserves; [apply pres_get_instance | tauto] | intros a].
  destruct (_cached_data a); [intros w Hw; exact I|].
  eapply hoare_bind;
    [apply hoare_preserves; [apply unwritten_filepath | tauto] | intros a0].
  eapply hoare_bind with (Q := fun _ => unwritten F).
  { destruct a0 as [f|].
    - apply hoare_preserves; [|tauto].
      apply pres_bind; [apply pres_path_exists | intros ?; apply pres_ret].
    - apply hoare_preserves; [apply pres_ret | tauto]. }
  intros hit.
  assert (Hcompute :
    hoare (unwritten F)
      (bind (_data_compute self (config a) a0) (fun _ => get_cached_data self))
      (fun _ _ => True) (unwritten F)).
  { eapply hoare_bind; [apply data_compute_hoare | intros u; cbv beta].
    eapply hoare_conseq;
      [apply (has_data_get self (has_data self) (unwritten F)); tauto | | | ];
      cbv beta; eauto. }
  destruct a0 as [f|]; [destruct hit|]; try exact Hcompute.
  keep ltac:(apply unwritten_np_load).
  keep ltac:(apply unwritten_set_cached_data).
  eapply hoare_conseq;
    [apply (hoare_preserves (unwritten F) (unwritten F)); [apply pres_get_cached_data|tauto]
    | | | ]; cbv beta; eauto.
Qed.

(** X6: the cache file is written last: an access to [_data] that raises
    has written no file, at whatever statement before [np.savez] it
    stopped ([np.savez] itself always returns here). *)
Theorem failed_data_writes_no_file (w w' : World) (self : nat) (e : exn) :
  _data self w = (Raise e, w') -> files w' = files w.
Proof.
  intros Hrun. pose proof (data_hoare self (files w) w eq_refl) as Hh.
  rewrite Hrun in Hh. exact Hh.
Qed.

Ltac mstep L := erewrite bind_run; [| L].

Lemma field_entries_keys fields entries :
  field_entries fields = Ok entries -> entries.*1 = component_names.
Proof.
  unfold field_entries, component_names. cbn [result_mapM].
  repeat (destruct (getitem fields _); [cbn [result_bind]|discriminate]).
  intros [= <-]. reflexivity.
Qed.

Lemma data_compute_partial_run self w0 i fp wg entries e :
  heap w0 !! self = Some i -> _cached_data i = None ->
  the_waveguide i = Ok wg ->
  field_entries (md_fields (mode_solver wg)) = Ok entries ->
  polarization_fractions (config i) (md_fields (mode_solver wg)) = Raise e ->
  _data_compute self (config i) fp w0
  = (Raise e,
     store self {| config := config i;
                   _cached_data := Some (partial_data (mode_solver wg) entries);
                   _waveguide := Some wg |}
       (emit [EvSolve self] (built self i wg w0))).
Proof.
  intros Hi Hc Hwg He Hfr.
  destruct (field_entries_Ex _ _ He) as [ex Hex].
  unfold _data_compute.
  mstep ltac:(rewrite (waveguide_run _ _ _ Hi), Hwg; reflexivity).
  pose proof (built_lookup self i wg w0 Hi Hwg) as Hb.
  set (w1 := built self i wg w0) in *.
  mstep ltac:(apply mode_solver_data_run).
  rewrite He. mstep ltac:(reflexivity).
  mstep ltac:(apply set_cached_data_run; exact Hb).
  cbn [config _waveguide _cached_data].
  rewrite Hex. mstep ltac:(reflexivity).
  do 4 (mstep ltac:(eapply cached_setitem_run; [apply store_lookup | reflexivity]);
        rewrite store_store; cbn [config _waveguide _cached_data]).
  rewrite Hfr. reflexivity.
Qed.

Lemma partial_data_lookup md entries k :
  entries.*1 = component_names ->
  ~ In k (component_names ++ ["x"; "y"; "n_eff"; "mode_area"]%string) ->
  partial_data md entries !! k = None.
Proof.
  intros Hk Hnot. unfold partial_data.
  rewrite !lookup_insert_ne.
  - apply not_elem_of_list_to_map_1. rewrite Hk. intros Hin.
    apply Hnot, in_or_app. left. apply list_elem_of_In, Hin.
  - intros <-. apply Hnot, in_or_app. right. cbn. tauto.
  - intros <-. apply Hnot, in_or_app. right. cbn. tauto.
  - intros <-. apply Hnot, in_or_app. right. cbn. tauto.
  - intros <-. apply Hnot, in_or_app. right. cbn. tauto.
Qed.

(** X7: [_data] assigns [_cached_data] before the mapping is complete.
    When the loop over the modes raises, the instance keeps the mapping
    collected so far: the next access to [_data] returns it without
    computing or raising, nothing is ever written to the cache file, and
    [fraction_te] and [fraction_tm] raise [KeyError] from then on. *)
Theorem failed_fractions_leave_partial_data (w : World) (self : nat) (i : Instance)
    (fp : option string) (wg : RectangularDielectric medium)
    (entries : list (string * array)) (e : exn) :
  heap w !! self = Some i ->
  _cached_data i = None ->
  filepath_of (config i) = Ok fp ->
  match fp with
  | Some f => files w !! f = None \/ overwrite (config i) = true
  | None => True
  end ->
  the_waveguide i = Ok wg ->
  field_entries (md_fields (mode_solver wg)) = Ok entries ->
  polarization_fractions (config i) (md_fields (mode_solver wg)) = Raise e ->
  exists w1,
    _data self w = (Raise e, w1)
    /\ files w1 = files w
    /\ (forall ops,
          _data self (run_ops ops w1)
          = (Ok (partial_data (mode_solver wg) entries), run_ops ops w1)
          /\ fst (fraction_te self (run_ops ops w1)) = Raise (KeyError "fraction_te")
          /\ fst (fraction_tm self (run_ops ops w1)) = Raise (KeyError "fraction_tm")).
Proof.
  intros Hi Hc Hf Hmiss Hwg He Hfr.
  set (w0 := after_filepath (config i) w).
  assert (Hi0 : heap w0 !! self = Some i)
    by (unfold w0; rewrite after_filepath_heap; exact Hi).
  set (j := {| config := config i;
               _cached_data := Some (partial_data (mode_solver wg) entries);
               _waveguide := Some wg |}).
  set (w1 := store self j (emit [EvSolve self] (built self i wg w0))).
  assert (Hrun : _data self w = (Raise e, w1)).
  { unfold _data.
    rewrite (bind_run _ _ _ _ _ (get_instance_run _ _ _ Hi)), Hc.
    erewrite bind_run; [|rewrite (filepath_result _ _ _ Hi), Hf; reflexivity].
    fold w0.
    assert (Hrest :
      bind (_data_compute self (config i) fp) (fun _ => get_cached_data self) w0
      = (Raise e, w1)).
    { apply bind_raise.
      apply (data_compute_partial_run self w0 i fp wg entries e Hi0 Hc Hwg He Hfr). }
    destruct fp as [f|].
    - erewrite (bind_run _ _ w0 w0 false); [exact Hrest|].
      unfold bind, path_exists, ret.
      destruct Hmiss as [Hnone| ->].
      + rewrite bool_decide_eq_false_2; [reflexivity|].
        unfold w0. rewrite after_filepath_files, Hnone. intros [? [=]].
      + rewrite andb_false_r. reflexivity.
    - erewrite (bind_run _ _ w0 w0 false); [exact Hrest | reflexivity]. }
  exists w1. split; [exact Hrun|].
  split.
  { pose proof (data_hoare self (files w) w eq_refl) as Hh.
    rewrite Hrun in Hh. exact Hh. }
  intros ops.
  assert (Hheld : holds_data self (partial_data (mode_solver wg) entries)
                    (run_ops ops w1)).
  { apply holds_data_ops. exists j. split; [apply store_lookup | reflexivity]. }
  destruct Hheld as (k & Hk & Hd).
  pose proof (data_cached_run self _ k _ Hk Hd) as Hdata.
  pose proof (field_entries_keys _ _ He) as Hkeys.
  split; [exact Hdata|].
  split; unfold fraction_te, fraction_tm, data_item;
    rewrite (bind_run _ _ _ _ _ Hdata); unfold lift, getitem; cbn [fst];
    rewrite (partial_data_lookup _ _ _ Hkeys); try reflexivity;
    unfold component_names; cbn [app In];
    intros Hin; repeat (destruct Hin as [Heq|Hin]; [discriminate Heq|]); exact Hin.
Qed.
End FailureTheorems.

(** ** The loop over the modes *)

Section FractionLoop.
Context `{lib : Library}.
Variable fields : gmap string (ndarray complex).

Lemma fraction_step_inv acc i acc' :
  fraction_step fields acc i = Ok acc' ->
  exists exi eyi,
    mode_fields fields i = Ok (exi, eyi)
    /\ acc' = (<[i := fst (fractions_of_mode exi eyi)]> (fst acc),
               <[i := snd (fractions_of_mode exi eyi)]> (snd acc)).
Proof.
  unfold fraction_step, mode_fields.
  destruct (getitem fields "Ex") as [ex|]; [cbn [result_bind]|discriminate].
  destruct (Np.sel_mode_index (Z.of_nat i) ex) as [exi|]; [cbn [result_bind]|discriminate].
  destruct (getitem fields "Ey") as [ey|]; [cbn [result_bind]|discriminate].
  destruct (Np.sel_mode_index (Z.of_nat i) ey) as [eyi|]; [cbn [result_bind]|discriminate].
  destruct (fractions_of_mode exi eyi) as [te tm] eqn:Hf.
  intros [= <-]. exists exi, eyi. rewrite Hf. auto.
Qed.

(** Pass [i] of the loop writes entry [i] of both arrays and nothing else;
    the passes run over [k], [k+1], ..., [k+m-1]. *)
Lemma fraction_loop_inv (m k n : nat) (acc acc' : list float * list float) :
  fraction_loop fields acc (seq k m) = Ok acc' ->
  length (fst acc) = n -> length (snd acc) = n -> (k + m <= n)%nat ->
  length (fst acc') = n /\ length (snd acc') = n
  /\ (forall i, (i < k \/ k + m <= i)%nat ->
        fst acc' !! i = fst acc !! i /\ snd acc' !! i = snd acc !! i)
  /\ (forall i, (k <= i < k + m)%nat ->
        exists exi eyi,
          mode_fields fields i = Ok (exi, eyi)
          /\ fst acc' !! i = Some (fst (fractions_of_mode exi eyi))
          /\ snd acc' !! i = Some (snd (fractions_of_mode exi eyi))).
Proof.
  revert k acc. induction m as [|m IH]; intros k acc Hloop Hte Htm Hk.
  - cbn in Hloop. injection Hloop as <-.
    repeat split; try assumption. intros i Hi. lia.
  - cbn [seq fraction_loop] in Hloop.
    destruct (fraction_step fields acc k) as [acc1|] eqn:Hstep; [|discriminate].
    cbn [result_bind] in Hloop.
    destruct (fraction_step_inv _ _ _ Hstep) as (exk & eyk & Hmk & ->).
    destruct (IH (S k) _ Hloop) as (Hl1 & Hl2 & Hout & Hin);
      cbn [fst snd]; rewrite ?length_insert; try assumption; try lia.
    cbn [fst snd] in Hout.
    split; [exact Hl1|]. split; [exact Hl2|]. split.
    + intros i Hi. destruct (Hout i) as [H1 H2]; [lia|].
      rewrite H1, H2, !list_lookup_insert_ne by lia. auto.
    + intros i Hi. destruct (decide (i = k)) as [->|Hne].
      * exists exk, eyk. split; [exact Hmk|].
        destruct (Hout k) as [H1 H2]; [lia|].
        rewrite H1, H2, !list_lookup_insert_eq by lia. auto.
      * apply Hin. lia.
Qed.
End FractionLoop.

Section FractionTheorem.
Context `{lib : Library}.

(** X8: the loop of lines 248-260 fills both arrays completely: they have
    [num_modes] entries, and entry [i] holds the two fractions computed
    from the Ex and Ey samples of mode [i]; a negative [num_modes] is
    refused by [np.zeros]. *)
Theorem polarization_fractions_entries (c : Config)
    (fields : gmap string (ndarray complex)) :
  (num_modes c < 0 -> exists msg, polarization_fractions c fields = Raise (ValueError msg))
  /\ (forall te tm,
        polarization_fractions c fields = Ok (te, tm) ->
        length te = Z.to_nat (num_modes c)
        /\ length tm = Z.to_nat (num_modes c)
        /\ forall i, (i < Z.to_nat (num_modes c))%nat ->
             exists exi eyi,
               mode_fields fields i = Ok (exi, eyi)
               /\ te !! i = Some (fst (fractions_of_mode exi eyi))
               /\ tm !! i = Some (snd (fractions_of_mode exi eyi))).
Proof.
  unfold polarization_fractions, np_zeros, range. split.
  - intros Hneg. apply Z.ltb_lt in Hneg. rewrite Hneg. eexists. reflexivity.
  - intros te tm. destruct (num_modes c <? 0); [discriminate|].
    cbn [result_bind]. intros Hloop.
    destruct (fraction_loop_inv fields _ 0 (Z.to_nat (num_modes c)) _ _ Hloop)
      as (Hl1 & Hl2 & _ & Hin);
      cbn [fst snd]; rewrite ?length_replicate; try lia.
    cbn [fst snd] in *. split; [exact Hl1|]. split; [exact Hl2|].
    intros i Hi. apply Hin. lia.
Qed.
End FractionTheorem.

(** ** What a computed result holds *)

Section ComputedData.
Context `{ser : Serializer}.

Lemma computed_data_inv (c : Config) (md : ModeData) (d : npz) :
  computed_data c md = Ok d ->
  exists entries te tm,
    field_entries (md_fields md) = Ok entries
    /\ polarization_fractions c (md_fields md) = Ok (te, tm)
    /\ d = (let d0 :=
              <["fraction_tm" := ArrF (Np.of_row tm)]>
              (<["fraction_te" := ArrF (Np.of_row te)]>
              (<["mode_area" := ArrF (Np.squeeze (md_mode_area md))]>
              (<["n_eff" := ArrC (Np.squeeze (md_n_complex md))]>
              (<["y" := ArrF (Np.of_row (md_y md))]>
              (<["x" := ArrF (Np.of_row (md_x md))]>
              (list_to_map entries : npz)))))) in
            match md_n_group md with
            | Some g => <["n_group" := ArrF (Np.squeeze g)]> d0
            | None => d0
            end).
Proof.
  unfold computed_data.
  destruct (field_entries (md_fields md)) as [entries|]; [|discriminate].
  destruct (polarization_fractions c (md_fields md)) as [[te tm]|]; [|discriminate].
  cbn [result_bind fst snd]. intros [= <-]. eauto 6.
Qed.

Lemma computed_data_dom (c : Config) (md : ModeData) (d : npz) :
  computed_data c md = Ok d -> dom d = list_to_set (computed_keys md).
Proof.
  intros Hd. destruct (computed_data_inv c md d Hd) as (entries & te & tm & He & _ & ->).
  pose proof (field_entries_keys _ _ He) as Hkeys.
  unfold computed_keys. cbv zeta.
  destruct (md_n_group md); rewrite !dom_insert_L, dom_list_to_map_L, Hkeys;
    rewrite !list_to_set_app_L; cbn [list_to_set foldr]; set_solver.
Qed.

Lemma computed_data_lookup (c : Config) (md : ModeData) (d : npz) :
  computed_data c md = Ok d ->
  d !! "n_eff" = Some (ArrC (Np.squeeze (md_n_complex md)))
  /\ d !! "mode_area" = Some (ArrF (Np.squeeze (md_mode_area md)))
  /\ d !! "n_group" = (fun g => ArrF (Np.squeeze g)) <$> md_n_group md
  /\ exists te tm,
       polarization_fractions c (md_fields md) = Ok (te, tm)
       /\ d !! "fraction_te" = Some (ArrF (Np.of_row te))
       /\ d !! "fraction_tm" = Some (ArrF (Np.of_row tm)).
Proof.
  intros Hd. destruct (computed_data_inv c md d Hd) as (entries & te & tm & He & Hfr & ->).
  pose proof (field_entries_keys _ _ He) as Hkeys.
  assert (Hng : (list_to_map entries : npz) !! "n_group" = None).
  { apply not_elem_of_list_to_map_1. rewrite Hkeys. unfold component_names.
    intros Hin. apply list_elem_of_In in Hin. cbn [In] in Hin.
    repeat (destruct Hin as [Heq|Hin]; [discriminate Heq|]). exact Hin. }
  cbv zeta.
  destruct (md_n_group md) as [g|]; cbn [fmap option_fmap option_map];
    (split; [|split; [|split; [|exists te, tm; split; [exact Hfr|split]]]]);
    repeat first
      [ rewrite lookup_insert_eq; reflexivity
      | exact Hng
      | rewrite lookup_insert_ne by discriminate ].
Qed.

(** X9: a computed result mapping has exactly the keys of lines 236-266:
    the six field components, [x], [y], [n_eff], [mode_area],
    [fraction_te], [fraction_tm], and [n_group] when the solver gave a
    group index. The accessors return the solver's squeezed arrays and the
    two fraction arrays, and [n_group] is [None] exactly when the solver
    gave no group index. *)
Theorem computed_result_accessors (w : World) (self : nat) (i : Instance)
    (fp : option string) (wg : RectangularDielectric medium) (d : npz) :
  heap w !! self = Some i ->
  _cached_data i = None ->
  filepath_of (config i) = Ok fp ->
  match fp with
  | Some f => files w !! f = None \/ overwrite (config i) = true
  | None => True
  end ->
  the_waveguide i = Ok wg ->
  computed_data (config i) (mode_solver wg) = Ok d ->
  fst (_data self w) = Ok d
  /\ dom d = list_to_set (computed_keys (mode_solver wg))
  /\ fst (n_eff self w) = Ok (ArrC (Np.squeeze (md_n_complex (mode_solver wg))))
  /\ fst (mode_area self w) = Ok (ArrF (Np.squeeze (md_mode_area (mode_solver wg))))
  /\ fst (n_group self w)
     = Ok ((fun g => ArrF (Np.squeeze g)) <$> md_n_group (mode_solver wg))
  /\ exists te tm,
       polarization_fractions (config i) (md_fields (mode_solver wg)) = Ok (te, tm)
       /\ fst (fraction_te self w) = Ok (ArrF (Np.of_row te))
       /\ fst (fraction_tm self w) = Ok (ArrF (Np.of_row tm)).
Proof.
  intros Hi Hc Hf Hmiss Hwg Hd.
  pose proof (data_miss_run self w i fp wg d Hi Hc Hf Hmiss Hwg Hd) as Hrun.
  destruct (computed_data_lookup _ _ _ Hd) as (Hn & Ha & Hg & te & tm & Hfr & Hte & Htm).
  split; [rewrite Hrun; reflexivity|].
  split; [apply (computed_data_dom _ _ _ Hd)|].
  unfold n_eff, mode_area, fraction_te, fraction_tm, n_group, data_item.
  rewrite !(bind_run _ _ _ _ _ Hrun). unfold lift, getitem, ret. cbn [fst].
  rewrite Hn, Ha, Hg. repeat split.
  exists te, tm. rewrite Hte, Htm. auto.
Qed.
End ComputedData.

(** ** The description and the cache key *)

Section ReprFacts.
Context `{ser : Serializer}.

Lemma result_mapM_is_ok {A B} (f : A -> result B) (l : list A) :
  (exists ys, result_mapM f l = Ok ys) <-> Forall (fun x => exists y, f x = Ok y) l.
Proof.
  induction l as [|x l IH]; cbn [result_mapM].
  - split; [constructor | eauto].
  - split.
    + intros [ys Hys]. destruct (f x) as [y|] eqn:Hx; [|discriminate].
      cbn [result_bind] in Hys.
      destruct (result_mapM f l) as [ys'|] eqn:Hl; [|discriminate].
      constructor; [eauto | apply IH; eauto].
    + intros Hall. apply Forall_cons_1 in Hall as [[y Hy] Hl].
      apply IH in Hl as [ys Hys]. rewrite Hy, Hys. cbn. eauto.
Qed.

Lemma settings_is_ok (c : Config) :
  (exists l, settings c = Ok l)
  <-> Forall (fun k => exists s, serialized c k = Ok s) fields_keys.
Proof.
  unfold settings. rewrite result_mapM_is_ok.
  assert (Hperm : forall P : string -> Prop,
             Forall P (Py.sorted fields_keys) <-> Forall P fields_keys).
  { intros P. split; apply Permutation_Forall;
      [symmetry|]; apply sorted_perm. }
  rewrite Hperm. apply Forall_iff. intros k. unfold serialized.
  destruct (getattr c k) as [v|]; cbn [result_bind]; [|split; intros [? [=]]].
  destruct (custom_serializer v); cbn [result_bind]; split; intros [? [=]]; eauto.
Qed.

Lemma repr_items_is_ok (c : Config) :
  (exists l, repr_items c = Ok l)
  <-> Forall (fun k => exists s, serialized c k = Ok s) fields_keys.
Proof.
  unfold repr_items. rewrite result_mapM_is_ok.
  apply Forall_iff. intros k. unfold serialized.
  destruct (getattr c k) as [v|]; cbn [result_bind]; [|split; intros [? [=]]].
  destruct (custom_serializer v); cbn [result_bind]; split; intros [? [=]]; eauto.
Qed.

(** X10: [__repr__] and the cache key serialize the same fields, one in
    declaration order and one sorted: [repr] (and [str]) of an instance
    succeeds exactly when [custom_serializer] accepts the value of every
    declared field, which is exactly when the cache key is defined. So a
    [filepath] that returned a cache file, with caching enabled, means
    that [repr] returns too. The description changes nothing. *)
Theorem repr_succeeds_iff_fields_serialize (w : World) (self : nat) (i : Instance) :
  heap w !! self = Some i ->
  ((exists s, fst (__repr__ self w) = Ok s)
   <-> Forall (fun k => exists s, serialized (config i) k = Ok s) fields_keys)
  /\ ((exists s, fst (__str__ self w) = Ok s)
      <-> Forall (fun k => exists s, serialized (config i) k = Ok s) fields_keys)
  /\ ((exists s, fst (__repr__ self w) = Ok s)
      <-> (exists h, cache_key (config i) = Ok h))
  /\ (cache_enabled (config i) = true ->
      (exists f, fst (filepath self w) = Ok f) ->
      exists s, fst (__repr__ self w) = Ok s)
  /\ exec (__repr__ self) w = w.
Proof.
  intros Hi.
  assert (Hrepr : (exists s, fst (__repr__ self w) = Ok s)
                  <-> Forall (fun k => exists s, serialized (config i) k = Ok s)
                        fields_keys).
  { rewrite <- repr_items_is_ok. unfold __repr__.
    rewrite (bind_run _ _ _ _ _ (get_instance_run _ _ _ Hi)).
    unfold bind, lift, ret.
    destruct (repr_items (config i)); cbn [fst]; split; intros [? [=]]; eauto. }
  assert (Hkey : (exists h, cache_key (config i) = Ok h)
                 <-> Forall (fun k => exists s, serialized (config i) k = Ok s)
                       fields_keys).
  { rewrite <- settings_is_ok. unfold cache_key.
    destruct (settings (config i)); cbn [result_bind]; split; intros [? [=]]; eauto. }
  split; [exact Hrepr|]. split; [exact Hrepr|].
  split; [rewrite Hrepr, Hkey; reflexivity|]. split.
  - intros Hon. rewrite Hrepr, <- Hkey, (filepath_result self w i Hi). cbn [fst].
    unfold filepath_of. rewrite Hon.
    destruct (cache_path (config i)) as [p|] eqn:Hp;
      [|unfold cache_enabled in Hon; rewrite Hp in Hon; discriminate].
    destruct (cache_key (config i)); cbn [result_bind]; intros [? [=]]; eauto.
  - unfold exec, __repr__.
    rewrite (bind_run _ _ _ _ _ (get_instance_run _ _ _ Hi)).
    unfold bind, lift, ret. destruct (repr_items (config i)); reflexivity.
Qed.
End ReprFacts.

(** ** Which wavelength is shown *)

Section Wavelength.
Context `{lib : Library}.

Lemma argmin_from_bound (l : list float) (best : nat) (bv : float) (k : nat) :
  (best < k)%nat -> (argmin_from best bv k l < k + length l)%nat.
Proof.
  revert best bv k. induction l as [|y l IH]; intros best bv k Hb; cbn [argmin_from length].
  - lia.
  - destruct (is_nan bv); [lia|].
    destruct (is_nan y || PrimFloat.ltb y bv).
    + specialize (IH k y (S k)). lia.
    + specialize (IH best bv (S k)). lia.
Qed.

Lemma np_argmin_bound (l : list float) :
  l <> [] -> exists k, np_argmin l = Ok k /\ (k < length l)%nat.
Proof.
  destruct l as [|x l]; [congruence|]. intros _. eexists. split; [reflexivity|].
  pose proof (argmin_from_bound l 0 x 1). cbn [length]. lia.
Qed.

(** X11: with more than one wavelength, the index [plot_field] selects is
    always a valid one: the nearest wavelength when one is given, and the
    middle one when the argument is [None] or [0.0], which is falsy. *)
Theorem wavelength_index_in_range (c : Config) (wl : option float) :
  0 < Np.size (wavelength c) ->
  exists k, wavelength_index c wl = Ok k
            /\ 0 <= k < Np.size (wavelength c)
            /\ (opt_truthy wl = false -> k = Np.size (wavelength c) / 2).
Proof.
  intros Hsize. unfold wavelength_index.
  assert (Hmid : 0 <= Np.size (wavelength c) / 2 < Np.size (wavelength c)).
  { split; [apply Z.div_pos; lia | apply Z.div_lt_upper_bound; lia]. }
  destruct (opt_truthy wl) eqn:Ht; [|eauto].
  destruct wl as [x|]; [|discriminate Ht].
  unfold Np.size in *.
  destruct (np_argmin_bound
              (map (fun y => PrimFloat.abs (PrimFloat.sub x y))
                   (Np.flatten (wavelength c)))) as (k & Hk & Hlt).
  { destruct (Np.flatten (wavelength c)); [cbn in Hsize; lia | discriminate]. }
  rewrite Hk. cbn [result_bind]. rewrite length_map in Hlt.
  eexists. split; [reflexivity|]. split; [lia | discriminate].
Qed.

Lemma index_last_of_row {A} (l : list A) (k : nat) (x : A) :
  l !! k = Some x -> Np.index_last (Z.of_nat k) (Np.of_row l) = Ok (El x).
Proof.
  intros Hk. unfold Np.of_row. cbn [Np.index_last].
  rewrite last_axis_of_row. unfold Np.py_index. rewrite length_map.
  pose proof (lookup_lt_Some _ _ _ Hk) as Hlt.
  replace (0 <=? Z.of_nat k) with true by (symmetry; apply Z.leb_le; lia).
  replace (Z.of_nat k <? Z.of_nat (length l)) with true
    by (symmetry; apply Z.ltb_lt; lia).
  cbn [andb result_bind]. rewrite Nat2Z.id.
  rewrite nth_error_map.
  assert (Hn : nth_error l k = Some x).
  { clear Hlt. revert k Hk. induction l as [|y l IH]; intros [|k] Hk;
      try discriminate; cbn in *; auto. }
  rewrite Hn. reflexivity.
Qed.

Lemma index_first_of_row {A} (l : list A) (k : nat) (x : A) :
  l !! k = Some x -> Np.index_first (Z.of_nat k) (Np.of_row l) = Ok (El x).
Proof.
  intros Hk. rewrite <- (index_last_of_row l k x Hk).
  unfold Np.of_row. cbn [Np.index_first Np.index_last].
  rewrite last_axis_of_row. reflexivity.
Qed.

(** X12: with several wavelengths, [index] evaluates the permittivity at the
    middle one, entry [size // 2], which is also the wavelength
    [plot_field] shows by default. *)
Theorem index_uses_middle_wavelength (c : Config) (ws : list float) :
  wavelength c = Np.of_row ws ->
  (1 < length ws)%nat ->
  exists x, ws !! (length ws / 2)%nat = Some x
            /\ index_wavelength c = Ok (El x)
            /\ wavelength_index c None = Ok (Z.of_nat (length ws / 2)).
Proof.
  intros Hw Hlen.
  assert (Hmid : (length ws / 2 < length ws)%nat)
    by (apply Nat.div_lt; lia).
  destruct (lookup_lt_is_Some_2 ws _ Hmid) as [x Hx].
  exists x. split; [exact Hx|].
  assert (Hsize : Np.size (wavelength c) = Z.of_nat (length ws)).
  { unfold Np.size. rewrite Hw, flatten_of_row. reflexivity. }
  assert (Hdiv : Np.size (wavelength c) / 2 = Z.of_nat (length ws / 2)).
  { rewrite Hsize. symmetry. apply (Nat2Z.inj_div _ 2). }
  unfold index_wavelength, wavelength_index. cbn [opt_truthy].
  rewrite Hdiv. split; [|reflexivity].
  replace (1 <? Np.size (wavelength c)) with true
    by (symmetry; apply Z.ltb_lt; lia).
  rewrite Hw. apply index_first_of_row, Hx.
Qed.
End Wavelength.

(** ** A construction that fails *)

Section Unbuildable.
Context `{ser : Serializer}.
Variables (self : nat) (c : Config) (e : exn).
Hypothesis Hfail : build_waveguide c = Raise e.

Lemma unbuilt_heap {A} (m : M A) :
  (forall w, heap (exec m w) = heap w) -> preserves (unbuilt self c) m.
Proof. intros Hm w Hw. unfold unbuilt. rewrite Hm. exact Hw. Qed.

Lemma unbuilt_store s j w :
  unbuilt self c w ->
  (forall i, heap w !! s = Some i ->
             config j = config i /\ _waveguide j = _waveguide i) ->
  is_Some (heap w !! s) ->
  unbuilt self c (store s j w).
Proof.
  intros (i & Hi & Hc & Hw) Hj [k Hk]. unfold unbuilt, store. cbn [heap].
  destruct (decide (s = self)) as [->|Hne].
  - exists j. rewrite lookup_insert_eq. destruct (Hj i Hi) as [-> ->]. auto.
  - exists i. rewrite lookup_insert_ne by exact Hne. auto.
Qed.

Lemma unbuilt_waveguide s : preserves (unbuilt self c) (waveguide s).
Proof.
  intros w Hw. rewrite waveguide_effect.
  destruct (heap w !! s) as [j|] eqn:Hj; [|exact Hw].
  destruct (the_waveguide j) as [wg|] eqn:Hwg; [|exact Hw].
  unfold built. destruct (_waveguide j) eqn:Hwj; [exact Hw|].
  destruct (decide (s = self)) as [->|Hne].
  - destruct Hw as (i & Hi & Hc & Hnone). exfalso.
    assert (j = i) as -> by congruence.
    unfold the_waveguide in Hwg. rewrite Hnone, Hc, Hfail in Hwg. discriminate.
  - destruct Hw as (i & Hi & Hc & Hnone). exists i.
    unfold store. cbn [heap emit]. rewrite lookup_insert_ne by exact Hne. auto.
Qed.

Lemma unbuilt_ops ops w : unbuilt self c w -> unbuilt self c (run_ops ops w).
Proof.
  apply run_ops_preserves.
  - intros ev _. apply unbuilt_heap. reflexivity.
  - intros dir. apply unbuilt_heap. reflexivity.
  - intros f. apply unbuilt_heap. intros w0. unfold exec, np_load.
    destruct (files w0 !! f); reflexivity.
  - intros f d. apply unbuilt_heap. reflexivity.
  - intros s d w0 Hw. rewrite set_cached_data_effect.
    destruct (heap w0 !! s) as [j|] eqn:Hj; [|exact Hw].
    apply unbuilt_store; [exact Hw | | eauto].
    intros i Hi. assert (j = i) as -> by congruence. auto.
  - intros s k v w0 Hw. rewrite cached_setitem_effect.
    destruct (heap w0 !! s) as [j|] eqn:Hj; [|exact Hw].
    destruct (_cached_data j); [|exact Hw].
    apply unbuilt_store; [exact Hw | | eauto].
    intros i Hi. assert (j = i) as -> by congruence. auto.
  - apply unbuilt_waveguide.
  - intros v rest w0 (i & Hi & Hc & Hnone). exists i.
    split; [apply new_waveguide_other, Hi | auto].
Qed.
End Unbuildable.

Section UnbuildableTheorem.
Context `{ser : Serializer}.

(** X13: a failed construction of the simulation object stores nothing: on
    an instance whose materials cannot be resolved, every access to
    [waveguide], [index] and [plot_grid] repeats the attempt and raises the
    same exception, leaving everything as it was, whatever was called in
    between. *)
Theorem failed_build_is_repeated (w : World) (self : nat) (i : Instance) (e : exn)
    (ops : list op) :
  heap w !! self = Some i ->
  _waveguide i = None ->
  build_waveguide (config i) = Raise e ->
  let w' := run_ops ops w in
  waveguide self w' = (Raise e, w')
  /\ index self w' = (Raise e, w')
  /\ plot_grid self w' = (Raise e, w').
Proof.
  intros Hi Hnone Hfail w'.
  destruct (unbuilt_ops self (config i) e Hfail ops w) as (j & Hj & Hc & Hwj).
  { exists i. auto. }
  fold w' in Hj.
  assert (Hrun : waveguide self w' = (Raise e, w')).
  { rewrite (waveguide_run self w' j Hj). unfold the_waveguide.
    rewrite Hwj, Hc, Hfail. reflexivity. }
  split; [exact Hrun|].
  unfold index, plot_grid. rewrite !(bind_raise _ _ _ _ _ Hrun). auto.
Qed.
End UnbuildableTheorem.

(** ** What [plot_field] does with the stored arrays *)

Section PlotRun.
Context `{ser : Serializer}.

Lemma bind_any {A B} (m : M A) (k : A -> M B) (w w1 : World) (r : result A) :
  m w = (r, w1) ->
  bind m k w = match r with
               | Ok a => k a w1
               | Raise e => (Raise e, w1)
               end.
Proof. intros Hm. unfold bind. rewrite Hm. destruct r; reflexivity. Qed.

(** An access to a stored array, once the mapping is there. *)
Lemma data_item_run (self : nat) (w w1 : World) (d : npz) (name : string) :
  _data self w = (Ok d, w1) -> data_item self name w = (getitem d name, w1).
Proof. intros Hrun. unfold data_item. rewrite (bind_run _ _ _ _ _ Hrun). reflexivity. Qed.

(** [plot_field] from the point where the data is there and the mode index
    is accepted: the selection, the coordinates, the constructor and the
    plot, each of which may raise. *)
Lemma plot_field_run (w w1 : World) (self : nat) (i : Instance) (d : npz)
    (field_name value : string) (mode_index : Z) (wl : option float)
    (kwargs : gmap string float) (a : array) :
  heap w !! self = Some i ->
  _data self w = (Ok d, w1) ->
  d !! field_name = Some a ->
  mode_index < num_modes (config i) ->
  plot_field self field_name value mode_index wl kwargs w
  = match field_values (config i) a value mode_index wl with
    | Raise e => (Raise e, w1)
    | Ok v =>
        match getitem d "y" with
        | Raise e => (Raise e, w1)
        | Ok y =>
            match getitem d "x" with
            | Raise e => (Raise e, w1)
            | Ok x =>
                match DataArray (Np.T v) y x with
                | Raise e => (Raise e, w1)
                | Ok _ =>
                    bind (xarray_plot self (Np.T v))
                      (fun _ =>
                         ret {| art_name := Some field_name;
                                art_values := Np.T v;
                                art_coords := Some (y, x);
                                art_kwargs :=
                                  if String.eqb value "dB"
                                  then <["vmin" := (-20)%float]> kwargs
                                  else kwargs |}) w1
                end
            end
        end
    end.
Proof.
  intros Hi Hrun Ha Hmode.
  destruct (data_keeps_config self w i Hi) as (i' & Hi' & Hc).
  unfold exec in Hi'. rewrite Hrun in Hi'. cbn [snd] in Hi'.
  pose proof (data_returns_stored _ _ _ _ Hrun) as (k & Hk & Hd).
  pose proof (data_cached_run self w1 k d Hk Hd) as Hagain.
  pose proof (data_item_run self w1 w1 d "y" Hagain) as Hy.
  pose proof (data_item_run self w1 w1 d "x" Hagain) as Hx.
  unfold plot_field.
  rewrite (bind_any _ _ _ _ _ (data_item_run self w w1 d field_name Hrun)).
  unfold getitem at 1. rewrite Ha.
  rewrite (bind_run _ _ _ _ _ (get_instance_run _ _ _ Hi')). rewrite Hc.
  replace (num_modes (config i) <=? mode_index) with false
    by (symmetry; apply Z.leb_gt; exact Hmode).
  cbv zeta. unfold field_values, selected.
  destruct (1 <? num_modes (config i));
    [ destruct (Np.index_last mode_index (as_complex a)) as [d1|]; [|reflexivity]
    | ];
    cbn [result_bind];
    (erewrite (bind_run _ _ w1 w1) by reflexivity);
    (destruct (1 <? Np.size (wavelength (config i)));
     [ destruct (wavelength_index (config i) wl) as [n|]; [|reflexivity];
       cbn [result_bind];
       match goal with
       | |- context [Np.index_last n ?x] =>
           destruct (Np.index_last n x) as [d2|] eqn:H2
       end;
       [ erewrite (bind_run _ _ w1 w1 d2)
           by (rewrite (bind_run _ _ w1 w1 n) by reflexivity; rewrite H2; reflexivity)
       | erewrite (bind_raise _ _ w1 w1)
           by (rewrite (bind_run _ _ w1 w1 n) by reflexivity; rewrite H2; reflexivity);
         reflexivity ]
     | erewrite (bind_run _ _ w1 w1) by reflexivity ]);
    cbn [result_bind];
    (rewrite (bind_any _ _ w1 w1 (select_value value _)) by reflexivity);
    (destruct (select_value value _) as [v|]; [|reflexivity]);
    rewrite (bind_any _ _ _ _ _ Hy);
    (destruct (getitem d "y") as [y|]; [|reflexivity]);
    rewrite (bind_any _ _ _ _ _ Hx);
    (destruct (getitem d "x") as [x|]; [|reflexivity]);
    (rewrite (bind_any _ _ w1 w1 (DataArray (Np.T v) y x)) by reflexivity);
    (destruct (DataArray (Np.T v) y x) as [[]|]; reflexivity).
Qed.
End PlotRun.

(** ** Names that are not fields *)

Section PlotRejection.
Context `{ser : Serializer}.

(** What a computed mapping holds under a name other than a field
    component. *)
Lemma computed_layout_lookup (c : Config) (d : npz) (name : string) (a : array) :
  computed_layout c d -> ~ In name component_names -> d !! name = Some a ->
  (exists l, d !! "y" = Some (ArrF (Np.of_row l)))
  /\ (low_rank (as_complex a)
      \/ exists N, as_complex a = Np.squeeze (Np.of_matrix N)
                   /\ Z.of_nat (length N) = Np.size (wavelength c)
                   /\ Forall (fun r => Z.of_nat (length r) = num_modes c) N).
Proof.
  intros (md & Hd & Hn & Ha & Hg) Hname Hlook.
  destruct (computed_data_inv c md d Hd) as (entries & te & tm & He & Hfr & ->).
  pose proof (field_entries_keys _ _ He) as Hkeys.
  assert (Hentries : (list_to_map entries : npz) !! name = None).
  { apply not_elem_of_list_to_map_1. rewrite Hkeys. intros Hin.
    apply Hname, list_elem_of_In, Hin. }
  assert (Hrow : forall l, low_rank (as_complex (ArrF (Np.of_row l)))).
  { intros l. right. eexists. apply map_nd_of_row. }
  assert (HmatF : forall g : ndarray float,
            derived_dims c g ->
            exists N, as_complex (ArrF (Np.squeeze g)) = Np.squeeze (Np.of_matrix N)
                      /\ Z.of_nat (length N) = Np.size (wavelength c)
                      /\ Forall (fun r => Z.of_nat (length r) = num_modes c) N).
  { intros g (N & -> & Hnf & Hnm).
    exists (map (map (fun r : float => (r, 0%float))) N).
    cbn [as_complex]. rewrite map_nd_squeeze, map_nd_of_matrix, length_map.
    split; [reflexivity|]. split; [exact Hnf|].
    apply Forall_map. eapply Forall_impl; [exact Hnm|].
    intros r Hr. cbn. rewrite length_map. exact Hr. }
  assert (HmatC : forall g : ndarray complex,
            derived_dims c g ->
            exists N, as_complex (ArrC (Np.squeeze g)) = Np.squeeze (Np.of_matrix N)
                      /\ Z.of_nat (length N) = Np.size (wavelength c)
                      /\ Forall (fun r => Z.of_nat (length r) = num_modes c) N).
  { intros g (N & -> & Hnf & Hnm). exists N. auto. }
  cbv zeta in Hlook |- *. split.
  - exists (md_y md).
    destruct (md_n_group md); rewrite ?lookup_insert_ne by discriminate;
      apply lookup_insert_eq.
  - assert (Hcore : forall b,
              (<["fraction_tm" := ArrF (Np.of_row tm)]>
               (<["fraction_te" := ArrF (Np.of_row te)]>
               (<["mode_area" := ArrF (Np.squeeze (md_mode_area md))]>
               (<["n_eff" := ArrC (Np.squeeze (md_n_complex md))]>
               (<["y" := ArrF (Np.of_row (md_y md))]>
               (<["x" := ArrF (Np.of_row (md_x md))]>
               (list_to_map entries : npz))))))) !! name = Some b ->
              low_rank (as_complex b)
              \/ exists N, as_complex b = Np.squeeze (Np.of_matrix N)
                           /\ Z.of_nat (length N) = Np.size (wavelength c)
                           /\ Forall (fun r => Z.of_nat (length r) = num_modes c) N).
    { intros b Hb.
      repeat match type of Hb with
             | <[?k := ?v]> _ !! name = Some b =>
                 destruct (decide (k = name)) as [<-|?];
                   [ rewrite lookup_insert_eq in Hb; injection Hb as <-
                   | rewrite lookup_insert_ne in Hb by assumption ]
             end;
        try (left; apply Hrow);
        try (right; apply HmatF, Ha);
        try (right; apply HmatC, Hn).
      congruence. }
    destruct (md_n_group md) as [g|] eqn:Hgroup; [|apply Hcore, Hlook].
    destruct (decide ("n_group"%string = name)) as [<-|Hne].
    + rewrite lookup_insert_eq in Hlook. injection Hlook as <-.
      right. apply HmatF, Hg. reflexivity.
    + rewrite lookup_insert_ne in Hlook by exact Hne. apply Hcore, Hlook.
Qed.

(** C6 as the code has it: [plot_field] raises and returns no plot when
    [mode_index >= num_modes], when the name is not a key of the result
    mapping, and, on a mapping laid out as [_data] computes it, for every
    name other than the six field components: the other stored arrays have
    rank 0 or 1 once the mode and the wavelength are selected, which the
    selection or the constructor of the data array refuses. In each case
    the error comes only after the result data was obtained: the world the
    call leaves is the one an access to [_data] leaves (solver run or cache
    load included). The error is that of [_data] if it failed, a
    [KeyError] for a name that is not a key, and the [ValueError] naming
    the mode index for a key with [mode_index >= num_modes]. *)
Theorem plot_field_rejects_after_data (w : World) (self : nat) (i : Instance)
    (field_name value : string) (mode_index : Z) (wl : option float)
    (kwargs : gmap string float) :
  heap w !! self = Some i ->
  num_modes (config i) <= mode_index
    \/ (forall d, fst (_data self w) = Ok d -> d !! field_name = None)
    \/ (~ In field_name component_names
        /\ forall d, fst (_data self w) = Ok d -> computed_layout (config i) d) ->
  exec (plot_field self field_name value mode_index wl kwargs) w = exec (_data self) w
  /\ exists e,
       fst (plot_field self field_name value mode_index wl kwargs w) = Raise e
       /\ (forall e0, fst (_data self w) = Raise e0 -> e = e0)
       /\ (forall d, fst (_data self w) = Ok d -> d !! field_name = None ->
                     e = KeyError field_name)
       /\ (forall d a, fst (_data self w) = Ok d -> d !! field_name = Some a ->
                       num_modes (config i) <= mode_index ->
                       e = bad_mode_index mode_index (num_modes (config i))).
Proof.
  intros Hi Hbad.
  destruct (data_keeps_config self w i Hi) as (i' & Hi' & Hc).
  unfold exec in *.
  destruct (_data self w) as [[d|e] w1] eqn:Hd; cbn [fst snd] in *.
  2:{ assert (Hrun : plot_field self field_name value mode_index wl kwargs w
                     = (Raise e, w1)).
      { unfold plot_field, data_item.
        rewrite (bind_raise _ _ w w1 e); [reflexivity|].
        rewrite (bind_raise _ _ _ _ _ Hd). reflexivity. }
      rewrite Hrun. split; [reflexivity|]. exists e.
      split; [reflexivity|]. split; [congruence|]. split; intros; discriminate. }
  destruct (d !! field_name) as [a|] eqn:Ha.
  2:{ assert (Hrun : plot_field self field_name value mode_index wl kwargs w
                     = (Raise (KeyError field_name), w1)).
      { unfold plot_field.
        rewrite (bind_any _ _ _ _ _ (data_item_run self w w1 d field_name Hd)).
        unfold getitem. rewrite Ha. reflexivity. }
      rewrite Hrun. split; [reflexivity|]. eexists.
      split; [reflexivity|]. split; [intros; discriminate|].
      split; [reflexivity|]. intros d' a' [= <-]. congruence. }
  destruct (Z_le_gt_dec (num_modes (config i)) mode_index) as [Hge|Hlt].
  { assert (Hrun : plot_field self field_name value mode_index wl kwargs w
                   = (Raise (bad_mode_index mode_index (num_modes (config i))), w1)).
    { unfold plot_field.
      rewrite (bind_any _ _ _ _ _ (data_item_run self w w1 d field_name Hd)).
      unfold getitem. rewrite Ha.
      rewrite (bind_run _ _ _ _ _ (get_instance_run _ _ _ Hi')), Hc.
      apply Z.leb_le in Hge. rewrite Hge. reflexivity. }
    rewrite Hrun. split; [reflexivity|]. eexists.
    split; [reflexivity|]. split; [intros; discriminate|].
    split; [intros d' [= <-]; congruence | reflexivity]. }
  destruct Hbad as [Hge | [Hnone | [Hname Hlayout]]];
    [lia | specialize (Hnone d eq_refl); congruence |].
  specialize (Hlayout d eq_refl).
  destruct (computed_layout_lookup _ _ _ _ Hlayout Hname Ha) as ([ly Hy] & Hshape).
  assert (Hrun : exists e, plot_field self field_name value mode_index wl kwargs w
                           = (Raise e, w1)).
  { rewrite (plot_field_run w w1 self i d field_name value mode_index wl kwargs a
               Hi Hd Ha ltac:(lia)).
    unfold field_values.
    destruct (selected (config i) a mode_index wl) as [data|] eqn:Hsel;
      cbn [result_bind]; [|eauto].
    assert (Hlow : low_rank data).
    { destruct Hshape as [Hlow | (N & HN & Hnf & Hnm)].
      - apply (selected_low_rank _ _ _ _ _ Hlow Hsel).
      - apply (selected_derived _ _ _ _ _ _ HN Hnf Hnm Hsel). }
    destruct (select_value value data) as [v|] eqn:Hv; [|eauto].
    pose proof (select_value_low_rank _ _ _ Hlow Hv) as Hlowv.
    unfold getitem. rewrite Hy.
    destruct (d !! "x") as [x|]; [|eauto].
    destruct (DataArray_low_rank v ly x Hlowv) as [e He]. rewrite He. eauto. }
  destruct Hrun as [e Hrun]. rewrite Hrun. split; [reflexivity|]. exists e.
  split; [reflexivity|]. split; [intros; discriminate|].
  split; [intros d' [= <-]; congruence | intros; lia].
Qed.
End PlotRejection.

(** ** A field that is plotted *)

Section PlotSuccess.
Context `{ser : Serializer}.

(** X14: when the field is stored, the mode index is below [num_modes],
    the selection succeeds, the constructor of the data array accepts the
    transposed selection with the stored [y] and [x] as coordinates, and
    what is left of it after squeezing is a non-empty two-dimensional
    array, then [plot_field] draws the transposed selection under the
    field's name over the stored [y] and [x]; the mode data is obtained
    once, by the first of its three accesses; for [value = "dB"] the
    keyword [vmin] is set to -20 over whatever the caller passed. *)
Theorem plot_field_draws (w w1 : World) (self : nat) (i : Instance) (d : npz)
    (field_name value : string) (mode_index : Z) (wl : option float)
    (kwargs : gmap string float) (a x y : array) (v : ndarray float)
    (n m : nat) :
  heap w !! self = Some i ->
  _data self w = (Ok d, w1) ->
  d !! field_name = Some a ->
  d !! "x" = Some x ->
  d !! "y" = Some y ->
  mode_index < num_modes (config i) ->
  field_values (config i) a value mode_index wl = Ok v ->
  DataArray (Np.T v) y x = Ok tt ->
  Np.shape (Np.squeeze (Np.T v)) = [n; m] ->
  n <> 0%nat -> m <> 0%nat ->
  plot_field self field_name value mode_index wl kwargs w
  = (Ok {| art_name := Some field_name;
           art_values := Np.T v;
           art_coords := Some (y, x);
           art_kwargs := if String.eqb value "dB"
                         then <["vmin" := (-20)%float]> kwargs else kwargs |},
     emit [EvPlot self] w1).
Proof.
  intros Hi Hrun Ha Hx Hy Hmode Hv Hda Hshape Hn Hm.
  rewrite (plot_field_run w w1 self i d field_name value mode_index wl kwargs a
             Hi Hrun Ha Hmode).
  rewrite Hv. unfold getitem. rewrite Hy, Hx, Hda.
  unfold xarray_plot. rewrite Hshape.
  cbn [existsb orb].
  destruct n as [|n']; [congruence|]. destruct m as [|m']; [congruence|].
  reflexivity.
Qed.
End PlotSuccess.


(** Facts of the fixture world, by evaluation. *)

Section FixtureFacts.
#[local] Existing Instance Fixture.lib.
#[local] Existing Instance Fixture.serializer.

Example fixture_lookup_0 : heap Fixture.world0 !! 0%nat = Some (Fixture.instance_of 0).
Proof. vm_compute. reflexivity. Qed.

Example fixture_lookup_1 : heap Fixture.world0 !! 1%nat = Some (Fixture.instance_of 1).
Proof. vm_compute. reflexivity. Qed.

Example fixture_lookup_2 : heap Fixture.world0 !! 2%nat = Some (Fixture.instance_of 2).
Proof. vm_compute. reflexivity. Qed.

Example fixture_fresh self : _cached_data (Fixture.instance_of self) = None.
Proof. reflexivity. Qed.

Example fixture_path_1 :
cache_path (config (Fixture.instance_of 1)) = Some (PathStr "cache").
Proof. vm_compute. reflexivity. Qed.

Example fixture_path_2 :
cache_path (config (Fixture.instance_of 2)) = Some (PathObj "cache").
Proof. vm_compute. reflexivity. Qed.

Example fixture_filepath_1 :
@filepath_of Fixture.lib Fixture.serializer (config (Fixture.instance_of 1))
= Ok (Some Fixture.cache_file).
Proof. vm_compute. reflexivity. Qed.

Example fixture_filepath_2 :
@filepath_of Fixture.lib Fixture.serializer (config (Fixture.instance_of 2))
= Ok (Some Fixture.cache_file).
Proof. vm_compute. reflexivity. Qed.

Example fixture_no_file : files Fixture.world0 !! Fixture.cache_file = None.
Proof. vm_compute. reflexivity. Qed.

Example fixture_overwrite_2 : overwrite (config (Fixture.instance_of 2)) = false.
Proof. vm_compute. reflexivity. Qed.

Example fixture_waveguide_0 :
the_waveguide (Fixture.instance_of 0) = Ok (Fixture.waveguide_of 0).
Proof. vm_compute. reflexivity. Qed.

Example fixture_waveguide_1 :
the_waveguide (Fixture.instance_of 1) = Ok (Fixture.waveguide_of 1).
Proof. vm_compute. reflexivity. Qed.

Example fixture_data_0 :
computed_data (config (Fixture.instance_of 0))
              (mode_solver (Fixture.waveguide_of 0))
= Ok (Fixture.data_of 0).
Proof. vm_compute. reflexivity. Qed.

Example fixture_data_1 :
computed_data (config (Fixture.instance_of 1))
              (mode_solver (Fixture.waveguide_of 1))
= Ok (Fixture.data_of 1).
Proof. vm_compute. reflexivity. Qed.

Lemma data_first_access_policy_witness :
exists w' : @World Fixture.lib,
  @_data Fixture.lib Fixture.serializer 1%nat Fixture.world0
    = (Ok (Fixture.data_of 1), w')
  /\ files w' = <[Fixture.cache_file := Fixture.data_of 1]> (files Fixture.world0)
  /\ trace w' = trace Fixture.world0 ++ [EvMkdir (Path (PathStr "cache"))]
                   ++ build_events 1%nat (Fixture.instance_of 1)
                   ++ [EvSolve 1%nat; EvSave Fixture.cache_file]
  /\ (_cached_data <$> heap w' !! 1%nat) = Some (Some (Fixture.data_of 1)).
Proof.
exact (proj2 (proj2 (@data_first_access_policy Fixture.lib Fixture.serializer
                       Fixture.world0 1%nat (Fixture.instance_of 1)
                       fixture_lookup_1 (fixture_fresh 1)))
         (PathStr "cache") Fixture.cache_file (Fixture.waveguide_of 1)
         (Fixture.data_of 1)
         fixture_path_1 fixture_filepath_1 (or_introl fixture_no_file)
         fixture_waveguide_1 fixture_data_1).
Defined.

Lemma cache_round_trip_witness :
exists (w1 w2 : @World Fixture.lib) d',
  @_data Fixture.lib Fixture.serializer 1%nat Fixture.world0
    = (Ok (Fixture.data_of 1), w1)
  /\ @_data Fixture.lib Fixture.serializer 2%nat w1 = (Ok d', w2)
  /\ (forall name, d' !! name = Fixture.data_of 1 !! name)
  /\ trace w2 = trace w1 ++ [EvMkdir (Path (PathObj "cache"));
                             EvLoad Fixture.cache_file].
Proof.
refine (@cache_round_trip Fixture.lib Fixture.serializer Fixture.world0
          1%nat 2%nat (Fixture.instance_of 1) (Fixture.instance_of 2)
          (PathObj "cache") Fixture.cache_file (Fixture.waveguide_of 1)
          (Fixture.data_of 1) _
          fixture_lookup_1 (fixture_fresh 1) fixture_lookup_2 (fixture_fresh 2)
          fixture_filepath_1 (or_introl fixture_no_file)
          fixture_waveguide_1 fixture_data_1
          fixture_path_2 fixture_filepath_2 fixture_overwrite_2).
discriminate.
Defined.

Lemma filepath_key_derivation_witness :
  fst (@filepath Fixture.lib Fixture.serializer 1%nat Fixture.world0)
    = Ok (Some "cache/Waveguide_678402345953e18d.npz"%string).
Proof.
  pose proof (@filepath_key_derivation Fixture.lib Fixture.serializer
                Fixture.world0 1%nat
                (Fixture.fresh_instance (Fixture.config_of 1))
                (PathStr "cache") Fixture.serialized_values) as H.
  cbv zeta in H.
  destruct H as [H _].
  - reflexivity.
  - reflexivity.
  - reflexivity.
  - unfold Fixture.serialized_values.
    repeat (constructor; [vm_compute; reflexivity|]). constructor.
  - rewrite H. vm_compute. reflexivity.
Defined.



Example fixture_data_run_0 :
  _data 0%nat Fixture.world0 = (Ok (Fixture.data_of 0), exec (_data 0%nat) Fixture.world0).
Proof. vm_compute. reflexivity. Qed.

Example fixture_n_eff_0 :
  Fixture.data_of 0 !! "n_eff"
  = Some (ArrC (Np.squeeze
                  (Np.of_matrix [[(2%float, 0.5%float); (1.5%float, 0.25%float)]]))).
Proof. vm_compute. reflexivity. Qed.

Example fixture_wavelength_0 :
  wavelength (config (Fixture.instance_of 0)) = Np.of_row [1.5%float]
  \/ (exists x, wavelength (config (Fixture.instance_of 0)) = El x
                /\ [1.5%float] = [x]).
Proof. right. exists 1.5%float. split; reflexivity. Qed.

Lemma loss_dB_per_cm_closed_form_witness :
  exists L,
    loss_dB_per_cm 0%nat Fixture.world0 = (Ok L, exec (_data 0%nat) Fixture.world0)
    /\ forall k j z x,
        mat_get [[(2%float, 0.5%float); (1.5%float, 0.25%float)]] k j = Some z ->
        [1.5%float] !! k = Some x ->
        squeezed_get L 2 k j = Some (loss_closed_form (snd z) x).
Proof.
  refine (loss_dB_per_cm_closed_form Fixture.world0 _ 0%nat (Fixture.instance_of 0)
            (Fixture.data_of 0) [1.5%float]
            [[(2%float, 0.5%float); (1.5%float, 0.25%float)]] 2%nat
            fixture_lookup_0 fixture_data_run_0 fixture_n_eff_0 fixture_wavelength_0
            eq_refl _ _ _).
  - simpl. lia.
  - lia.
  - repeat constructor.
Defined.

Lemma config_immutable_witness :
  exists i,
    heap (run_ops [OpData 0%nat; OpLoss 0%nat; OpIndex 0%nat;
                   OpPlotField 0%nat "Ex" "dB" 0 None ∅] Fixture.world0) !! 0%nat
      = Some i
    /\ config i = config (Fixture.instance_of 0).
Proof.
  exact (config_immutable Fixture.world0 0%nat (Fixture.instance_of 0)
           [OpData 0%nat; OpLoss 0%nat; OpIndex 0%nat;
            OpPlotField 0%nat "Ex" "dB" 0 None ∅] fixture_lookup_0).
Defined.

Example fixture_build_0 :
@build_waveguide Fixture.lib (config (Fixture.instance_of 0)) = Ok (Fixture.waveguide_of 0).
Proof. vm_compute. reflexivity. Qed.

Example fixture_unbuilt_0 : builds 0%nat (trace Fixture.world0) = 0%nat.
Proof. vm_compute. reflexivity. Qed.

Example fixture_disabled_path_0 :
@filepath_of Fixture.lib Fixture.serializer (config (Fixture.instance_of 0)) = Ok None.
Proof. vm_compute. reflexivity. Qed.

Lemma waveguide_built_at_most_once_witness :
  (builds 0%nat
     (trace (run_ops [OpIndex 0%nat; OpData 0%nat; OpWaveguide 0%nat; OpPlotGrid 0%nat]
               Fixture.world0)) <= 1)%nat
  /\ (exists w1,
        waveguide 0%nat
          (run_ops [OpIndex 0%nat; OpData 0%nat; OpWaveguide 0%nat; OpPlotGrid 0%nat]
             Fixture.world0)
        = (Ok (Fixture.waveguide_of 0), w1)
        /\ builds 0%nat (trace w1) = 1%nat)
  /\ builds 0%nat (trace (exec (data_item 0%nat "n_eff") Fixture.world0)) = 1%nat.
Proof.
  destruct (waveguide_built_at_most_once Fixture.world0 0%nat (Fixture.instance_of 0)
              [OpIndex 0%nat; OpData 0%nat; OpWaveguide 0%nat; OpPlotGrid 0%nat]
              fixture_lookup_0 eq_refl fixture_unbuilt_0)
    as (Hmost & _ & Hbuild & Hcompute & _).
  split; [exact Hmost|]. split.
  - destruct (Hbuild _ fixture_build_0) as (w1 & Hw & _ & Hone & _).
    exists w1. split; [exact Hw | exact Hone].
  - exact (Hcompute None _ _ eq_refl fixture_disabled_path_0 I
             fixture_build_0 fixture_data_0 "n_eff"%string).
Defined.

(** The first access to a derived property does not always construct the
    simulation object: once object 1 has written the cache file, [n_eff]
    of the new object 2, which has the same cache key, is served from the
    file; the access returns, nothing is constructed and [_waveguide] of
    object 2 is still unset. *)
Lemma derived_property_from_cache_builds_nothing :
  (exists a, fst (n_eff 2%nat (exec (_data 1%nat) Fixture.world0)) = Ok a)
  /\ builds 2%nat (trace (exec (n_eff 2%nat) (exec (_data 1%nat) Fixture.world0)))
     = 0%nat
  /\ (exists i,
        heap (exec (n_eff 2%nat) (exec (_data 1%nat) Fixture.world0)) !! 2%nat = Some i
        /\ _waveguide i = None
        /\ is_Some (_cached_data i)).
Proof.
  split; [vm_compute; eauto|]. split; [vm_compute; reflexivity|].
  vm_compute. eexists. split; [reflexivity|]. split; [reflexivity | eauto].
Qed.

(** [plot_field] obtains the data before it looks at its arguments: on a new
    instance the solver has run when the out-of-range mode index or the
    unknown field name is reported. And a name is refused only through
    what the mapping holds under it: from a cache file that holds the Ex
    samples under the name "Foo", that name is plotted. *)
Lemma plot_field_computes_before_rejecting :
  (fst (plot_field 0%nat "Ex" "real" 2 None ∅ Fixture.world0)
     = Raise (ValueError "mode_index = 2 must be less than num_modes 2")
   /\ trace (exec (plot_field 0%nat "Ex" "real" 2 None ∅) Fixture.world0)
      = [EvBuild 0%nat; EvSolve 0%nat])
  /\ (fst (plot_field 0%nat "Foo" "real" 0 None ∅ Fixture.world0)
        = Raise (KeyError "Foo")
      /\ trace (exec (plot_field 0%nat "Foo" "real" 0 None ∅) Fixture.world0)
         = [EvBuild 0%nat; EvSolve 0%nat])
  /\ (exists art,
        fst (plot_field 1%nat "Foo" "real" 0 None ∅ Cases.foreign_cache) = Ok art
        /\ art_name art = Some "Foo"%string).
Proof.
  split; [vm_compute; split; reflexivity|].
  split; [vm_compute; split; reflexivity|].
  vm_compute. eexists. split; reflexivity.
Qed.

Example fixture_not_component : ~ In "n_eff"%string component_names.
Proof. vm_compute. intuition discriminate. Qed.

Example fixture_layout_0 :
  forall d, fst (_data 0%nat Fixture.world0) = Ok d ->
            computed_layout (config (Fixture.instance_of 0)) d.
Proof.
  intros d Hd. rewrite fixture_data_run_0 in Hd. injection Hd as <-.
  exists (mode_solver (Fixture.waveguide_of 0)).
  split; [exact fixture_data_0|].
  split; [|split].
  - exists [[(2%float, 0.5%float); (1.5%float, 0.25%float)]].
    split; [reflexivity|]. split; [reflexivity|]. repeat constructor.
  - exists [[0.5%float; 0.75%float]].
    split; [reflexivity|]. split; [reflexivity|]. repeat constructor.
  - intros g Hg. discriminate Hg.
Qed.

Lemma plot_field_rejects_after_data_witness :
  exec (plot_field 0%nat "n_eff" "real" 0 None ∅) Fixture.world0
    = exec (_data 0%nat) Fixture.world0
  /\ exists e, fst (plot_field 0%nat "n_eff" "real" 0 None ∅ Fixture.world0) = Raise e.
Proof.
  destruct (plot_field_rejects_after_data Fixture.world0 0%nat (Fixture.instance_of 0)
              "n_eff" "real" 0 None ∅ fixture_lookup_0
              (or_intror (or_intror (conj fixture_not_component fixture_layout_0))))
    as (Hsame & e & He & _).
  split; [exact Hsame | exists e; exact He].
Defined.

(** Binary64 rounds: on the new object 0, whose mode 0 has
    |Ex|^2 summing to 2 and |Ey|^2 summing to 9, the computed result holds
    fraction_te[0] = 0x1.745d1745d1745p-3 and
    fraction_tm[0] = 0x1.a2e8ba2e8ba2ep-1, whose sum is the float just below
    1. *)
Lemma fractions_sum_below_one_in_binary64 :
  exists d te tm,
    fst (_data 0%nat Fixture.world0) = Ok d
    /\ d !! "fraction_te"%string
       = Some (ArrF (Np.of_row [0x1.745d1745d1745p-3%float; te]))
    /\ d !! "fraction_tm"%string
       = Some (ArrF (Np.of_row [0x1.a2e8ba2e8ba2ep-1%float; tm]))
    /\ PrimFloat.add 0x1.745d1745d1745p-3 0x1.a2e8ba2e8ba2ep-1
       = 0x1.fffffffffffffp-1%float
    /\ PrimFloat.ltb (PrimFloat.add 0x1.745d1745d1745p-3 0x1.a2e8ba2e8ba2ep-1) 1
       = true.
Proof.
  exists (Fixture.data_of 0), 0.25%float, 0.75%float.
  vm_compute. repeat split; reflexivity.
Qed.

(** A mode with no transverse field divides zero by zero: both fractions
    are NaN. *)
Example fractions_nan_on_zero_field :
  is_nan (fst (fractions_of_mode (Nd [El (0%float, 0%float)])
                                 (Nd [El (0%float, 0%float)]))) = true
  /\ is_nan (snd (fractions_of_mode (Nd [El (0%float, 0%float)])
                                    (Nd [El (0%float, 0%float)]))) = true.
Proof. vm_compute. split; reflexivity. Qed.

(** With [overwrite] set, a second instance of the same configuration runs
    the solver again although its cache file exists. *)
Example overwrite_recomputes :
  let w1 := exec (_data 3%nat) Fixture.world0 in
  filepath_of (config (Fixture.instance_of 3)) = filepath_of (config (Fixture.instance_of 4))
  /\ (exists f, filepath_of (config (Fixture.instance_of 4)) = Ok (Some f)
                /\ is_Some (files w1 !! f)
                /\ trace (exec (_data 4%nat) w1)
                   = trace w1 ++ [EvMkdir "cache"; EvBuild 4%nat; EvSolve 4%nat; EvSave f]).
Proof.
  cbv zeta. split; [reflexivity|].
  eexists. split; [vm_compute; reflexivity|].
  split; [vm_compute; eauto | vm_compute; reflexivity].
Qed.

(** Two wavelengths and two modes: the entries of [loss_array] are the closed
    form at the matching wavelength and mode. *)
Example loss_array_two_by_two :
  let N := [[(2%float, 0.5%float); (1.5%float, 0.25%float)];
            [(2%float, 0.125%float); (1.5%float, 0.0625%float)]] in
  loss_array (Np.of_row [1.5%float; 1.25%float]) (ArrC (Np.squeeze (Np.of_matrix N)))
  = Ok (Np.of_matrix
          [[loss_closed_form 0.5 1.5; loss_closed_form 0.25 1.5];
           [loss_closed_form 0.125 1.25; loss_closed_form 0.0625 1.25]]).
Proof. vm_compute. reflexivity. Qed.

(** Facts of the two worlds for the further properties. *)


Example fixture_others_than_0 :
  Forall (fun o => Forall (fun s => s <> 0%nat) (targets o))
    [OpData 1%nat; OpPlotGrid 2%nat; OpOverlap 1%nat 2%nat true;
     OpNew (WFloat 1.5%float) (Fixture.settings_of None false)].
Proof. repeat (constructor; try discriminate). Qed.

Lemma instances_are_independent_witness :
  heap (run_ops [OpData 1%nat; OpPlotGrid 2%nat; OpOverlap 1%nat 2%nat true;
                 OpNew (WFloat 1.5%float) (Fixture.settings_of None false)]
          Fixture.world0) !! 0%nat
  = Some (Fixture.instance_of 0).
Proof.
  exact (instances_are_independent Fixture.world0 0%nat (Fixture.instance_of 0) _
           fixture_lookup_0 fixture_others_than_0).
Defined.

Lemma data_memoized_witness :
  _data 0%nat (run_ops [OpPlotGrid 0%nat; OpData 1%nat; OpLoss 0%nat]
                 (exec (_data 0%nat) Fixture.world0))
  = (Ok (Fixture.data_of 0),
     run_ops [OpPlotGrid 0%nat; OpData 1%nat; OpLoss 0%nat]
       (exec (_data 0%nat) Fixture.world0)).
Proof.
  exact (data_memoized Fixture.world0 _ 0%nat (Fixture.data_of 0)
           [OpPlotGrid 0%nat; OpData 1%nat; OpLoss 0%nat] fixture_data_run_0).
Defined.

Example fixture_disabled_0 : cache_enabled (config (Fixture.instance_of 0)) = false.
Proof. vm_compute. reflexivity. Qed.

Example fixture_only_0 :
  Forall (fun o => Forall (fun s => s = 0%nat) (targets o))
    [OpData 0%nat; OpLoss 0%nat; OpFilepath 0%nat;
     OpPlotField 0%nat "Ex" "dB" 0 None ∅; OpOverlap 0%nat 0%nat true].
Proof. repeat (constructor; try reflexivity). Qed.

Lemma disabled_cache_never_touches_files_witness :
  let ops := [OpData 0%nat; OpLoss 0%nat; OpFilepath 0%nat;
              OpPlotField 0%nat "Ex" "dB" 0 None ∅; OpOverlap 0%nat 0%nat true] in
  files (run_ops ops Fixture.world0) = files Fixture.world0
  /\ dirs (run_ops ops Fixture.world0) = dirs Fixture.world0.
Proof.
  exact (disabled_cache_never_touches_files Fixture.world0 0%nat
           (Fixture.instance_of 0) _ fixture_lookup_0 fixture_disabled_0
           fixture_only_0).
Defined.

Example fixture_geometry_only :
  Forall (fun o => needs_no_data o = true)
    [OpIndex 1%nat; OpFilepath 1%nat; OpRepr 2%nat; OpPlotGrid 0%nat;
     OpPlotIndex 3%nat ∅; OpDisplay 4%nat].
Proof. repeat (constructor; try reflexivity). Qed.

Lemma geometry_needs_no_data_witness :
  data_state (run_ops [OpIndex 1%nat; OpFilepath 1%nat; OpRepr 2%nat; OpPlotGrid 0%nat;
                       OpPlotIndex 3%nat ∅; OpDisplay 4%nat] Fixture.world0)
  = data_state Fixture.world0.
Proof.
  exact (geometry_needs_no_data Fixture.world0 _ fixture_geometry_only).
Defined.

Lemma overlap_bypasses_cache_witness :
  exists w',
    overlap 0%nat 1%nat true Fixture.world0
      = (Ok (Np.squeeze (outer_dot (mode_solver (Fixture.waveguide_of 0))
                                   (mode_solver (Fixture.waveguide_of 1)) true)), w')
    /\ trace w' = trace Fixture.world0 ++ build_events 0%nat (Fixture.instance_of 0)
                    ++ [EvSolve 0%nat]
                    ++ (if decide (0%nat = 1%nat) then []
                        else build_events 1%nat (Fixture.instance_of 1))
                    ++ [EvSolve 1%nat]
    /\ files w' = files Fixture.world0
    /\ dirs w' = dirs Fixture.world0
    /\ omap _cached_data (heap w') = omap _cached_data (heap Fixture.world0).
Proof.
  exact (overlap_bypasses_cache Fixture.world0 0%nat 1%nat (Fixture.instance_of 0)
           (Fixture.instance_of 1) (Fixture.waveguide_of 0) (Fixture.waveguide_of 1)
           true fixture_lookup_0 fixture_lookup_1 fixture_waveguide_0
           fixture_waveguide_1).
Defined.

Example cases_data_raises_0 :
  _data 0%nat Cases.world
  = (Raise (LibraryError "unknown material"), exec (_data 0%nat) Cases.world).
Proof. vm_compute. reflexivity. Qed.

Lemma failed_data_writes_no_file_witness :
  files (exec (_data 0%nat) Cases.world) = files Cases.world.
Proof.
  exact (failed_data_writes_no_file Cases.world _ 0%nat _ cases_data_raises_0).
Defined.

Example cases_lookup_0 : heap Cases.world !! 0%nat = Some (Cases.instance_of 0).
Proof. vm_compute. reflexivity. Qed.

Example cases_lookup_1 : heap Cases.world !! 1%nat = Some (Cases.instance_of 1).
Proof. vm_compute. reflexivity. Qed.

Example cases_fresh_1 : _cached_data (Cases.instance_of 1) = None.
Proof. vm_compute. reflexivity. Qed.

Example cases_filepath_1 : filepath_of (config (Cases.instance_of 1)) = Ok None.
Proof. vm_compute. reflexivity. Qed.

Example cases_waveguide_1 : the_waveguide (Cases.instance_of 1) = Ok Cases.simulation.
Proof. vm_compute. reflexivity. Qed.

Example cases_entries_1 :
  field_entries (md_fields (mode_solver Cases.simulation)) = Ok Cases.entries.
Proof. vm_compute. reflexivity. Qed.

Example cases_fractions_1 :
  polarization_fractions (config (Cases.instance_of 1))
    (md_fields (mode_solver Cases.simulation))
  = Raise (KeyError "mode_index").
Proof. vm_compute. reflexivity. Qed.

Lemma failed_fractions_leave_partial_data_witness :
  exists w1,
    _data 1%nat Cases.world = (Raise (KeyError "mode_index"), w1)
    /\ files w1 = files Cases.world
    /\ (forall ops,
          _data 1%nat (run_ops ops w1)
          = (Ok (partial_data (mode_solver Cases.simulation) Cases.entries),
             run_ops ops w1)
          /\ fst (fraction_te 1%nat (run_ops ops w1)) = Raise (KeyError "fraction_te")
          /\ fst (fraction_tm 1%nat (run_ops ops w1)) = Raise (KeyError "fraction_tm")).
Proof.
  exact (failed_fractions_leave_partial_data Cases.world 1%nat (Cases.instance_of 1)
           None Cases.simulation Cases.entries (KeyError "mode_index")
           cases_lookup_1 cases_fresh_1 cases_filepath_1 I cases_waveguide_1
           cases_entries_1 cases_fractions_1).
Defined.

Example fixture_filepath_0 : filepath_of (config (Fixture.instance_of 0)) = Ok None.
Proof. vm_compute. reflexivity. Qed.

Lemma computed_result_accessors_witness :
  fst (_data 0%nat Fixture.world0) = Ok (Fixture.data_of 0)
  /\ dom (Fixture.data_of 0)
     = list_to_set (computed_keys (mode_solver (Fixture.waveguide_of 0)))
  /\ fst (n_eff 0%nat Fixture.world0)
     = Ok (ArrC (Np.squeeze (md_n_complex (mode_solver (Fixture.waveguide_of 0)))))
  /\ fst (mode_area 0%nat Fixture.world0)
     = Ok (ArrF (Np.squeeze (md_mode_area (mode_solver (Fixture.waveguide_of 0)))))
  /\ fst (n_group 0%nat Fixture.world0)
     = Ok ((fun g => ArrF (Np.squeeze g))
             <$> md_n_group (mode_solver (Fixture.waveguide_of 0)))
  /\ exists te tm,
       polarization_fractions (config (Fixture.instance_of 0))
         (md_fields (mode_solver (Fixture.waveguide_of 0))) = Ok (te, tm)
       /\ fst (fraction_te 0%nat Fixture.world0) = Ok (ArrF (Np.of_row te))
       /\ fst (fraction_tm 0%nat Fixture.world0) = Ok (ArrF (Np.of_row tm)).
Proof.
  exact (computed_result_accessors Fixture.world0 0%nat (Fixture.instance_of 0)
           None (Fixture.waveguide_of 0) (Fixture.data_of 0)
           fixture_lookup_0 (fixture_fresh 0) fixture_filepath_0 I
           fixture_waveguide_0 fixture_data_0).
Defined.

Example fixture_enabled_1 : cache_enabled (config (Fixture.instance_of 1)) = true.
Proof. vm_compute. reflexivity. Qed.

Example fixture_filepath_run_1 :
  exists f, fst (filepath 1%nat Fixture.world0) = Ok f.
Proof. vm_compute. eauto. Qed.

Lemma repr_succeeds_iff_fields_serialize_witness :
  exists s, fst (__repr__ 1%nat Fixture.world0) = Ok s.
Proof.
  destruct (repr_succeeds_iff_fields_serialize Fixture.world0 1%nat
              (Fixture.instance_of 1) fixture_lookup_1)
    as (_ & _ & _ & Hpath & _).
  exact (Hpath fixture_enabled_1 fixture_filepath_run_1).
Defined.

Example cases_three_size : 0 < Np.size (wavelength Cases.three_wavelengths).
Proof. vm_compute. reflexivity. Qed.

Lemma wavelength_index_in_range_witness :
  exists k, wavelength_index Cases.three_wavelengths (Some 1.6875%float) = Ok k
            /\ 0 <= k < Np.size (wavelength Cases.three_wavelengths)
            /\ (opt_truthy (Some 1.6875%float) = false
                -> k = Np.size (wavelength Cases.three_wavelengths) / 2).
Proof.
  exact (wavelength_index_in_range Cases.three_wavelengths (Some 1.6875%float)
           cases_three_size).
Defined.

Example cases_three_row :
  wavelength Cases.three_wavelengths = Np.of_row [1.5%float; 1.625%float; 1.75%float].
Proof. reflexivity. Qed.

Example cases_three_length : (1 < length [1.5%float; 1.625%float; 1.75%float])%nat.
Proof. cbn. lia. Qed.

Lemma index_uses_middle_wavelength_witness :
  exists x, [1.5%float; 1.625%float; 1.75%float] !! (3 / 2)%nat = Some x
            /\ index_wavelength Cases.three_wavelengths = Ok (El x)
            /\ wavelength_index Cases.three_wavelengths None
               = Ok (Z.of_nat (3 / 2)).
Proof.
  exact (index_uses_middle_wavelength Cases.three_wavelengths
           [1.5%float; 1.625%float; 1.75%float] cases_three_row cases_three_length).
Defined.

Example cases_unbuilt_0 : _waveguide (Cases.instance_of 0) = None.
Proof. vm_compute. reflexivity. Qed.

Example cases_build_fails_0 :
  build_waveguide (config (Cases.instance_of 0))
  = Raise (LibraryError "unknown material").
Proof. vm_compute. reflexivity. Qed.

Lemma failed_build_is_repeated_witness :
  let w' := run_ops [OpData 0%nat; OpWaveguide 0%nat; OpData 1%nat; OpIndex 0%nat]
              Cases.world in
  waveguide 0%nat w' = (Raise (LibraryError "unknown material"), w')
  /\ index 0%nat w' = (Raise (LibraryError "unknown material"), w')
  /\ plot_grid 0%nat w' = (Raise (LibraryError "unknown material"), w').
Proof.
  exact (failed_build_is_repeated Cases.world 0%nat (Cases.instance_of 0)
           (LibraryError "unknown material")
           [OpData 0%nat; OpWaveguide 0%nat; OpData 1%nat; OpIndex 0%nat]
           cases_lookup_0 cases_unbuilt_0 cases_build_fails_0).
Defined.

Example fixture_Ex_0 :
  Fixture.data_of 0 !! "Ex" = Some (ArrC (Np.squeeze Fixture.Ex)).
Proof. vm_compute. reflexivity. Qed.

Example fixture_x_0 :
  Fixture.data_of 0 !! "x" = Some (ArrF (Np.of_row (md_x Fixture.mode_data))).
Proof. vm_compute. reflexivity. Qed.

Example fixture_y_0 :
  Fixture.data_of 0 !! "y" = Some (ArrF (Np.of_row (md_y Fixture.mode_data))).
Proof. vm_compute. reflexivity. Qed.

Example fixture_mode_0 : 0 < num_modes (config (Fixture.instance_of 0)).
Proof. vm_compute. reflexivity. Qed.

Example fixture_plotted_0 :
  field_values (config (Fixture.instance_of 0)) (ArrC (Np.squeeze Fixture.Ex))
    "dB" 0 None
  = Ok Cases.plotted.
Proof. vm_compute. reflexivity. Qed.

Example fixture_accepted_0 :
  DataArray (Np.T Cases.plotted)
    (ArrF (Np.of_row (md_y Fixture.mode_data)))
    (ArrF (Np.of_row (md_x Fixture.mode_data)))
  = Ok tt.
Proof. vm_compute. reflexivity. Qed.

Example fixture_plane_0 : Np.shape (Np.squeeze (Np.T Cases.plotted)) = [3; 3]%nat.
Proof. vm_compute. reflexivity. Qed.

Lemma plot_field_draws_witness :
  plot_field 0%nat "Ex" "dB" 0 None {["vmin" := 3%float]} Fixture.world0
  = (Ok {| art_name := Some "Ex"%string;
           art_values := Np.T Cases.plotted;
           art_coords := Some (ArrF (Np.of_row (md_y Fixture.mode_data)),
                               ArrF (Np.of_row (md_x Fixture.mode_data)));
           art_kwargs := if String.eqb "dB" "dB"
                         then <["vmin" := (-20)%float]> {["vmin" := 3%float]}
                         else {["vmin" := 3%float]} |},
     emit [EvPlot 0%nat] (exec (_data 0%nat) Fixture.world0)).
Proof.
  refine (plot_field_draws Fixture.world0 _ 0%nat (Fixture.instance_of 0)
            (Fixture.data_of 0) "Ex" "dB" 0 None {["vmin" := 3%float]}
            (ArrC (Np.squeeze Fixture.Ex))
            (ArrF (Np.of_row (md_x Fixture.mode_data)))
            (ArrF (Np.of_row (md_y Fixture.mode_data)))
            Cases.plotted 3 3
            fixture_lookup_0 fixture_data_run_0 fixture_Ex_0 fixture_x_0 fixture_y_0
            fixture_mode_0 fixture_plotted_0 fixture_accepted_0 fixture_plane_0 _ _);
    discriminate.
Defined.


End FixtureFacts.
